(** * Scr: the portable text-mode screen library (screen.cpp, POSIX/curses build)

    A shallow embedding of the virtual screen buffer of [scr], of its
    attribute and box-glyph model, of the diff-based [refresh] and of the
    [initialize]/[terminate] life cycle, with the properties the
    specification states about them.

    Conventions.
    - A C++ [int] is a [Z] in the range [int_min .. int_max]; additions,
      subtractions and multiplications are written with their 32-bit
      two's-complement wrap-around ([Int.add], [Int.sub], [Int.mul]).
    - A [char] is its bit pattern, a [Z] in [0 .. 255]; storing an [int] in a
      [char] keeps the low eight bits ([to_char]).
    - A heap array ([screen_image], [physical_image]) and a caller buffer are
      lists of bytes.  A pointer into one is its byte offset.  Every load and
      store is checked: an access outside the array has no defined result and
      the operation yields [None].
    - Counting loops run their trip count; the loop state is passed
      explicitly. *)

From Stdlib Require Import ZArith Lia List Bool.
From stdpp Require Import base list gmap.

Local Open Scope Z_scope.

(** ** Machine integers *)

Module Int.

Definition int_min : Z := -2147483648.
Definition int_max : Z := 2147483647.

(** Two's-complement reduction of a mathematical integer to an [int]. *)
Definition wrap (z : Z) : Z := (z + 2147483648) mod 4294967296 - 2147483648.

Definition add (a b : Z) : Z := wrap (a + b).
Definition sub (a b : Z) : Z := wrap (a - b).
Definition mul (a b : Z) : Z := wrap (a * b).

(** Conversion of an [int] to [unsigned]. *)
Definition to_unsigned (z : Z) : Z := z mod 4294967296.

Definition in_range (z : Z) : Prop := int_min <= z <= int_max.

End Int.

(** [static_cast<char>(int)]: the low eight bits. *)
Definition to_char (z : Z) : Z := z mod 256.

(** ** Colour codes (scr.hpp) *)

Definition BLACK : Z := 0x00.
Definition BLUE : Z := 0x01.
Definition GREEN : Z := 0x02.
Definition CYAN : Z := 0x03.
Definition RED : Z := 0x04.
Definition MAGENTA : Z := 0x05.
Definition BROWN : Z := 0x06.
Definition WHITE : Z := 0x07.
Definition REV_BLACK : Z := 0x00.
Definition REV_BLUE : Z := 0x10.
Definition REV_GREEN : Z := 0x20.
Definition REV_CYAN : Z := 0x30.
Definition REV_RED : Z := 0x40.
Definition REV_MAGENTA : Z := 0x50.
Definition REV_BROWN : Z := 0x60.
Definition REV_WHITE : Z := 0x70.
Definition BRIGHT : Z := 0x08.
Definition BLINK : Z := 0x80.

(** ** Attribute manipulation *)

(** [convert_attribute] of the POSIX build; [color_works] is the global set
    by [initialize_colors]. *)
Definition convert_attribute (color_works : bool) (attribute : Z) : Z :=
  if color_works then attribute
  else if Z.land attribute 0x70 =? REV_BLACK
       then Z.lor attribute WHITE
       else Z.land (Z.lor attribute REV_WHITE) 0xF8.

Definition reverse_attribute (attribute : Z) : Z :=
  let first := Z.land attribute 0x07 in
  let second := Z.shiftr (Z.land attribute 0x70) 4 in
  let attribute := Z.land attribute 0xf8 in
  let attribute := Z.land attribute 0x8f in
  let attribute := Z.lor attribute (Z.shiftl first 4) in
  let attribute := Z.lor attribute second in
  attribute.

(** ** Box drawing characters *)

Record BoxChars := mkBoxChars {
  horizontal : Z;
  vertical : Z;
  upper_left : Z;
  upper_right : Z;
  lower_left : Z;
  lower_right : Z;
  left_stop : Z;
  right_stop : Z;
  top_stop : Z;
  bottom_stop : Z;
  cross : Z
}.

Inductive BoxType :=
| DOUBLE_LINE
| SINGLE_LINE
| DARK_GRAPHIC
| LIGHT_GRAPHIC
| SOLID
| ASCII
| BLANK_BOX
| NO_BORDER.

(** The value of an enumerator. *)
Definition ordinal (t : BoxType) : nat :=
  match t with
  | DOUBLE_LINE => 0
  | SINGLE_LINE => 1
  | DARK_GRAPHIC => 2
  | LIGHT_GRAPHIC => 3
  | SOLID => 4
  | ASCII => 5
  | BLANK_BOX => 6
  | NO_BORDER => 7
  end%nat.

Definition all_box_types : list BoxType :=
  [DOUBLE_LINE; SINGLE_LINE; DARK_GRAPHIC; LIGHT_GRAPHIC; SOLID; ASCII;
   BLANK_BOX; NO_BORDER].

Definition box_definitions : list BoxChars :=
  [ mkBoxChars 205 186 201 187 200 188 181 198 208 210 206;
    mkBoxChars 196 179 218 191 192 217 180 195 193 194 197;
    mkBoxChars 177 177 177 177 177 177 177 177 177 177 177;
    mkBoxChars 176 176 176 176 176 176 176 176 176 176 176;
    mkBoxChars 219 219 219 219 219 219 219 219 219 219 219;
    mkBoxChars 45 124 43 43 43 43 43 43 43 43 43;
    mkBoxChars 32 32 32 32 32 32 32 32 32 32 32 ].

(** [get_box_characters] returns [&box_definitions[i]]; the model returns the
    element the pointer designates, [None] when there is no such element.
    [ascii_boxes] tells whether the library was built with SCR_ASCIIBOXES. *)
Definition get_box_characters (ascii_boxes : bool) (the_type : BoxType)
  : option BoxChars :=
  if ascii_boxes then
    match the_type with
    | BLANK_BOX => box_definitions !! ordinal BLANK_BOX
    | _ => box_definitions !! ordinal ASCII
    end
  else box_definitions !! ordinal the_type.

(** ** Memory: checked loads and stores *)

Notation "'let?' x ':=' e 'in' k" :=
  (match e with Some x => k | None => None end)
  (at level 10, x pattern, e at level 200, k at level 200, only parsing).

(** [*p] *)
Definition load (m : list Z) (p : Z) : option Z :=
  if 0 <=? p then m !! Z.to_nat p else None.

(** [*p = v] *)
Definition store (m : list Z) (p : Z) (v : Z) : option (list Z) :=
  if (0 <=? p) && (p <? Z.of_nat (length m))
  then Some (<[Z.to_nat p := v]> m)
  else None.

(** The [n] bytes at [p]; the source half of a [memcpy]. *)
Definition load_bytes (m : list Z) (p n : Z) : option (list Z) :=
  if (0 <=? p) && (0 <=? n) && (p + n <=? Z.of_nat (length m))
  then Some (take (Z.to_nat n) (drop (Z.to_nat p) m))
  else None.

(** Overwrite the bytes at [p] by [bs]; the destination half of a [memcpy]. *)
Definition store_bytes (m : list Z) (p : Z) (bs : list Z) : option (list Z) :=
  if (0 <=? p) && (p + Z.of_nat (length bs) <=? Z.of_nat (length m))
  then Some (take (Z.to_nat p) m ++ bs ++ drop (Z.to_nat p + length bs) m)
  else None.

(** [memcpy(dst + dp, src + sp, n)] between two distinct arrays. *)
Definition memcpy (dst : list Z) (dp : Z) (src : list Z) (sp n : Z)
  : option (list Z) :=
  let? bs := load_bytes src sp n in store_bytes dst dp bs.

(** [memcpy(m + dp, m + sp, n)] inside one array: not defined when the two
    ranges overlap. *)
Definition memcpy_within (m : list Z) (dp sp n : Z) : option (list Z) :=
  if (0 <? n) && (sp <? dp + n) && (dp <? sp + n) then None
  else memcpy m dp m sp n.

(** ** Region clamping *)

Definition adjust_dimensions (total_rows total_columns : Z) (r c w h : Z)
  : Z * Z * Z * Z :=
  let r := if r <? 1 then 1 else r in
  let r := if r >? total_rows then total_rows else r in
  let c := if c <? 1 then 1 else c in
  let c := if c >? total_columns then total_columns else c in
  let h := if h <=? 0 then 1 else h in
  let w := if w <=? 0 then 1 else w in
  let h := if Int.sub (Int.add r h) 1 >? total_rows
           then Int.add (Int.sub total_rows r) 1 else h in
  let w := if Int.sub (Int.add c w) 1 >? total_columns
           then Int.add (Int.sub total_columns c) 1 else w in
  (r, c, w, h).

(** [((row - 1) * 2 * total_columns) + (column - 1) * 2], the two [int]
    summands being added to the image pointer one after the other. *)
Definition cell_offset (total_columns row column : Z) : Z :=
  Int.mul (Int.mul (Int.sub row 1) 2) total_columns
  + Int.mul (Int.sub column 1) 2.

(** ** The loops of the buffer operations

    [screen_pointer], [destination], [source_pointer] are offsets into the
    screen image, [bp] is the offset of the caller's [buffer] pointer. *)

(** [for (number_of_rows = height; number_of_rows > 0; number_of_rows--)] of
    [read]. *)
Fixpoint read_rows (total_columns : Z) (n : nat) (row_length : Z)
    (screen_pointer bp : Z) (screen_image buffer : list Z)
  : option (list Z) :=
  match n with
  | O => Some buffer
  | S n' =>
      let? buffer := memcpy buffer bp screen_image screen_pointer row_length in
      read_rows total_columns n' row_length
        (screen_pointer + Int.mul 2 total_columns) (bp + row_length)
        screen_image buffer
  end.

(** The same loop in [write]. *)
Fixpoint write_rows (total_columns : Z) (n : nat) (row_length : Z)
    (screen_pointer bp : Z) (buffer screen_image : list Z)
  : option (list Z) :=
  match n with
  | O => Some screen_image
  | S n' =>
      let? screen_image :=
        memcpy screen_image screen_pointer buffer bp row_length in
      write_rows total_columns n' row_length
        (screen_pointer + Int.mul 2 total_columns) (bp + row_length)
        buffer screen_image
  end.

(** [for (i = 0; i < width; i++, source++) *buffer++ = *source++;] *)
Fixpoint read_text_cols (n : nat) (source bp : Z)
    (screen_image buffer : list Z) : option (list Z * Z) :=
  match n with
  | O => Some (buffer, bp)
  | S n' =>
      let? ch := load screen_image source in
      let? buffer := store buffer bp ch in
      read_text_cols n' (source + 2) (bp + 1) screen_image buffer
  end.

Fixpoint read_text_rows (total_columns : Z) (n : nat) (width : Z)
    (screen_pointer bp : Z) (screen_image buffer : list Z)
  : option (list Z) :=
  match n with
  | O => Some buffer
  | S n' =>
      let? (buffer, bp) :=
        read_text_cols (Z.to_nat width) screen_pointer bp screen_image buffer in
      read_text_rows total_columns n' width
        (screen_pointer + Int.mul 2 total_columns) bp screen_image buffer
  end.

(** [for (i = 0; i < width; i++, destination++) *destination++ = *buffer++;] *)
Fixpoint write_text_cols (n : nat) (destination bp : Z)
    (buffer screen_image : list Z) : option (list Z * Z) :=
  match n with
  | O => Some (screen_image, bp)
  | S n' =>
      let? ch := load buffer bp in
      let? screen_image := store screen_image destination ch in
      write_text_cols n' (destination + 2) (bp + 1) buffer screen_image
  end.

Fixpoint write_text_rows (total_columns : Z) (n : nat) (width : Z)
    (screen_pointer bp : Z) (buffer screen_image : list Z)
  : option (list Z) :=
  match n with
  | O => Some screen_image
  | S n' =>
      let? (screen_image, bp) :=
        write_text_cols (Z.to_nat width) screen_pointer bp buffer screen_image in
      write_text_rows total_columns n' width
        (screen_pointer + Int.mul 2 total_columns) bp buffer screen_image
  end.

Definition maximum_print_size : Z := 1024.

(** [std::vsnprintf(work_buffer, size, format, args)], where [formatted] is
    the expansion of the format: at most [size - 1] of its characters are
    stored, then a terminator; the rest of the buffer keeps its contents. *)
Definition vsnprintf (work_buffer : list Z) (size : Z) (formatted : list Z)
  : list Z :=
  let stored := take (Z.to_nat (size - 1)) formatted ++ [0] in
  stored ++ drop (length stored) work_buffer.

(** the [while] loop of [print]; [string] is the part of
    [work_buffer] from the pointer on. *)
Fixpoint print_loop (string : list Z) (width screen_pointer attribute : Z)
    (screen_image : list Z) : option (list Z) :=
  match string with
  | [] => None
  | ch :: string' =>
      if ch =? 0 then Some screen_image
      else if width =? 0 then Some screen_image
      else
        let? screen_image := store screen_image screen_pointer ch in
        let? screen_image :=
          store screen_image (screen_pointer + 1) (to_char attribute) in
        print_loop string' (Int.sub width 1) (screen_pointer + 2) attribute
          screen_image
  end.

(** The same loop in [print_text]: the attribute byte is stepped over. *)
Fixpoint print_text_loop (string : list Z) (width screen_pointer : Z)
    (screen_image : list Z) : option (list Z) :=
  match string with
  | [] => None
  | ch :: string' =>
      if ch =? 0 then Some screen_image
      else if width =? 0 then Some screen_image
      else
        let? screen_image := store screen_image screen_pointer ch in
        print_text_loop string' (Int.sub width 1) (screen_pointer + 2)
          screen_image
  end.

(** [for (i = 0; i < width; i++)] of [clear]. *)
Fixpoint clear_cols (n : nat) (destination attribute : Z)
    (screen_image : list Z) : option (list Z) :=
  match n with
  | O => Some screen_image
  | S n' =>
      let? screen_image := store screen_image destination 32 in
      let? screen_image :=
        store screen_image (destination + 1) (to_char attribute) in
      clear_cols n' (destination + 2) attribute screen_image
  end.

(** [for (; height > 0; height--)] of [clear]. *)
Fixpoint clear_rows (total_columns : Z) (n : nat) (width : Z)
    (screen_pointer attribute : Z) (screen_image : list Z)
  : option (list Z) :=
  match n with
  | O => Some screen_image
  | S n' =>
      let? screen_image :=
        clear_cols (Z.to_nat width) screen_pointer attribute screen_image in
      clear_rows total_columns n' width
        (screen_pointer + Int.mul 2 total_columns) attribute screen_image
  end.

Fixpoint set_color_cols (n : nat) (destination attribute : Z)
    (screen_image : list Z) : option (list Z) :=
  match n with
  | O => Some screen_image
  | S n' =>
      let? screen_image :=
        store screen_image (destination + 1) (to_char attribute) in
      set_color_cols n' (destination + 2) attribute screen_image
  end.

Fixpoint set_color_rows (total_columns : Z) (n : nat) (width : Z)
    (screen_pointer attribute : Z) (screen_image : list Z)
  : option (list Z) :=
  match n with
  | O => Some screen_image
  | S n' =>
      let? screen_image :=
        set_color_cols (Z.to_nat width) screen_pointer attribute screen_image in
      set_color_rows total_columns n' width
        (screen_pointer + Int.mul 2 total_columns) attribute screen_image
  end.

Inductive direction_t := UP | DOWN.

(** The copying loop of [scroll]; [step] is [2 * total_columns] when
    scrolling up ([+=]) and its opposite when scrolling down ([-=]). *)
Fixpoint scroll_rows (n : nat) (width : Z)
    (screen_pointer source_pointer step : Z) (screen_image : list Z)
  : option (list Z) :=
  match n with
  | O => Some screen_image
  | S n' =>
      let? screen_image :=
        memcpy_within screen_image screen_pointer source_pointer
          (Int.mul 2 width) in
      scroll_rows n' width (screen_pointer + step) (source_pointer + step)
        step screen_image
  end.

(** ** The terminal (curses) as seen by the library *)

(** The alternate character set symbols of curses used for boxes. *)
Inductive acs :=
| ACS_HLINE | ACS_VLINE | ACS_ULCORNER | ACS_URCORNER | ACS_LLCORNER
| ACS_LRCORNER | ACS_RTEE | ACS_LTEE | ACS_BTEE | ACS_TTEE | ACS_PLUS
| ACS_CKBOARD.

(** A [chtype]: a glyph or-ed with [A_BLINK], [A_BOLD] and a [COLOR_PAIR]. *)
Inductive glyph := Raw (c : Z) | Acs (a : acs).

Record chtype := mkChtype {
  ch_glyph : glyph;
  ch_blink : bool;
  ch_bold : bool;
  ch_color_pair : option Z
}.

Inductive array_name := ScreenImage | PhysicalImage.

(** Calls that leave the library: keyboard decoder, curses, allocator. *)
Inductive event :=
| initialize_key
| terminate_key
| initscr
| raw
| noecho
| nonl
| intrflush
| keypad
| start_color
| init_pair (pair foreground background : Z)
| endwin
| werase
| move (y x : Z)
| addch (c : chtype)
| curses_refresh
| reset_shell_mode
| reset_prog_mode
| putp_exit_ca_mode
| putp_enter_ca_mode
| new_array (a : array_name) (n : Z)
| delete_array (a : array_name).

(** What the platform and the terminal decide: the signedness of [char],
    the geometry curses reports, whether [start_color] succeeds, the number of
    colour pairs, and the indeterminate contents of fresh memory. *)
Record platform := mkPlatform {
  char_is_signed : bool;
  LINES : Z;
  COLS : Z;
  start_color_ok : bool;
  COLOR_PAIRS : Z;
  uninitialized : array_name -> nat -> Z
}.

Definition COLOR_BLACK : Z := 0.
Definition COLOR_RED : Z := 1.
Definition COLOR_GREEN : Z := 2.
Definition COLOR_YELLOW : Z := 3.
Definition COLOR_BLUE : Z := 4.
Definition COLOR_MAGENTA : Z := 5.
Definition COLOR_CYAN : Z := 6.
Definition COLOR_WHITE : Z := 7.

(** ** The global data of screen.cpp *)

Record scr := mkScr {
  total_rows : Z;
  total_columns : Z;
  physical_image : option (list Z);
  physical_row : Z;
  physical_column : Z;
  box_character_map : gmap Z acs;
  colors_map : gmap Z Z;
  color_works : bool;
  initialize_counter : Z;
  max_columns : Z;
  max_rows : Z;
  screen_image : option (list Z);
  virtual_column : Z;
  virtual_row : Z;
  work_buffer : list Z;
  trace : list event
}.

Definition set_screen_image (p : option (list Z)) (s : scr) : scr :=
  {| total_rows := total_rows s;
     total_columns := total_columns s;
     physical_image := physical_image s;
     physical_row := physical_row s;
     physical_column := physical_column s;
     box_character_map := box_character_map s;
     colors_map := colors_map s;
     color_works := color_works s;
     initialize_counter := initialize_counter s;
     max_columns := max_columns s;
     max_rows := max_rows s;
     screen_image := p;
     virtual_column := virtual_column s;
     virtual_row := virtual_row s;
     work_buffer := work_buffer s;
     trace := trace s |}.

Definition set_physical_image (p : option (list Z)) (s : scr) : scr :=
  {| total_rows := total_rows s;
     total_columns := total_columns s;
     physical_image := p;
     physical_row := physical_row s;
     physical_column := physical_column s;
     box_character_map := box_character_map s;
     colors_map := colors_map s;
     color_works := color_works s;
     initialize_counter := initialize_counter s;
     max_columns := max_columns s;
     max_rows := max_rows s;
     screen_image := screen_image s;
     virtual_column := virtual_column s;
     virtual_row := virtual_row s;
     work_buffer := work_buffer s;
     trace := trace s |}.

Definition set_physical_cursor (row column : Z) (s : scr) : scr :=
  {| total_rows := total_rows s;
     total_columns := total_columns s;
     physical_image := physical_image s;
     physical_row := row;
     physical_column := column;
     box_character_map := box_character_map s;
     colors_map := colors_map s;
     color_works := color_works s;
     initialize_counter := initialize_counter s;
     max_columns := max_columns s;
     max_rows := max_rows s;
     screen_image := screen_image s;
     virtual_column := virtual_column s;
     virtual_row := virtual_row s;
     work_buffer := work_buffer s;
     trace := trace s |}.

Definition set_virtual_cursor (row column : Z) (s : scr) : scr :=
  {| total_rows := total_rows s;
     total_columns := total_columns s;
     physical_image := physical_image s;
     physical_row := physical_row s;
     physical_column := physical_column s;
     box_character_map := box_character_map s;
     colors_map := colors_map s;
     color_works := color_works s;
     initialize_counter := initialize_counter s;
     max_columns := max_columns s;
     max_rows := max_rows s;
     screen_image := screen_image s;
     virtual_column := column;
     virtual_row := row;
     work_buffer := work_buffer s;
     trace := trace s |}.

Definition set_work_buffer (b : list Z) (s : scr) : scr :=
  {| total_rows := total_rows s;
     total_columns := total_columns s;
     physical_image := physical_image s;
     physical_row := physical_row s;
     physical_column := physical_column s;
     box_character_map := box_character_map s;
     colors_map := colors_map s;
     color_works := color_works s;
     initialize_counter := initialize_counter s;
     max_columns := max_columns s;
     max_rows := max_rows s;
     screen_image := screen_image s;
     virtual_column := virtual_column s;
     virtual_row := virtual_row s;
     work_buffer := b;
     trace := trace s |}.

Definition set_initialize_counter (n : Z) (s : scr) : scr :=
  {| total_rows := total_rows s;
     total_columns := total_columns s;
     physical_image := physical_image s;
     physical_row := physical_row s;
     physical_column := physical_column s;
     box_character_map := box_character_map s;
     colors_map := colors_map s;
     color_works := color_works s;
     initialize_counter := n;
     max_columns := max_columns s;
     max_rows := max_rows s;
     screen_image := screen_image s;
     virtual_column := virtual_column s;
     virtual_row := virtual_row s;
     work_buffer := work_buffer s;
     trace := trace s |}.

Definition set_geometry (rows columns : Z) (s : scr) : scr :=
  {| total_rows := rows;
     total_columns := columns;
     physical_image := physical_image s;
     physical_row := physical_row s;
     physical_column := physical_column s;
     box_character_map := box_character_map s;
     colors_map := colors_map s;
     color_works := color_works s;
     initialize_counter := initialize_counter s;
     max_columns := columns;
     max_rows := rows;
     screen_image := screen_image s;
     virtual_column := virtual_column s;
     virtual_row := virtual_row s;
     work_buffer := work_buffer s;
     trace := trace s |}.

Definition set_color_works (b : bool) (s : scr) : scr :=
  {| total_rows := total_rows s;
     total_columns := total_columns s;
     physical_image := physical_image s;
     physical_row := physical_row s;
     physical_column := physical_column s;
     box_character_map := box_character_map s;
     colors_map := colors_map s;
     color_works := b;
     initialize_counter := initialize_counter s;
     max_columns := max_columns s;
     max_rows := max_rows s;
     screen_image := screen_image s;
     virtual_column := virtual_column s;
     virtual_row := virtual_row s;
     work_buffer := work_buffer s;
     trace := trace s |}.

Definition set_box_character_map (m : gmap Z acs) (s : scr) : scr :=
  {| total_rows := total_rows s;
     total_columns := total_columns s;
     physical_image := physical_image s;
     physical_row := physical_row s;
     physical_column := physical_column s;
     box_character_map := m;
     colors_map := colors_map s;
     color_works := color_works s;
     initialize_counter := initialize_counter s;
     max_columns := max_columns s;
     max_rows := max_rows s;
     screen_image := screen_image s;
     virtual_column := virtual_column s;
     virtual_row := virtual_row s;
     work_buffer := work_buffer s;
     trace := trace s |}.

Definition set_colors_map (m : gmap Z Z) (s : scr) : scr :=
  {| total_rows := total_rows s;
     total_columns := total_columns s;
     physical_image := physical_image s;
     physical_row := physical_row s;
     physical_column := physical_column s;
     box_character_map := box_character_map s;
     colors_map := m;
     color_works := color_works s;
     initialize_counter := initialize_counter s;
     max_columns := max_columns s;
     max_rows := max_rows s;
     screen_image := screen_image s;
     virtual_column := virtual_column s;
     virtual_row := virtual_row s;
     work_buffer := work_buffer s;
     trace := trace s |}.

Definition emit (e : event) (s : scr) : scr :=
  {| total_rows := total_rows s;
     total_columns := total_columns s;
     physical_image := physical_image s;
     physical_row := physical_row s;
     physical_column := physical_column s;
     box_character_map := box_character_map s;
     colors_map := colors_map s;
     color_works := color_works s;
     initialize_counter := initialize_counter s;
     max_columns := max_columns s;
     max_rows := max_rows s;
     screen_image := screen_image s;
     virtual_column := virtual_column s;
     virtual_row := virtual_row s;
     work_buffer := work_buffer s;
     trace := trace s ++ [e] |}.

(** Associates a Scr colour with a colour pair number. *)
Definition color_associations : list (Z * Z) :=
  [
    (Z.lor WHITE REV_BLACK, 0); (Z.lor BLUE REV_BLACK, 1); (Z.lor GREEN REV_BLACK, 2); (Z.lor CYAN REV_BLACK, 3);
    (Z.lor RED REV_BLACK, 4); (Z.lor MAGENTA REV_BLACK, 5); (Z.lor BROWN REV_BLACK, 6); (Z.lor BLACK REV_BLACK, 7);
    (Z.lor WHITE REV_BLUE, 8); (Z.lor BLUE REV_BLUE, 9); (Z.lor GREEN REV_BLUE, 10); (Z.lor CYAN REV_BLUE, 11);
    (Z.lor RED REV_BLUE, 12); (Z.lor MAGENTA REV_BLUE, 13); (Z.lor BROWN REV_BLUE, 14); (Z.lor BLACK REV_BLUE, 15);
    (Z.lor WHITE REV_GREEN, 16); (Z.lor BLUE REV_GREEN, 17); (Z.lor GREEN REV_GREEN, 18); (Z.lor CYAN REV_GREEN, 19);
    (Z.lor RED REV_GREEN, 20); (Z.lor MAGENTA REV_GREEN, 21); (Z.lor BROWN REV_GREEN, 22); (Z.lor BLACK REV_GREEN, 23);
    (Z.lor WHITE REV_CYAN, 24); (Z.lor BLUE REV_CYAN, 25); (Z.lor GREEN REV_CYAN, 26); (Z.lor CYAN REV_CYAN, 27);
    (Z.lor RED REV_CYAN, 28); (Z.lor MAGENTA REV_CYAN, 29); (Z.lor BROWN REV_CYAN, 30); (Z.lor BLACK REV_CYAN, 31);
    (Z.lor WHITE REV_RED, 32); (Z.lor BLUE REV_RED, 33); (Z.lor GREEN REV_RED, 34); (Z.lor CYAN REV_RED, 35);
    (Z.lor RED REV_RED, 36); (Z.lor MAGENTA REV_RED, 37); (Z.lor BROWN REV_RED, 38); (Z.lor BLACK REV_RED, 39);
    (Z.lor WHITE REV_MAGENTA, 40); (Z.lor BLUE REV_MAGENTA, 41); (Z.lor GREEN REV_MAGENTA, 42); (Z.lor CYAN REV_MAGENTA, 43);
    (Z.lor RED REV_MAGENTA, 44); (Z.lor MAGENTA REV_MAGENTA, 45); (Z.lor BROWN REV_MAGENTA, 46); (Z.lor BLACK REV_MAGENTA, 47);
    (Z.lor WHITE REV_BROWN, 48); (Z.lor BLUE REV_BROWN, 49); (Z.lor GREEN REV_BROWN, 50); (Z.lor CYAN REV_BROWN, 51);
    (Z.lor RED REV_BROWN, 52); (Z.lor MAGENTA REV_BROWN, 53); (Z.lor BROWN REV_BROWN, 54); (Z.lor BLACK REV_BROWN, 55);
    (Z.lor WHITE REV_WHITE, 56); (Z.lor BLUE REV_WHITE, 57); (Z.lor GREEN REV_WHITE, 58); (Z.lor CYAN REV_WHITE, 59);
    (Z.lor RED REV_WHITE, 60); (Z.lor MAGENTA REV_WHITE, 61); (Z.lor BROWN REV_WHITE, 62); (Z.lor BLACK REV_WHITE, 63) ].

(** Which curses colours are assigned to each pair number. *)
Definition color_initializers : list (Z * Z) :=
  [
    (COLOR_WHITE, COLOR_BLACK); (COLOR_BLUE, COLOR_BLACK); (COLOR_GREEN, COLOR_BLACK); (COLOR_CYAN, COLOR_BLACK);
    (COLOR_RED, COLOR_BLACK); (COLOR_MAGENTA, COLOR_BLACK); (COLOR_YELLOW, COLOR_BLACK); (COLOR_BLACK, COLOR_BLACK);
    (COLOR_WHITE, COLOR_BLUE); (COLOR_BLUE, COLOR_BLUE); (COLOR_GREEN, COLOR_BLUE); (COLOR_CYAN, COLOR_BLUE);
    (COLOR_RED, COLOR_BLUE); (COLOR_MAGENTA, COLOR_BLUE); (COLOR_YELLOW, COLOR_BLUE); (COLOR_BLACK, COLOR_BLUE);
    (COLOR_WHITE, COLOR_GREEN); (COLOR_BLUE, COLOR_GREEN); (COLOR_GREEN, COLOR_GREEN); (COLOR_CYAN, COLOR_GREEN);
    (COLOR_RED, COLOR_GREEN); (COLOR_MAGENTA, COLOR_GREEN); (COLOR_YELLOW, COLOR_GREEN); (COLOR_BLACK, COLOR_GREEN);
    (COLOR_WHITE, COLOR_CYAN); (COLOR_BLUE, COLOR_CYAN); (COLOR_GREEN, COLOR_CYAN); (COLOR_CYAN, COLOR_CYAN);
    (COLOR_RED, COLOR_CYAN); (COLOR_MAGENTA, COLOR_CYAN); (COLOR_YELLOW, COLOR_CYAN); (COLOR_BLACK, COLOR_CYAN);
    (COLOR_WHITE, COLOR_RED); (COLOR_BLUE, COLOR_RED); (COLOR_GREEN, COLOR_RED); (COLOR_CYAN, COLOR_RED);
    (COLOR_RED, COLOR_RED); (COLOR_MAGENTA, COLOR_RED); (COLOR_YELLOW, COLOR_RED); (COLOR_BLACK, COLOR_RED);
    (COLOR_WHITE, COLOR_MAGENTA); (COLOR_BLUE, COLOR_MAGENTA); (COLOR_GREEN, COLOR_MAGENTA); (COLOR_CYAN, COLOR_MAGENTA);
    (COLOR_RED, COLOR_MAGENTA); (COLOR_MAGENTA, COLOR_MAGENTA); (COLOR_YELLOW, COLOR_MAGENTA); (COLOR_BLACK, COLOR_MAGENTA);
    (COLOR_WHITE, COLOR_YELLOW); (COLOR_BLUE, COLOR_YELLOW); (COLOR_GREEN, COLOR_YELLOW); (COLOR_CYAN, COLOR_YELLOW);
    (COLOR_RED, COLOR_YELLOW); (COLOR_MAGENTA, COLOR_YELLOW); (COLOR_YELLOW, COLOR_YELLOW); (COLOR_BLACK, COLOR_YELLOW);
    (COLOR_WHITE, COLOR_WHITE); (COLOR_BLUE, COLOR_WHITE); (COLOR_GREEN, COLOR_WHITE); (COLOR_CYAN, COLOR_WHITE);
    (COLOR_RED, COLOR_WHITE); (COLOR_MAGENTA, COLOR_WHITE); (COLOR_YELLOW, COLOR_WHITE); (COLOR_BLACK, COLOR_WHITE) ].

(** ** Private functions (POSIX) *)

(** [std::map::insert] of a sequence of pairs: a key that is present keeps
    its value. *)
Definition map_insert_all {V} (m : gmap Z V) (l : list (Z * V)) : gmap Z V :=
  foldl (fun m kv => match m !! kv.1 with
                     | Some _ => m
                     | None => <[kv.1 := kv.2]> m
                     end) m l.

Definition character_associations : list (Z * acs) :=
  [ (205, ACS_HLINE); (186, ACS_VLINE);
    (201, ACS_ULCORNER); (187, ACS_URCORNER);
    (200, ACS_LLCORNER); (188, ACS_LRCORNER);
    (181, ACS_RTEE); (198, ACS_LTEE);
    (208, ACS_BTEE); (210, ACS_TTEE);
    (206, ACS_PLUS);
    (196, ACS_HLINE); (179, ACS_VLINE);
    (218, ACS_ULCORNER); (191, ACS_URCORNER);
    (192, ACS_LLCORNER); (217, ACS_LRCORNER);
    (180, ACS_RTEE); (195, ACS_LTEE);
    (193, ACS_BTEE); (194, ACS_TTEE);
    (197, ACS_PLUS);
    (177, ACS_CKBOARD); (219, ACS_CKBOARD) ].

Definition initialize_character_map (s : scr) : scr :=
  set_box_character_map
    (map_insert_all (box_character_map s) character_associations) s.

(** Conversion of an [int] to [short]. *)
Definition to_short (z : Z) : Z := (z + 32768) mod 65536 - 32768.

(** [for (short i = 1; i < max_colors; ++i) init_pair(i, ...)] *)
Fixpoint init_pairs (n : nat) (i : Z) (s : scr) : option scr :=
  match n with
  | O => Some s
  | S n' =>
      let? ci := color_initializers !! Z.to_nat i in
      init_pairs n' (to_short (i + 1)) (emit (init_pair i ci.1 ci.2) s)
  end.

Definition initialize_colors (pf : platform) (s : scr) : option scr :=
  let s := set_color_works true s in
  let s := emit start_color s in
  if negb (start_color_ok pf) then Some (set_color_works false s)
  else
    let max_colors := to_short (COLOR_PAIRS pf) in
    let max_colors := if max_colors >? 64 then 64 else max_colors in
    let? s := init_pairs (Z.to_nat (max_colors - 1)) 1 s in
    Some (set_colors_map (map_insert_all (colors_map s) color_associations) s).

(** ** Public functions *)

Definition is_monochrome (s : scr) : bool := negb (color_works s).

Definition number_of_rows (s : scr) : Z := max_rows s.

Definition number_of_columns (s : scr) : Z := max_columns s.

Definition read (row column width height : Z) (buffer : list Z) (s : scr)
  : option (list Z) :=
  let '(row, column, width, height) :=
    adjust_dimensions (total_rows s) (total_columns s) row column width height in
  let row_length := Int.to_unsigned (Int.mul 2 width) in
  let screen_pointer := cell_offset (total_columns s) row column in
  let? image := screen_image s in
  read_rows (total_columns s) (Z.to_nat (Int.to_unsigned height)) row_length
    screen_pointer 0 image buffer.

Definition read_text (row column width height : Z) (buffer : list Z) (s : scr)
  : option (list Z) :=
  let '(row, column, width, height) :=
    adjust_dimensions (total_rows s) (total_columns s) row column width height in
  let screen_pointer := cell_offset (total_columns s) row column in
  let? image := screen_image s in
  read_text_rows (total_columns s) (Z.to_nat height) width screen_pointer 0
    image buffer.

Definition write (row column width height : Z) (buffer : list Z) (s : scr)
  : option scr :=
  let '(row, column, width, height) :=
    adjust_dimensions (total_rows s) (total_columns s) row column width height in
  let row_length := Int.to_unsigned (Int.mul 2 width) in
  let screen_pointer := cell_offset (total_columns s) row column in
  let? image := screen_image s in
  let? image :=
    write_rows (total_columns s) (Z.to_nat (Int.to_unsigned height)) row_length
      screen_pointer 0 buffer image in
  Some (set_screen_image (Some image) s).

Definition write_text (row column width height : Z) (buffer : list Z) (s : scr)
  : option scr :=
  let '(row, column, width, height) :=
    adjust_dimensions (total_rows s) (total_columns s) row column width height in
  let screen_pointer := cell_offset (total_columns s) row column in
  let? image := screen_image s in
  let? image :=
    write_text_rows (total_columns s) (Z.to_nat height) width screen_pointer 0
      buffer image in
  Some (set_screen_image (Some image) s).

(** [count] is a [std::size_t]; [formatted] is what the format and its
    arguments expand to. *)
Definition print (row column count attribute : Z) (formatted : list Z)
    (s : scr) : option scr :=
  let dummy_height := 1 in
  let width := Int.wrap count in
  let '(row, column, width, dummy_height) :=
    adjust_dimensions (total_rows s) (total_columns s)
      row column width dummy_height in
  let attribute := convert_attribute (color_works s) attribute in
  let s :=
    set_work_buffer
      (vsnprintf (work_buffer s) (maximum_print_size + 1) formatted) s in
  let screen_pointer := cell_offset (total_columns s) row column in
  let? image := screen_image s in
  let? image :=
    print_loop (work_buffer s) width screen_pointer attribute image in
  Some (set_screen_image (Some image) s).

Definition print_text (row column count : Z) (formatted : list Z) (s : scr)
  : option scr :=
  let dummy_height := 1 in
  let width := Int.wrap count in
  let '(row, column, width, dummy_height) :=
    adjust_dimensions (total_rows s) (total_columns s)
      row column width dummy_height in
  let s :=
    set_work_buffer
      (vsnprintf (work_buffer s) (maximum_print_size + 1) formatted) s in
  let screen_pointer := cell_offset (total_columns s) row column in
  let? image := screen_image s in
  let? image := print_text_loop (work_buffer s) width screen_pointer image in
  Some (set_screen_image (Some image) s).

Definition clear (row column width height attribute : Z) (s : scr)
  : option scr :=
  let '(row, column, width, height) :=
    adjust_dimensions (total_rows s) (total_columns s) row column width height in
  let attribute := convert_attribute (color_works s) attribute in
  let screen_pointer := cell_offset (total_columns s) row column in
  let? image := screen_image s in
  let? image :=
    clear_rows (total_columns s) (Z.to_nat height) width screen_pointer
      attribute image in
  Some (set_screen_image (Some image) s).

Definition set_color (row column width height attribute : Z) (s : scr)
  : option scr :=
  let '(row, column, width, height) :=
    adjust_dimensions (total_rows s) (total_columns s) row column width height in
  let attribute := convert_attribute (color_works s) attribute in
  let screen_pointer := cell_offset (total_columns s) row column in
  let? image := screen_image s in
  let? image :=
    set_color_rows (total_columns s) (Z.to_nat height) width screen_pointer
      attribute image in
  Some (set_screen_image (Some image) s).

Definition scroll (direction : direction_t)
    (row column width height number_of_rows attribute : Z) (s : scr)
  : option scr :=
  if number_of_rows <=? 0 then Some s
  else
    let '(row, column, width, height) :=
      adjust_dimensions (total_rows s) (total_columns s)
        row column width height in
    let attribute := convert_attribute (color_works s) attribute in
    if number_of_rows >=? height then clear row column width height attribute s
    else
      match direction with
      | UP =>
          let screen_pointer := cell_offset (total_columns s) row column in
          let source_pointer :=
            screen_pointer
            + Int.mul (Int.mul number_of_rows 2) (total_columns s) in
          let? image := screen_image s in
          let? image :=
            scroll_rows (Z.to_nat (Int.sub height number_of_rows)) width
              screen_pointer source_pointer (Int.mul 2 (total_columns s))
              image in
          clear (Int.add row (Int.sub height number_of_rows)) column width
            number_of_rows attribute (set_screen_image (Some image) s)
      | DOWN =>
          let screen_pointer :=
            Int.mul
              (Int.mul (Int.sub (Int.add (Int.sub row 1) height) 1) 2)
              (total_columns s)
            + Int.mul (Int.sub column 1) 2 in
          let source_pointer :=
            screen_pointer
            - Int.mul (Int.mul number_of_rows 2) (total_columns s) in
          let? image := screen_image s in
          let? image :=
            scroll_rows (Z.to_nat (Int.sub height number_of_rows)) width
              screen_pointer source_pointer
              (- Int.mul 2 (total_columns s)) image in
          clear row column width number_of_rows attribute
            (set_screen_image (Some image) s)
      end.

Definition set_cursor_position (row column : Z) (s : scr) : scr :=
  let row := if row <? 1 then 1 else row in
  let row := if row >? total_rows s then total_rows s else row in
  let column := if column <? 1 then 1 else column in
  let column := if column >? total_columns s then total_columns s else column in
  set_virtual_cursor row column s.

Definition get_cursor_position (s : scr) : Z * Z :=
  (virtual_row s, virtual_column s).

(** ** Synchronisation with the terminal (POSIX) *)

(** The value of a [char] once promoted to [int]. *)
Definition char_value (pf : platform) (b : Z) : Z :=
  if char_is_signed pf && (128 <=? b) then b - 256 else b.

(** The [chtype] printed for a cell holding character [c] and attribute [a]:
    the box drawing characters are mapped to the alternate character set,
    blink and bright become [A_BLINK] and [A_BOLD], and the colour part
    selects a colour pair when colour works. *)
Definition new_character (pf : platform) (s : scr) (c a : Z) : chtype :=
  let g :=
    match box_character_map s !! char_value pf c with
    | None => Raw c
    | Some x => Acs x
    end in
  let blink := negb (Z.land (char_value pf a) BLINK =? 0) in
  let bold := negb (Z.land (char_value pf a) BRIGHT =? 0) in
  let pair :=
    if color_works s then
      let just_color :=
        Z.land (char_value pf a) (Z.lnot (Z.lor BLINK BRIGHT)) in
      colors_map s !! just_color
    else None in
  mkChtype g blink bold pair.

(** [for (counter = 0; counter < total_rows * 2 * total_columns; counter += 2)]
    of [clear_screen]. *)
Fixpoint clear_screen_loop (n : nat) (counter : Z)
    (screen_image physical_image : list Z) : option (list Z * list Z) :=
  match n with
  | O => Some (screen_image, physical_image)
  | S n' =>
      let? screen_image := store screen_image counter 32 in
      let? screen_image :=
        store screen_image (Int.add counter 1) (to_char (Z.lor WHITE REV_BLACK)) in
      let? physical_image := store physical_image counter 32 in
      let? physical_image :=
        store physical_image (Int.add counter 1)
          (to_char (Z.lor WHITE REV_BLACK)) in
      clear_screen_loop n' (Int.add counter 2) screen_image physical_image
  end.

Definition clear_screen (s : scr) : option scr :=
  let s := emit werase s in
  let limit := Int.mul (Int.mul (total_rows s) 2) (total_columns s) in
  let? image := screen_image s in
  let? physical := physical_image s in
  let? (image, physical) :=
    clear_screen_loop (Z.to_nat ((limit + 1) / 2)) 0 image physical in
  let s := set_screen_image (Some image) s in
  let s := set_physical_image (Some physical) s in
  let s := emit (move 0 0) s in
  let s := set_virtual_cursor 1 1 s in
  let s := set_physical_cursor 1 1 s in
  Some (emit curses_refresh s).

(** [for (column_count = 1; column_count <= total_columns; column_count++)]
    of [redraw]. *)
Fixpoint redraw_columns (pf : platform) (n : nat) (current_character : Z)
    (s : scr) : option (Z * scr) :=
  match n with
  | O => Some (current_character, s)
  | S n' =>
      let? image := screen_image s in
      let? c := load image current_character in
      let? a := load image (current_character + 1) in
      let s := emit (addch (new_character pf s c a)) s in
      redraw_columns pf n' (current_character + 2) s
  end.

(** [for (row_count = 1; row_count <= total_rows; row_count++)] of [redraw]. *)
Fixpoint redraw_rows (pf : platform) (n : nat) (row_count : Z) (s : scr)
  : option scr :=
  match n with
  | O => Some s
  | S n' =>
      let s := emit (move (Int.sub row_count 1) 0) s in
      let current_character :=
        Int.mul (Int.mul (Int.sub row_count 1) 2) (total_columns s) in
      let? (_, s) :=
        redraw_columns pf (Z.to_nat (total_columns s)) current_character s in
      redraw_rows pf n' (Int.add row_count 1) s
  end.

Definition redraw (pf : platform) (s : scr) : option scr :=
  let? s := redraw_rows pf (Z.to_nat (total_rows s)) 1 s in
  let s :=
    emit (move (Int.sub (virtual_row s) 1) (Int.sub (virtual_column s) 1)) s in
  Some (emit curses_refresh s).

(** The body of the inner loop of [refresh]. *)
Definition refresh_cell (pf : platform) (row_count column_count : Z) (s : scr)
  : option scr :=
  let array_index :=
    Int.add (Int.mul (Int.mul (Int.sub row_count 1) 2) (total_columns s))
            (Int.mul 2 (Int.sub column_count 1)) in
  let? image := screen_image s in
  let? physical := physical_image s in
  let? c := load image array_index in
  let? pc := load physical array_index in
  let? same :=
    if c =? pc then
      let? a := load image (Int.add array_index 1) in
      let? pa := load physical (Int.add array_index 1) in
      Some (a =? pa)
    else Some false in
  if same then Some s
  else
    let s :=
      if negb (row_count =? physical_row s)
         || negb (column_count =? physical_column s)
      then
        set_physical_cursor row_count column_count
          (emit (move (Int.sub row_count 1) (Int.sub column_count 1)) s)
      else s in
    let? a := load image (Int.add array_index 1) in
    let s := emit (addch (new_character pf s c a)) s in
    let s :=
      set_physical_cursor (physical_row s) (Int.add (physical_column s) 1) s in
    let? physical := store physical array_index c in
    let? physical := store physical (Int.add array_index 1) a in
    Some (set_physical_image (Some physical) s).

Fixpoint refresh_columns (pf : platform) (n : nat) (row_count column_count : Z)
    (s : scr) : option scr :=
  match n with
  | O => Some s
  | S n' =>
      let? s := refresh_cell pf row_count column_count s in
      refresh_columns pf n' row_count (Int.add column_count 1) s
  end.

Fixpoint refresh_rows (pf : platform) (n : nat) (row_count : Z) (s : scr)
  : option scr :=
  match n with
  | O => Some s
  | S n' =>
      let? s := refresh_columns pf (Z.to_nat (total_columns s)) row_count 1 s in
      refresh_rows pf n' (Int.add row_count 1) s
  end.

Definition refresh (pf : platform) (s : scr) : option scr :=
  let? s := refresh_rows pf (Z.to_nat (total_rows s)) 1 s in
  let s :=
    emit (move (Int.sub (virtual_row s) 1) (Int.sub (virtual_column s) 1)) s in
  let s := set_physical_cursor (virtual_row s) (virtual_column s) s in
  Some (emit curses_refresh s).

Definition off (s : scr) : scr :=
  emit putp_exit_ca_mode (emit reset_shell_mode s).

Definition on (s : scr) : scr :=
  emit curses_refresh (emit reset_prog_mode (emit putp_enter_ca_mode s)).

(** ** Start up and clean up (POSIX) *)

(** [new char[n]]: fresh memory of indeterminate contents; a negative size
    is refused. *)
Definition new_char_array (pf : platform) (a : array_name) (n : Z)
  : option (list Z) :=
  if n <? 0 then None
  else Some (map (uninitialized pf a) (seq 0 (Z.to_nat n))).

(** [delete[] p]: nothing happens for a null pointer. *)
Definition delete_char_array (a : array_name) (p : option (list Z)) (s : scr)
  : scr :=
  match p with
  | Some _ => emit (delete_array a) s
  | None => s
  end.

Definition initialize (pf : platform) (s : scr) : option (bool * scr) :=
  if initialize_counter s >? 0 then
    Some (true, set_initialize_counter (Int.add (initialize_counter s) 1) s)
  else
    let s := emit initialize_key s in
    let s := emit initscr s in
    let s := emit raw s in
    let s := emit noecho s in
    let s := emit nonl s in
    let s := emit intrflush s in
    let s := emit keypad s in
    let s := initialize_character_map s in
    let? s := initialize_colors pf s in
    let s := set_geometry (LINES pf) (COLS pf) s in
    let size := Int.mul (Int.mul (total_rows s) 2) (total_columns s) in
    let? image := new_char_array pf ScreenImage size in
    let s := set_screen_image (Some image) (emit (new_array ScreenImage size) s) in
    let? physical := new_char_array pf PhysicalImage size in
    let s :=
      set_physical_image (Some physical)
        (emit (new_array PhysicalImage size) s) in
    let? s := clear_screen s in
    Some (true, set_initialize_counter (Int.add (initialize_counter s) 1) s).

(** The clearing loop of [terminate]. *)
Fixpoint terminate_loop (n : nat) (counter : Z) (screen_image : list Z)
  : option (list Z) :=
  match n with
  | O => Some screen_image
  | S n' =>
      let? screen_image := store screen_image counter 32 in
      let? screen_image :=
        store screen_image (Int.add counter 1) (to_char (Z.lor WHITE REV_BLACK)) in
      terminate_loop n' (Int.add counter 2) screen_image
  end.

Definition terminate (pf : platform) (s : scr) : option scr :=
  if initialize_counter s =? 0 then Some s
  else
    let s := set_initialize_counter (Int.sub (initialize_counter s) 1) s in
    if negb (initialize_counter s =? 0) then Some s
    else
      let limit := Int.mul (Int.mul (total_rows s) 2) (total_columns s) in
      let? image := screen_image s in
      let? image := terminate_loop (Z.to_nat ((limit + 1) / 2)) 0 image in
      let s := set_screen_image (Some image) s in
      let s := set_virtual_cursor 1 1 s in
      let? s := redraw pf s in
      let s := emit endwin s in
      let s := set_box_character_map ∅ s in
      let s := delete_char_array ScreenImage (screen_image s) s in
      let s := set_screen_image None s in
      let s := delete_char_array PhysicalImage (physical_image s) s in
      let s := set_physical_image None s in
      Some (emit terminate_key s).

(** The globals as the program starts. *)
Definition initial_state : scr :=
  {| total_rows := 24;
     total_columns := 80;
     physical_image := None;
     physical_row := 1;
     physical_column := 1;
     box_character_map := ∅;
     colors_map := ∅;
     color_works := false;
     initialize_counter := 0;
     max_columns := 80;
     max_rows := 24;
     screen_image := None;
     virtual_column := 1;
     virtual_row := 1;
     work_buffer := replicate 1025 0;
     trace := [] |}.

(** ** Sequences of calls *)

(** A mutation of the screen buffer with its arguments. *)
Inductive mutation :=
| call_write (row column width height : Z) (buffer : list Z)
| call_write_text (row column width height : Z) (buffer : list Z)
| call_print (row column count attribute : Z) (formatted : list Z)
| call_print_text (row column count : Z) (formatted : list Z)
| call_clear (row column width height attribute : Z)
| call_set_color (row column width height attribute : Z)
| call_scroll (direction : direction_t)
    (row column width height number_of_rows attribute : Z).

Definition mutate (m : mutation) (s : scr) : option scr :=
  match m with
  | call_write row column width height buffer =>
      write row column width height buffer s
  | call_write_text row column width height buffer =>
      write_text row column width height buffer s
  | call_print row column count attribute formatted =>
      print row column count attribute formatted s
  | call_print_text row column count formatted =>
      print_text row column count formatted s
  | call_clear row column width height attribute =>
      clear row column width height attribute s
  | call_set_color row column width height attribute =>
      set_color row column width height attribute s
  | call_scroll direction row column width height number_of_rows attribute =>
      scroll direction row column width height number_of_rows attribute s
  end.

Fixpoint mutate_all (ms : list mutation) (s : scr) : option scr :=
  match ms with
  | [] => Some s
  | m :: ms' => let? s := mutate m s in mutate_all ms' s
  end.

(** A call of the life cycle. *)
Inductive lifecycle_call := call_initialize | call_terminate.

Definition lifecycle_step (pf : platform) (c : lifecycle_call) (s : scr)
  : option scr :=
  match c with
  | call_initialize => let? (_, s) := initialize pf s in Some s
  | call_terminate => terminate pf s
  end.

Fixpoint lifecycle_run (pf : platform) (cs : list lifecycle_call) (s : scr)
  : option scr :=
  match cs with
  | [] => Some s
  | c :: cs' => let? s := lifecycle_step pf c s in lifecycle_run pf cs' s
  end.

(** ** A small terminal, for the examples *)

(** A terminal of three lines and four columns, with colour. *)
Definition small_platform : platform :=
  {| char_is_signed := true;
     LINES := 3;
     COLS := 4;
     start_color_ok := true;
     COLOR_PAIRS := 64;
     uninitialized := fun _ _ => 0 |}.

(** The same terminal without colour. *)
Definition mono_platform : platform :=
  {| char_is_signed := true;
     LINES := 3;
     COLS := 4;
     start_color_ok := false;
     COLOR_PAIRS := 0;
     uninitialized := fun _ _ => 0 |}.

(** The session a first [initialize] opens on the small terminal. *)
Definition small_session : option scr :=
  let? (_, s) := initialize small_platform initial_state in Some s.

(** ** Vocabulary of the statements *)

(** A screen geometry whose image fits the [int] index arithmetic. *)
Definition geometry_ok (rows columns : Z) : Prop :=
  1 <= rows /\ 1 <= columns /\ 2 * rows * columns <= Int.int_max.

(** The bounds invariant of a region. *)
Definition region_ok (rows columns r c w h : Z) : Prop :=
  1 <= r <= rows /\ 1 <= c <= columns /\ 1 <= w /\ 1 <= h /\
  r + h - 1 <= rows /\ c + w - 1 <= columns.

(** [p] points to an array of [n] bytes. *)
Definition allocated (p : option (list Z)) (n : Z) : Prop :=
  exists l, p = Some l /\ Z.of_nat (length l) = n.

(** An open session: the virtual image has the size of the screen. *)
Definition session_ok (s : scr) : Prop :=
  geometry_ok (total_rows s) (total_columns s) /\
  allocated (screen_image s) (2 * total_rows s * total_columns s).

(** ... and so has the physical image. *)
Definition shadow_ok (s : scr) : Prop :=
  allocated (physical_image s) (2 * total_rows s * total_columns s).

(** The byte offset of the cell at ([row], [column]) in an image whose rows
    have [columns] cells. *)
Definition cell_index (columns row column : Z) : Z :=
  (row - 1) * (2 * columns) + (column - 1) * 2.

(** The character and the attribute of a cell of an image. *)
Definition cell_at (image : option (list Z)) (columns row column : Z)
  : option (Z * Z) :=
  let? l := image in
  let? c := load l (cell_index columns row column) in
  let? a := load l (cell_index columns row column + 1) in
  Some (c, a).

(** The text a [print] takes from its expansion: what precedes the first
    terminator. *)
Fixpoint c_string (l : list Z) : list Z :=
  match l with
  | [] => []
  | ch :: l' => if ch =? 0 then [] else ch :: c_string l'
  end.

(** The five facts about the reversal, as a check on one attribute. *)
Definition reverse_check (a : Z) : bool :=
  (reverse_attribute (reverse_attribute a) =? a)
  && (Z.land (reverse_attribute a) 0x07 =? Z.shiftr (Z.land a 0x70) 4)
  && (Z.land (reverse_attribute a) 0x70 =? Z.shiftl (Z.land a 0x07) 4)
  && (Z.land (reverse_attribute a) 0x80 =? Z.land a 0x80)
  && (Z.land (reverse_attribute a) 0x08 =? Z.land a 0x08).

(** The monochrome conversion on one attribute, as a check. *)
Definition convert_check (a : Z) : bool :=
  let r := convert_attribute false a in
  (if Z.land a 0x70 =? 0
   then (r =? Z.lor a 0x07) && (Z.land r 0x07 =? 0x07) && (Z.land r 0x70 =? 0)
   else (Z.land r 0x70 =? 0x70) && (Z.land r 0x07 =? 0))
  && (Z.land r 0x80 =? Z.land a 0x80)
  && (Z.land r 0x08 =? Z.land a 0x08).

(** The cells a [print] stores: one checked store of the character and one
    of the attribute byte per character of [text], from offset [p] on. *)
Fixpoint write_cells (text : list Z) (p attribute : Z) (image : list Z)
  : option (list Z) :=
  match text with
  | [] => Some image
  | ch :: text' =>
      let? image := store image p ch in
      let? image := store image (p + 1) (to_char attribute) in
      write_cells text' (p + 2) attribute image
  end.

(** The same for [print_text]: the characters only. *)
Fixpoint write_chars (text : list Z) (p : Z) (image : list Z)
  : option (list Z) :=
  match text with
  | [] => Some image
  | ch :: text' =>
      let? image := store image p ch in
      write_chars text' (p + 2) image
  end.

(** Clamping of a coordinate to [lo .. hi], as [adjust_dimensions] does it
    for the row and the column. *)
Definition clamp (lo hi x : Z) : Z :=
  let x := if x <? lo then lo else x in
  if x >? hi then hi else x.

(** The cells of the [rows] by [columns] screen at which two images differ. *)
Definition cells_changed (rows columns : Z) (image image' : option (list Z))
  : list (Z * Z) :=
  List.filter
    (fun rc => negb (bool_decide (cell_at image columns rc.1 rc.2
                                  = cell_at image' columns rc.1 rc.2)))
    (flat_map
       (fun r => map (fun c => (Z.of_nat r, Z.of_nat c))
                     (seq 1 (Z.to_nat columns)))
       (seq 1 (Z.to_nat rows))).

(** What the specification says of [print], in its own words: at most
    [maxCount] cells are written, all of them in row [row]. *)
Definition print_as_claimed (s : scr) (row column maxCount attribute : Z)
    (formatted : list Z) : Prop :=
  forall s', print row column maxCount attribute formatted s = Some s' ->
    let changed :=
      cells_changed (total_rows s) (total_columns s)
        (screen_image s) (screen_image s') in
    Z.of_nat (length changed) <= maxCount /\
    forall rc, In rc changed -> rc.1 = row.

(** A screen of three rows and four columns, blank, both images allocated. *)
Definition small_screen : scr :=
  {| total_rows := 3;
     total_columns := 4;
     physical_image := Some (replicate 24 0);
     physical_row := 1;
     physical_column := 1;
     box_character_map := ∅;
     colors_map := ∅;
     color_works := true;
     initialize_counter := 1;
     max_columns := 4;
     max_rows := 3;
     screen_image :=
       Some [32; 7; 32; 7; 32; 7; 32; 7;
             32; 7; 32; 7; 32; 7; 32; 7;
             32; 7; 32; 7; 32; 7; 32; 7];
     virtual_column := 1;
     virtual_row := 1;
     work_buffer := replicate 1025 0;
     trace := [] |}.

(** The allocations and the deallocations of an array in a trace. *)
Definition array_name_eqb (a b : array_name) : bool :=
  match a, b with
  | ScreenImage, ScreenImage | PhysicalImage, PhysicalImage => true
  | _, _ => false
  end.

Definition is_allocation (a : array_name) (e : event) : bool :=
  match e with
  | new_array a' _ => array_name_eqb a' a
  | _ => false
  end.

Definition is_deallocation (a : array_name) (e : event) : bool :=
  match e with
  | delete_array a' => array_name_eqb a' a
  | _ => false
  end.

Definition allocations (a : array_name) (t : list event) : nat :=
  length (List.filter (is_allocation a) t).

Definition deallocations (a : array_name) (t : list event) : nat :=
  length (List.filter (is_deallocation a) t).

(** The two states of the life cycle. *)
Definition inactive (s : scr) : Prop :=
  initialize_counter s = 0 /\ screen_image s = None /\ physical_image s = None.

Definition active (s : scr) (refcount : Z) : Prop :=
  1 <= refcount /\ initialize_counter s = refcount /\
  allocated (screen_image s) (2 * total_rows s * total_columns s) /\
  allocated (physical_image s) (2 * total_rows s * total_columns s).

(** What a mutation of the buffer may change: the contents of the virtual
    image, not its size, nor the geometry, nor the physical image. *)
Definition buffer_step (s s' : scr) : Prop :=
  total_rows s' = total_rows s /\
  total_columns s' = total_columns s /\
  physical_image s' = physical_image s /\
  forall image, screen_image s = Some image ->
    exists image', screen_image s' = Some image' /\
                   length image' = length image.

(** The invariant of the scan of [refresh], started in [s0]: nothing but the
    physical side has changed, and the physical image agrees with the
    virtual one on the bytes below [limit]. *)
Definition refresh_inv (s0 s : scr) (limit : Z) : Prop :=
  total_rows s = total_rows s0 /\
  total_columns s = total_columns s0 /\
  screen_image s = screen_image s0 /\
  virtual_row s = virtual_row s0 /\
  virtual_column s = virtual_column s0 /\
  exists image physical,
    screen_image s0 = Some image /\
    physical_image s = Some physical /\
    length physical = length image /\
    forall q, 0 <= q < limit -> load physical q = load image q.

(** A run of calls to the outside. *)
Definition emit_all (t : list event) (s : scr) : scr :=
  foldl (fun s e => emit e s) s t.

(** The events of the allocator. *)
Definition array_event (e : event) : bool :=
  match e with
  | new_array _ _ | delete_array _ => true
  | _ => false
  end.

(** A run of calls in which no array is allocated or freed. *)
Definition quiet (t : list event) : Prop :=
  forallb (fun e => negb (array_event e)) t = true.

(** The calls to the terminal that print a cell and that move the cursor. *)
Definition is_addch (e : event) : bool :=
  match e with
  | addch _ => true
  | _ => false
  end.

Definition is_move (e : event) : bool :=
  match e with
  | move _ _ => true
  | _ => false
  end.

Definition count_events (f : event -> bool) (t : list event) : nat :=
  length (List.filter f t).

(** The cell at [rc] is not the same in the virtual and the physical image. *)
Definition differs (s : scr) (rc : Z * Z) : bool :=
  negb (bool_decide
          (cell_at (screen_image s) (total_columns s) rc.1 rc.2
           = cell_at (physical_image s) (total_columns s) rc.1 rc.2)).

(** The cells of columns [c0 .. c0 + n - 1] of row [r]. *)
Definition cells_of_row (r c0 n : nat) : list (Z * Z) :=
  map (fun c => (Z.of_nat r, Z.of_nat c)) (seq c0 n).

(** What a part of the scan of [refresh] does: the geometry and the virtual
    side are kept, the physical image keeps its size and its bytes outside
    [lo .. hi - 1], and [t] is sent to the terminal. *)
Definition scan_step (s s' : scr) (lo hi : Z) (t : list event) : Prop :=
  total_rows s' = total_rows s /\
  total_columns s' = total_columns s /\
  screen_image s' = screen_image s /\
  virtual_row s' = virtual_row s /\
  virtual_column s' = virtual_column s /\
  trace s' = trace s ++ t /\
  exists physical physical',
    physical_image s = Some physical /\
    physical_image s' = Some physical' /\
    length physical' = length physical /\
    forall q, ~ (lo <= q < hi) -> load physical' q = load physical q.

(** The events of a scan: cursor moves and cells, at most one move per
    cell. *)
Definition scan_events (t : list event) (cells : nat) : Prop :=
  count_events is_addch t = cells /\
  (count_events is_move t <= count_events is_addch t)%nat /\
  forallb (fun e => is_addch e || is_move e) t = true.

(** The counter after a run of calls started with the counter at [c], when
    no [terminate] of the run is the last one (none finds the counter at
    one). *)
Fixpoint nested (c : Z) (cs : list lifecycle_call) : option Z :=
  match cs with
  | [] => Some c
  | call_initialize :: cs' => nested (c + 1) cs'
  | call_terminate :: cs' => if c <=? 1 then None else nested (c - 1) cs'
  end.

(** The first value bound to [k] in a sequence of pairs. *)
Fixpoint assoc {V} (k : Z) (l : list (Z * V)) : option V :=
  match l with
  | [] => None
  | (k', v) :: l' => if k' =? k then Some v else assoc k l'
  end.

(** The fields of [BoxChars], in the order of the declaration. *)
Definition box_fields : list (BoxChars -> Z) :=
  [horizontal; vertical; upper_left; upper_right; lower_left; lower_right;
   left_stop; right_stop; top_stop; bottom_stop; cross].

(** The curses colour that stands for a Scr colour. *)
Definition curses_color (c : Z) : Z :=
  if c =? BLACK then COLOR_BLACK
  else if c =? BLUE then COLOR_BLUE
  else if c =? GREEN then COLOR_GREEN
  else if c =? CYAN then COLOR_CYAN
  else if c =? RED then COLOR_RED
  else if c =? MAGENTA then COLOR_MAGENTA
  else if c =? BROWN then COLOR_YELLOW
  else COLOR_WHITE.

(** The two colour tables agree on one colour attribute, as a check. *)
Definition color_pair_check (a : Z) : bool :=
  if (a <? 128) && (Z.land a BRIGHT =? 0) then
    match assoc a color_associations with
    | Some p =>
        (0 <=? p) && (p <? 64)
        && bool_decide (color_initializers !! Z.to_nat p
                        = Some (curses_color (Z.land a 0x07),
                                curses_color (Z.shiftr a 4)))
        && bool_decide (p = 0 <-> a = Z.lor WHITE REV_BLACK)
    | None => false
    end
  else true.

(** What the attribute byte [a] gives in [new_character], as a check: the
    two flags and the key looked up in the colour map, for a [char] that is
    signed or not. *)
Definition attribute_check (signed : bool) (a : Z) : bool :=
  let v := if signed && (128 <=? a) then a - 256 else a in
  let just_color := Z.land v (Z.lnot (Z.lor BLINK BRIGHT)) in
  bool_decide (negb (Z.land v BLINK =? 0) = Z.testbit a 7)
  && bool_decide (negb (Z.land v BRIGHT =? 0) = Z.testbit a 3)
  && bool_decide (assoc just_color color_associations
                  = if signed && (128 <=? a) then None
                    else assoc (Z.land a 0x77) color_associations)
  && bool_decide (is_Some (assoc (Z.land a 0x77) color_associations)).

(** Reversal of a monochrome attribute, as a check on one attribute: the
    reversed attribute is a monochrome attribute again, of the other look,
    with the same blink and bright bits. *)
Definition monochrome_check (a : Z) : bool :=
  let m := convert_attribute false a in
  let r := reverse_attribute m in
  (convert_attribute false r =? r)
  && ((Z.land m 0x77 =? Z.lor WHITE REV_BLACK)
      && (Z.land r 0x77 =? Z.lor BLACK REV_WHITE)
      || (Z.land m 0x77 =? Z.lor BLACK REV_WHITE)
         && (Z.land r 0x77 =? Z.lor WHITE REV_BLACK))
  && (Z.land r 0x88 =? Z.land a 0x88).

(** * The timer (Timer.cpp, POSIX)

    The type [timer_t] is declared in Timer.hpp: a structure with the fields
    [seconds] and [milliseconds].  What the functions do not fix is the
    integer types of the two fields; the conversions to them, and the one
    to [long], are taken from [timer_types]. *)

Record timer_types := mkTimerTypes {
  seconds_t : Z -> Z;
  milliseconds_t : Z -> Z;
  long_t : Z -> Z
}.

Record timer_t := mkTimerT {
  seconds : Z;
  milliseconds : Z
}.

(** What [gettimeofday] stores. *)
Record timeval := mkTimeval {
  tv_sec : Z;
  tv_usec : Z
}.

(** [time_info] is the reading of the clock. *)
Definition get_time_as_integer (ty : timer_types) (time_info : timeval)
  : timer_t :=
  {| seconds := seconds_t ty (tv_sec time_info);
     milliseconds := milliseconds_t ty (Z.quot (tv_usec time_info) 1000) |}.

Definition get_adjusted_time (ty : timer_types) (the_time : timer_t) : Z :=
  let temp := long_t ty (seconds the_time) in
  let temp := long_t ty (temp * 1000) in
  let temp := long_t ty (temp + milliseconds the_time) in
  temp.

(** [operator+] on [timer_t]. *)
Definition operator_plus (ty : timer_types) (lhs rhs : timer_t) : timer_t :=
  let result_seconds := seconds_t ty (seconds lhs + seconds rhs) in
  let result_milliseconds :=
    milliseconds_t ty (milliseconds lhs + milliseconds rhs) in
  if result_milliseconds >? 1000 then
    {| seconds := seconds_t ty (result_seconds + 1);
       milliseconds := milliseconds_t ty (result_milliseconds - 1000) |}
  else
    {| seconds := result_seconds; milliseconds := result_milliseconds |}.

(** [operator-] on [timer_t]. *)
Definition operator_minus (ty : timer_types) (lhs rhs : timer_t) : timer_t :=
  let result_seconds := seconds_t ty (seconds lhs - seconds rhs) in
  let result_milliseconds :=
    milliseconds_t ty (milliseconds lhs - milliseconds rhs) in
  let result :=
    if (result_seconds >? 0) && (result_milliseconds <? 0) then
      {| seconds := seconds_t ty (result_seconds - 1);
         milliseconds := milliseconds_t ty (result_milliseconds + 1000) |}
    else
      {| seconds := result_seconds; milliseconds := result_milliseconds |} in
  if (seconds result <? 0) && (milliseconds result >? 0) then
    {| seconds := seconds_t ty (seconds result + 1);
       milliseconds := milliseconds_t ty (milliseconds result - 1000) |}
  else result.

Inductive timer_state := RESET | RUNNING | STOPPED.

(** The members of [spica::Timer]. *)
Record Timer := mkTimer {
  internal_state : timer_state;
  start_time : timer_t;
  accumulated : timer_t
}.

(** The constructor; it does not set [start_time], whose contents are
    [indeterminate]. *)
Definition Timer_new (indeterminate : timer_t) : Timer :=
  {| internal_state := RESET;
     start_time := indeterminate;
     accumulated := {| seconds := 0; milliseconds := 0 |} |}.

Definition reset (t : Timer) : Timer :=
  {| internal_state := RESET;
     start_time := start_time t;
     accumulated := {| seconds := 0; milliseconds := 0 |} |}.

(** [now] is what the clock reads during the call. *)
Definition start (ty : timer_types) (now : timeval) (t : Timer) : Timer :=
  {| internal_state := RUNNING;
     start_time := get_time_as_integer ty now;
     accumulated := accumulated t |}.

Definition stop (ty : timer_types) (now : timeval) (t : Timer) : Timer :=
  let stop_time := get_time_as_integer ty now in
  {| internal_state := STOPPED;
     start_time := start_time t;
     accumulated :=
       operator_plus ty (accumulated t)
         (operator_minus ty stop_time (start_time t)) |}.

Definition time (ty : timer_types) (now : timeval) (t : Timer) : Z :=
  let total_time :=
    match internal_state t with
    | RUNNING =>
        let current_time := get_time_as_integer ty now in
        operator_plus ty (accumulated t)
          (operator_minus ty current_time (start_time t))
    | _ => accumulated t
    end in
  get_adjusted_time ty total_time.

(** ** Vocabulary of the statements on the timer *)

(** The integer types are wide enough to hold the values up to [W]. *)
Definition wide_enough (ty : timer_types) (W : Z) : Prop :=
  forall z, - W <= z <= W ->
    seconds_t ty z = z /\ milliseconds_t ty z = z /\ long_t ty z = z.

(** The milliseconds a [timer_t] stands for, and those of a reading of the
    clock. *)
Definition total (t : timer_t) : Z := seconds t * 1000 + milliseconds t.

Definition millis (tv : timeval) : Z :=
  tv_sec tv * 1000 + Z.quot (tv_usec tv) 1000.

(** Both fields are at most [N] in absolute value. *)
Definition bounded (N : Z) (t : timer_t) : Prop :=
  Z.abs (seconds t) <= N /\ Z.abs (milliseconds t) <= N.

(** A [timer_t] as [get_time_as_integer] makes it. *)
Definition normal (t : timer_t) : Prop := 0 <= milliseconds t < 1000.

(** A reading of the clock, at most [M] seconds after the epoch. *)
Definition reading_ok (M : Z) (tv : timeval) : Prop :=
  0 <= tv_sec tv <= M /\ 0 <= tv_usec tv < 1000000.

(** The timer started and stopped at the two readings of each pair. *)
Fixpoint run_intervals (ty : timer_types) (l : list (timeval * timeval))
    (t : Timer) : Timer :=
  match l with
  | [] => t
  | (a, b) :: l' => run_intervals ty l' (stop ty b (start ty a t))
  end.

Fixpoint elapsed (l : list (timeval * timeval)) : Z :=
  match l with
  | [] => 0
  | (a, b) :: l' => (millis b - millis a) + elapsed l'
  end.

(** Types of 32 bits, for the examples. *)
Definition int_types : timer_types :=
  {| seconds_t := Int.wrap; milliseconds_t := Int.wrap; long_t := Int.wrap |}.

(** A screen of one row and 1100 columns, blank: wider than the longest text
    a [print] writes. *)
Definition wide_screen : scr :=
  {| total_rows := 1;
     total_columns := 1100;
     physical_image := Some (concat (replicate 1100 [32; 7]));
     physical_row := 1;
     physical_column := 1;
     box_character_map := ∅;
     colors_map := ∅;
     color_works := true;
     initialize_counter := 1;
     max_columns := 1100;
     max_rows := 1;
     screen_image := Some (concat (replicate 1100 [32; 7]));
     virtual_column := 1;
     virtual_row := 1;
     work_buffer := replicate 1025 0;
     trace := [] |}.

(** * Properties *)

(** ** Machine integers *)

Module IntFacts.

Lemma wrap_small z : Int.in_range z -> Int.wrap z = z.
Proof.
  unfold Int.in_range, Int.wrap, Int.int_min, Int.int_max. intros H.
  rewrite Z.mod_small by lia. lia.
Qed.

Lemma wrap_range z : Int.in_range (Int.wrap z).
Proof.
  unfold Int.in_range, Int.wrap, Int.int_min, Int.int_max.
  pose proof (Z.mod_pos_bound (z + 2147483648) 4294967296). lia.
Qed.

Lemma add_small a b : Int.in_range (a + b) -> Int.add a b = a + b.
Proof. apply wrap_small. Qed.

Lemma sub_small a b : Int.in_range (a - b) -> Int.sub a b = a - b.
Proof. apply wrap_small. Qed.

Lemma mul_small a b : Int.in_range (a * b) -> Int.mul a b = a * b.
Proof. apply wrap_small. Qed.

Lemma to_unsigned_small z :
  0 <= z <= Int.int_max -> Int.to_unsigned z = z.
Proof.
  unfold Int.to_unsigned, Int.int_max. intros H. apply Z.mod_small. lia.
Qed.

Lemma wrap_sub_l x y : Int.wrap (Int.wrap x - y) = Int.wrap (x - y).
Proof.
  unfold Int.wrap. f_equal.
  replace ((x + 2147483648) mod 4294967296 - 2147483648 - y + 2147483648)
    with ((x + 2147483648) mod 4294967296 - y) by lia.
  rewrite Zminus_mod_idemp_l. f_equal. lia.
Qed.

(** [a + b - c] evaluated from the left: only the final value matters. *)
Lemma sub_add_small a b c :
  Int.in_range (a + b - c) -> Int.sub (Int.add a b) c = a + b - c.
Proof.
  intros H. unfold Int.sub, Int.add. rewrite wrap_sub_l. apply wrap_small, H.
Qed.

End IntFacts.

Lemma to_char_range z : 0 <= to_char z < 256.
Proof. unfold to_char. apply Z.mod_pos_bound. lia. Qed.

Lemma to_char_byte z : 0 <= z < 256 -> to_char z = z.
Proof. unfold to_char. intros H. apply Z.mod_small. lia. Qed.

(** A property checked on the 256 byte values holds of every byte. *)
Lemma forall_byte (P : Z -> bool) :
  forallb P (map Z.of_nat (seq 0 256)) = true ->
  forall a, 0 <= a < 256 -> P a = true.
Proof.
  intros H a Ha. rewrite forallb_forall in H. apply H.
  apply in_map_iff. exists (Z.to_nat a). split; [lia|].
  apply in_seq. lia.
Qed.

(** ** AttributeModel *)

Lemma reverse_check_all a : 0 <= a < 256 -> reverse_check a = true.
Proof. apply forall_byte. vm_compute. reflexivity. Qed.

(** C6. For every 8-bit attribute [a], reversing twice gives [a] back; the
    reversal puts the foreground field (mask 0x07) of [a] in the background
    field (mask 0x70) and the background field in the foreground field, and
    leaves the blink bit (0x80) and the bright bit (0x08) as they are. *)
Theorem reverse_attribute_involution (a : Z) :
  0 <= a < 256 ->
  reverse_attribute (reverse_attribute a) = a /\
  Z.land (reverse_attribute a) 0x07 = Z.shiftr (Z.land a 0x70) 4 /\
  Z.land (reverse_attribute a) 0x70 = Z.shiftl (Z.land a 0x07) 4 /\
  Z.land (reverse_attribute a) BLINK = Z.land a BLINK /\
  Z.land (reverse_attribute a) BRIGHT = Z.land a BRIGHT.
Proof.
  intros Ha. pose proof (reverse_check_all a Ha) as H.
  unfold reverse_check in H.
  repeat (apply andb_prop in H; destruct H as [H ?]).
  repeat match goal with E : (_ =? _) = true |- _ => apply Z.eqb_eq in E end.
  change BLINK with 0x80. change BRIGHT with 0x08. auto.
Qed.

Lemma reverse_attribute_involution_witness :
  reverse_attribute (reverse_attribute 0x9C) = 0x9C /\
  Z.land (reverse_attribute 0x9C) 0x07 = Z.shiftr (Z.land 0x9C 0x70) 4 /\
  Z.land (reverse_attribute 0x9C) 0x70 = Z.shiftl (Z.land 0x9C 0x07) 4 /\
  Z.land (reverse_attribute 0x9C) BLINK = Z.land 0x9C BLINK /\
  Z.land (reverse_attribute 0x9C) BRIGHT = Z.land 0x9C BRIGHT.
Proof. apply (reverse_attribute_involution 0x9C). lia. Defined.

Lemma convert_check_all a : 0 <= a < 256 -> convert_check a = true.
Proof. apply forall_byte. vm_compute. reflexivity. Qed.

(** C7. With colour, [convert_attribute] is the identity on every attribute.
    Without colour and for every 8-bit attribute: a black background (bits
    0x70 zero) gets a white foreground (bits 0x07 all set) and stays black;
    any other background becomes white (0x70) with the foreground bits
    zeroed; the blink and bright bits are kept in both cases.  In particular
    0x20 becomes 0x70 and 0x00 becomes 0x07. *)
Theorem convert_attribute_spec :
  (forall a, convert_attribute true a = a) /\
  (forall a, 0 <= a < 256 ->
     (Z.land a 0x70 = 0 ->
        convert_attribute false a = Z.lor a WHITE /\
        Z.land (convert_attribute false a) 0x07 = WHITE /\
        Z.land (convert_attribute false a) 0x70 = REV_BLACK) /\
     (Z.land a 0x70 <> 0 ->
        Z.land (convert_attribute false a) 0x70 = REV_WHITE /\
        Z.land (convert_attribute false a) 0x07 = BLACK) /\
     Z.land (convert_attribute false a) BLINK = Z.land a BLINK /\
     Z.land (convert_attribute false a) BRIGHT = Z.land a BRIGHT) /\
  convert_attribute false 0x20 = 0x70 /\
  convert_attribute false 0x00 = 0x07.
Proof.
  split; [reflexivity|]. split; [|split; reflexivity].
  intros a Ha. pose proof (convert_check_all a Ha) as H.
  unfold convert_check in H.
  change WHITE with 0x07. change REV_BLACK with 0. change REV_WHITE with 0x70.
  change BLACK with 0. change BLINK with 0x80. change BRIGHT with 0x08.
  apply andb_prop in H. destruct H as [H Hbright].
  apply andb_prop in H. destruct H as [H Hblink].
  apply Z.eqb_eq in Hbright, Hblink.
  destruct (Z.land a 0x70 =? 0) eqn:E.
  - apply Z.eqb_eq in E.
    apply andb_prop in H. destruct H as [H H3].
    apply andb_prop in H. destruct H as [H1 H2].
    apply Z.eqb_eq in H1, H2, H3. repeat split; auto; intros; congruence.
  - apply Z.eqb_neq in E.
    apply andb_prop in H. destruct H as [H1 H2].
    apply Z.eqb_eq in H1, H2. repeat split; auto; intros; congruence.
Qed.

Lemma convert_attribute_spec_witness :
  Z.land (convert_attribute false 0xA3) BLINK = Z.land 0xA3 BLINK /\
  Z.land (convert_attribute false 0xA3) 0x70 = REV_WHITE.
Proof.
  destruct convert_attribute_spec as (_ & H & _).
  destruct (H 0xA3) as (_ & Hbg & Hblink & _); [lia|].
  split; [exact Hblink|]. apply Hbg. vm_compute. discriminate.
Defined.

Lemma mask_70_in_F8 n : Z.testbit 0x70 n = true -> Z.testbit 0xF8 n = true.
Proof.
  destruct n as [|p|p]; [discriminate| |discriminate].
  do 8 (destruct p as [p|p|]; try discriminate; try reflexivity).
Qed.

(** [convert_attribute] converts a converted attribute to itself, whatever
    the [int] (used where [scroll] hands a converted attribute to [clear]). *)
Lemma convert_attribute_idempotent cw a :
  convert_attribute cw (convert_attribute cw a) = convert_attribute cw a.
Proof.
  unfold convert_attribute. destruct cw; [reflexivity|].
  change REV_BLACK with 0. change WHITE with 7. change REV_WHITE with 0x70.
  destruct (Z.land a 0x70 =? 0) eqn:E.
  - assert (Z.land (Z.lor a 7) 0x70 = 0) as ->.
    { apply Z.eqb_eq in E. rewrite Z.land_lor_distr_l, E. reflexivity. }
    simpl. rewrite <- Z.lor_assoc. reflexivity.
  - assert (Z.land (Z.land (Z.lor a 0x70) 0xF8) 0x70 = 0x70) as ->.
    { rewrite <- Z.land_assoc. change (Z.land 0xF8 0x70) with 0x70.
      apply Z.bits_inj'. intros n Hn.
      rewrite Z.land_spec, Z.lor_spec.
      destruct (Z.testbit a n), (Z.testbit 0x70 n); reflexivity. }
    simpl. apply Z.bits_inj'. intros n Hn.
    rewrite !Z.land_spec, !Z.lor_spec, !Z.land_spec, !Z.lor_spec.
    pose proof (mask_70_in_F8 n) as M.
    destruct (Z.testbit a n), (Z.testbit 0x70 n), (Z.testbit 0xF8 n);
      try reflexivity; discriminate M; reflexivity.
Qed.

(** ** BoxGlyphTable *)

(** The seven styles the glyph table has a row for. *)
Lemma get_box_characters_defined (t : BoxType) :
  t <> NO_BORDER ->
  exists b, get_box_characters false t = Some b /\
            box_definitions !! ordinal t = Some b.
Proof. intros H. destruct t; try congruence; eexists; split; reflexivity. Qed.

(** The reference codes of the single-line style. *)
Lemma get_box_characters_single_line :
  exists b, get_box_characters false SINGLE_LINE = Some b /\
            horizontal b = 196 /\ vertical b = 179 /\ upper_left b = 218.
Proof. eexists. split; [reflexivity|]. repeat split. Qed.

(** In ASCII-only mode every style but the blank one is the ASCII style, and
    the blank one stays blank. *)
Lemma get_box_characters_ascii_mode (t : BoxType) :
  (t <> BLANK_BOX ->
   get_box_characters true t = get_box_characters true ASCII /\
   get_box_characters true t = get_box_characters false ASCII) /\
  get_box_characters true BLANK_BOX = get_box_characters false BLANK_BOX.
Proof. split; [|reflexivity]. intros H. destruct t; try congruence; split; reflexivity. Qed.

(** C8 (defect). The glyph table has seven rows, for the enumerators
    [DOUBLE_LINE] to [BLANK_BOX]; [NO_BORDER] is the eighth enumerator and
    its ordinal, 7, is one past the last row: outside ASCII-only mode the
    lookup for [NO_BORDER] is out of bounds and designates no glyph set. *)
Theorem get_box_characters_no_border :
  length box_definitions = 7%nat /\
  ordinal NO_BORDER = 7%nat /\
  get_box_characters false NO_BORDER = None.
Proof. repeat split. Qed.

(** ** Region clamping *)

Ltac int_range := unfold Int.in_range, Int.int_min, Int.int_max in *.

(** Remove the wrap-around of the additions and subtractions whose result is
    in range. *)
Ltac int_linear :=
  repeat match goal with
    | |- context [Int.sub (Int.add ?a ?b) ?c] =>
        rewrite (IntFacts.sub_add_small a b c) by (int_range; lia)
    | |- context [Int.add ?a ?b] =>
        rewrite (IntFacts.add_small a b) by (int_range; lia)
    | |- context [Int.sub ?a ?b] =>
        rewrite (IntFacts.sub_small a b) by (int_range; lia)
    end.

(** A region inside the screen is left as it is. *)
Lemma adjust_dimensions_id rows columns r c w h :
  rows <= Int.int_max -> columns <= Int.int_max ->
  region_ok rows columns r c w h ->
  adjust_dimensions rows columns r c w h = (r, c, w, h).
Proof.
  unfold region_ok, adjust_dimensions. intros Hr Hc H.
  replace (r <? 1) with false by lia.
  replace (r >? rows) with false by lia.
  replace (c <? 1) with false by lia.
  replace (c >? columns) with false by lia.
  replace (h <=? 0) with false by lia.
  replace (w <=? 0) with false by lia.
  int_linear.
  replace (r + h - 1 >? rows) with false by lia.
  replace (c + w - 1 >? columns) with false by lia.
  reflexivity.
Qed.

(** Clamping, for the arguments on which the two sums [r + h - 1] and
    [c + w - 1] stay in the range of [int]: the result satisfies the bounds
    invariant and clamping it again changes nothing. *)
Lemma adjust_dimensions_clamps rows columns r c w h :
  1 <= rows <= Int.int_max -> 1 <= columns <= Int.int_max ->
  Int.in_range r -> Int.in_range c -> Int.in_range w -> Int.in_range h ->
  h <= Int.int_max - rows + 1 -> w <= Int.int_max - columns + 1 ->
  exists r' c' w' h',
    adjust_dimensions rows columns r c w h = (r', c', w', h') /\
    region_ok rows columns r' c' w' h' /\
    adjust_dimensions rows columns r' c' w' h' = (r', c', w', h').
Proof.
  intros Hrows Hcols Hr Hc Hw Hh Hh' Hw'.
  destruct (adjust_dimensions rows columns r c w h) as [[[r' c'] w'] h'] eqn:E.
  exists r', c', w', h'. split; [reflexivity|].
  assert (region_ok rows columns r' c' w' h') as Hok.
  { unfold adjust_dimensions in E. unfold region_ok.
    set (r1 := if r <? 1 then 1 else r) in E.
    set (r2 := if r1 >? rows then rows else r1) in E.
    set (c1 := if c <? 1 then 1 else c) in E.
    set (c2 := if c1 >? columns then columns else c1) in E.
    set (h1 := if h <=? 0 then 1 else h) in E.
    set (w1 := if w <=? 0 then 1 else w) in E.
    assert (1 <= r2 <= rows) by (subst r2 r1; repeat case_match; lia).
    assert (1 <= c2 <= columns) by (subst c2 c1; repeat case_match; lia).
    assert (1 <= h1 <= Int.int_max - rows + 1)
      by (subst h1; int_range; repeat case_match; lia).
    assert (1 <= w1 <= Int.int_max - columns + 1)
      by (subst w1; int_range; repeat case_match; lia).
    clearbody r2 c2 h1 w1. clear r1 c1.
    revert E. int_linear. intros E. injection E as <- <- <- <-.
    repeat case_match; lia. }
  split; [exact Hok|].
  apply adjust_dimensions_id; [lia | lia | exact Hok].
Qed.

(** Clamping twice is clamping once, for all arguments: where a sum wraps
    around, it wraps around the same way the second time. *)
Lemma adjust_dimensions_idempotent rows columns r c w h :
  1 <= rows <= Int.int_max -> 1 <= columns <= Int.int_max ->
  forall r' c' w' h',
  adjust_dimensions rows columns r c w h = (r', c', w', h') ->
  adjust_dimensions rows columns r' c' w' h' = (r', c', w', h').
Proof.
  intros Hrows Hcols r' c' w' h'. unfold adjust_dimensions.
  set (r1 := if r <? 1 then 1 else r).
  set (r2 := if r1 >? rows then rows else r1).
  set (c1 := if c <? 1 then 1 else c).
  set (c2 := if c1 >? columns then columns else c1).
  set (h1 := if h <=? 0 then 1 else h).
  set (w1 := if w <=? 0 then 1 else w).
  assert (1 <= r2 <= rows) by (subst r2 r1; repeat case_match; lia).
  assert (1 <= c2 <= columns) by (subst c2 c1; repeat case_match; lia).
  assert (1 <= h1) by (subst h1; case_match; lia).
  assert (1 <= w1) by (subst w1; case_match; lia).
  clearbody r2 c2 h1 w1. clear r1 c1.
  rewrite (IntFacts.sub_small rows r2) by (int_range; lia).
  rewrite (IntFacts.sub_small columns c2) by (int_range; lia).
  rewrite (IntFacts.add_small (rows - r2) 1) by (int_range; lia).
  rewrite (IntFacts.add_small (columns - c2) 1) by (int_range; lia).
  intros [= <- <- <- <-].
  replace (r2 <? 1) with false by lia.
  replace (r2 >? rows) with false by lia.
  replace (c2 <? 1) with false by lia.
  replace (c2 >? columns) with false by lia.
  destruct (Int.sub (Int.add r2 h1) 1 >? rows) eqn:Eh;
    destruct (Int.sub (Int.add c2 w1) 1 >? columns) eqn:Ew.
  - replace (rows - r2 + 1 <=? 0) with false by lia.
    replace (columns - c2 + 1 <=? 0) with false by lia.
    rewrite !IntFacts.sub_add_small by (int_range; lia).
    replace (r2 + (rows - r2 + 1) - 1 >? rows) with false by lia.
    replace (c2 + (columns - c2 + 1) - 1 >? columns) with false by lia.
    reflexivity.
  - replace (rows - r2 + 1 <=? 0) with false by lia.
    replace (w1 <=? 0) with false by lia. rewrite Ew.
    rewrite IntFacts.sub_add_small by (int_range; lia).
    replace (r2 + (rows - r2 + 1) - 1 >? rows) with false by lia.
    reflexivity.
  - replace (h1 <=? 0) with false by lia.
    replace (columns - c2 + 1 <=? 0) with false by lia. rewrite Eh.
    rewrite IntFacts.sub_add_small by (int_range; lia).
    replace (c2 + (columns - c2 + 1) - 1 >? columns) with false by lia.
    reflexivity.
  - replace (h1 <=? 0) with false by lia.
    replace (w1 <=? 0) with false by lia. rewrite Eh, Ew. reflexivity.
Qed.

(** For all arguments the corner of the result is on the screen and its
    extents are at least one. *)
Lemma adjust_dimensions_corner rows columns r c w h :
  1 <= rows <= Int.int_max -> 1 <= columns <= Int.int_max ->
  forall r' c' w' h',
  adjust_dimensions rows columns r c w h = (r', c', w', h') ->
  1 <= r' <= rows /\ 1 <= c' <= columns /\ 1 <= w' /\ 1 <= h'.
Proof.
  intros Hrows Hcols r' c' w' h'. unfold adjust_dimensions.
  set (r1 := if r <? 1 then 1 else r).
  set (r2 := if r1 >? rows then rows else r1).
  set (c1 := if c <? 1 then 1 else c).
  set (c2 := if c1 >? columns then columns else c1).
  set (h1 := if h <=? 0 then 1 else h).
  set (w1 := if w <=? 0 then 1 else w).
  assert (1 <= r2 <= rows) by (subst r2 r1; repeat case_match; lia).
  assert (1 <= c2 <= columns) by (subst c2 c1; repeat case_match; lia).
  assert (1 <= h1) by (subst h1; case_match; lia).
  assert (1 <= w1) by (subst w1; case_match; lia).
  clearbody r2 c2 h1 w1. clear r1 c1.
  rewrite (IntFacts.sub_small rows r2) by (int_range; lia).
  rewrite (IntFacts.sub_small columns c2) by (int_range; lia).
  rewrite (IntFacts.add_small (rows - r2) 1) by (int_range; lia).
  rewrite (IntFacts.add_small (columns - c2) 1) by (int_range; lia).
  intros [= <- <- <- <-]. repeat case_match; lia.
Qed.

(** C5 (defect). On the 24 by 80 screen the region at row 2 of height
    [INT_MAX] is returned unchanged: the sum [r + h - 1] leaves the range of
    [int] and wraps around to a negative number, so the test against
    [total_rows] does not fire and the bound [row + height - 1 <= total_rows]
    does not hold of the result. *)
Theorem adjust_dimensions_overflow :
  adjust_dimensions 24 80 2 1 1 2147483647 = (2, 1, 1, 2147483647) /\
  Int.sub (Int.add 2 2147483647) 1 = -2147483648 /\
  ~ region_ok 24 80 2 1 1 2147483647.
Proof.
  split; [reflexivity|]. split; [reflexivity|].
  unfold region_ok. lia.
Qed.

(** ** Memory *)

Lemma load_Some m p v : load m p = Some v -> 0 <= p < Z.of_nat (length m).
Proof.
  unfold load. destruct (0 <=? p) eqn:E; [|discriminate].
  intros H. apply lookup_lt_Some in H. lia.
Qed.

Lemma load_in_bounds m p :
  0 <= p < Z.of_nat (length m) -> exists v, load m p = Some v.
Proof.
  intros H. unfold load. replace (0 <=? p) with true by lia.
  destruct (lookup_lt_is_Some_2 m (Z.to_nat p)) as [v Hv]; [lia|eauto].
Qed.

Lemma load_out_of_bounds m p :
  ~ (0 <= p < Z.of_nat (length m)) -> load m p = None.
Proof.
  intros H. destruct (load m p) eqn:E; [|reflexivity].
  apply load_Some in E. contradiction.
Qed.

Lemma store_in_bounds m p v :
  0 <= p < Z.of_nat (length m) -> store m p v = Some (<[Z.to_nat p := v]> m).
Proof.
  intros H. unfold store.
  replace (0 <=? p) with true by lia.
  replace (p <? Z.of_nat (length m)) with true by lia. reflexivity.
Qed.

Lemma store_Some m p v m' :
  store m p v = Some m' ->
  0 <= p < Z.of_nat (length m) /\ m' = <[Z.to_nat p := v]> m.
Proof.
  unfold store. destruct (0 <=? p) eqn:E1; [|discriminate].
  destruct (p <? Z.of_nat (length m)) eqn:E2; [|discriminate].
  simpl. intros [= <-]. split; [lia|reflexivity].
Qed.

Lemma store_length m p v m' : store m p v = Some m' -> length m' = length m.
Proof. intros H. apply store_Some in H as [_ ->]. apply length_insert. Qed.

Lemma load_store_eq m p v m' : store m p v = Some m' -> load m' p = Some v.
Proof.
  intros H. apply store_Some in H as [Hp ->]. unfold load.
  replace (0 <=? p) with true by lia.
  apply list_lookup_insert_eq. lia.
Qed.

Lemma load_store_ne m p v m' q :
  store m p v = Some m' -> q <> p -> load m' q = load m q.
Proof.
  intros H Hq. apply store_Some in H as [Hp ->]. unfold load.
  destruct (0 <=? q) eqn:E; [|reflexivity].
  apply list_lookup_insert_ne. lia.
Qed.

Lemma load_bytes_Some m p n bs :
  load_bytes m p n = Some bs ->
  0 <= p /\ 0 <= n /\ p + n <= Z.of_nat (length m) /\
  Z.of_nat (length bs) = n /\
  forall i, 0 <= i < n -> bs !! Z.to_nat i = load m (p + i).
Proof.
  unfold load_bytes.
  destruct (0 <=? p) eqn:E1; [|discriminate].
  destruct (0 <=? n) eqn:E2; [|discriminate].
  destruct (p + n <=? Z.of_nat (length m)) eqn:E3; [|discriminate].
  simpl. intros [= <-]. repeat split; try lia.
  - rewrite length_take, length_drop. lia.
  - intros i Hi. rewrite lookup_take. case_decide; [|lia].
    rewrite lookup_drop. unfold load.
    replace (0 <=? p + i) with true by lia. f_equal. lia.
Qed.

Lemma load_bytes_in_bounds m p n :
  0 <= p -> 0 <= n -> p + n <= Z.of_nat (length m) ->
  exists bs, load_bytes m p n = Some bs.
Proof.
  intros H1 H2 H3. unfold load_bytes.
  replace (0 <=? p) with true by lia.
  replace (0 <=? n) with true by lia.
  replace (p + n <=? Z.of_nat (length m)) with true by lia.
  eauto.
Qed.

Lemma store_bytes_Some m p bs m' :
  store_bytes m p bs = Some m' ->
  0 <= p /\ p + Z.of_nat (length bs) <= Z.of_nat (length m) /\
  length m' = length m /\
  (forall i, 0 <= i < Z.of_nat (length bs) ->
     load m' (p + i) = bs !! Z.to_nat i) /\
  (forall q, ~ (p <= q < p + Z.of_nat (length bs)) -> load m' q = load m q).
Proof.
  unfold store_bytes.
  destruct (0 <=? p) eqn:E1; [|discriminate].
  destruct (p + Z.of_nat (length bs) <=? Z.of_nat (length m)) eqn:E3;
    [|discriminate].
  simpl. intros [= <-]. repeat split; try lia.
  - rewrite !length_app, length_take, length_drop. lia.
  - intros i Hi. unfold load. replace (0 <=? p + i) with true by lia.
    rewrite lookup_app_r by (rewrite length_take; lia).
    rewrite length_take.
    rewrite lookup_app_l by lia. f_equal. lia.
  - intros q Hq. unfold load. destruct (0 <=? q) eqn:E; [|reflexivity].
    destruct (Z.lt_ge_cases q p).
    + rewrite lookup_app_l by (rewrite length_take; lia).
      rewrite lookup_take. case_decide; [reflexivity|lia].
    + rewrite lookup_app_r by (rewrite length_take; lia).
      rewrite length_take.
      rewrite lookup_app_r by lia.
      rewrite lookup_drop. f_equal. lia.
Qed.

Lemma store_bytes_in_bounds m p bs :
  0 <= p -> p + Z.of_nat (length bs) <= Z.of_nat (length m) ->
  exists m', store_bytes m p bs = Some m'.
Proof.
  intros H1 H2. unfold store_bytes.
  replace (0 <=? p) with true by lia.
  replace (p + Z.of_nat (length bs) <=? Z.of_nat (length m)) with true by lia.
  eauto.
Qed.

(** A [memcpy] whose two ranges are inside their arrays copies [n] bytes
    and leaves the others. *)
Lemma memcpy_spec dst dp src sp n :
  0 <= dp -> 0 <= sp -> 0 <= n ->
  dp + n <= Z.of_nat (length dst) -> sp + n <= Z.of_nat (length src) ->
  exists dst',
    memcpy dst dp src sp n = Some dst' /\
    length dst' = length dst /\
    (forall i, 0 <= i < n -> load dst' (dp + i) = load src (sp + i)) /\
    (forall q, ~ (dp <= q < dp + n) -> load dst' q = load dst q).
Proof.
  intros H1 H2 H3 H4 H5. unfold memcpy.
  destruct (load_bytes_in_bounds src sp n) as [bs Hbs]; try lia.
  rewrite Hbs. apply load_bytes_Some in Hbs as (_ & _ & _ & Hlen & Hget).
  destruct (store_bytes_in_bounds dst dp bs) as [dst' Hst]; try lia.
  rewrite Hst. apply store_bytes_Some in Hst as (_ & _ & Hl & Hin & Hout).
  exists dst'. repeat split; auto.
  - intros i Hi. rewrite Hin by lia. apply Hget. lia.
  - intros q Hq. apply Hout. lia.
Qed.

(** Two arrays of one size that hold the same bytes are equal. *)
Lemma image_ext (m1 m2 : list Z) :
  length m1 = length m2 ->
  (forall p, 0 <= p < Z.of_nat (length m1) -> load m1 p = load m2 p) ->
  m1 = m2.
Proof.
  intros Hlen H. apply list_eq. intros i.
  destruct (Nat.lt_ge_cases i (length m1)) as [Hi|Hi].
  - specialize (H (Z.of_nat i)). unfold load in H.
    replace (0 <=? Z.of_nat i) with true in H by lia.
    rewrite Nat2Z.id in H. apply H. lia.
  - rewrite !lookup_ge_None_2; [reflexivity|lia|lia].
Qed.

(** ** Geometry of the image *)

Section Geometry.

Variables rows columns : Z.
Hypothesis Hgeo : geometry_ok rows columns.

Lemma geometry_bounds :
  1 <= rows <= Int.int_max /\ 1 <= columns <= Int.int_max /\
  0 < 2 * columns <= Int.int_max.
Proof using Hgeo.
  destruct Hgeo as (Hr & Hc & Hs). int_range. nia.
Qed.

(** The row stride [2 * total_columns]. *)
Lemma stride_small : Int.mul 2 columns = 2 * columns.
Proof using Hgeo.
  apply IntFacts.mul_small. pose proof geometry_bounds. int_range. lia.
Qed.

(** The image has [2 * rows * columns] bytes. *)
Lemma image_size_small :
  Int.mul (Int.mul rows 2) columns = 2 * rows * columns.
Proof using Hgeo.
  destruct Hgeo as (Hr & Hc & Hs).
  rewrite (IntFacts.mul_small rows 2) by (int_range; nia).
  rewrite IntFacts.mul_small by (int_range; nia). lia.
Qed.

(** The offset of a row of the screen, [k] being [row - 1]. *)
Lemma row_offset_small k :
  0 <= k < rows -> Int.mul (Int.mul k 2) columns = k * (2 * columns).
Proof using Hgeo.
  destruct Hgeo as (Hr & Hc & Hs). intros Hk.
  rewrite (IntFacts.mul_small k 2) by (int_range; nia).
  rewrite IntFacts.mul_small by (int_range; nia). lia.
Qed.

(** The pointer arithmetic of a cell on the screen does not wrap. *)
Lemma cell_offset_small row column :
  1 <= row <= rows -> 1 <= column <= columns ->
  cell_offset columns row column = cell_index columns row column.
Proof using Hgeo.
  pose proof geometry_bounds as (Hr & Hc & Hs). intros Hrow Hcol.
  unfold cell_offset, cell_index.
  rewrite (IntFacts.sub_small row 1) by (int_range; lia).
  rewrite (IntFacts.sub_small column 1) by (int_range; lia).
  rewrite row_offset_small by lia.
  rewrite IntFacts.mul_small by (int_range; lia). lia.
Qed.

(** Offsets decompose uniquely into a row and a position in the row. *)
Lemma offset_inj a b x y :
  0 <= x < 2 * columns -> 0 <= y < 2 * columns ->
  a * (2 * columns) + x = b * (2 * columns) + y -> a = b /\ x = y.
Proof using Hgeo.
  intros Hx Hy E.
  assert (a = b) as ->; [|lia].
  destruct (Z.lt_trichotomy a b) as [H|[H|H]]; [|exact H|]; nia.
Qed.

(** The bytes of the row [i] of a region are inside the image. *)
Lemma region_row_in_image r c w h i :
  region_ok rows columns r c w h -> 0 <= i < h ->
  0 <= cell_index columns r c + i * (2 * columns) /\
  cell_index columns r c + i * (2 * columns) + 2 * w
    <= 2 * rows * columns /\
  2 * w <= 2 * columns.
Proof using Hgeo.
  destruct Hgeo as (Hr & Hc & Hs). unfold region_ok, cell_index.
  intros H Hi. nia.
Qed.

(** The position of a cell in the rows of a region. *)
Lemma cell_index_row r c i j :
  cell_index columns (r + i) (c + j) =
  cell_index columns r c + i * (2 * columns) + 2 * j.
Proof. unfold cell_index. lia. Qed.

(** A byte of a cell of the screen is in the rows of a region only if the
    cell is in the region. *)
Lemma cell_in_region_rows r c w h row column b i :
  region_ok rows columns r c w h ->
  1 <= column <= columns -> 0 <= b < 2 ->
  cell_index columns r c + i * (2 * columns)
    <= cell_index columns row column + b
    < cell_index columns r c + i * (2 * columns) + 2 * w ->
  row = r + i /\ c <= column < c + w.
Proof using Hgeo.
  unfold region_ok, cell_index. intros H Hcol Hb Hin.
  assert (row - 1 = r - 1 + i /\
          (column - 1) * 2 + b = (c - 1) * 2 + ((column - c) * 2 + b))
    as [E1 E2].
  { assert ((column - 1) * 2 + b = (c - 1) * 2 + ((column - c) * 2 + b))
      as E by lia.
    split; [|exact E].
    destruct (Z.lt_trichotomy (row - 1) (r - 1 + i)) as [L|[L|L]];
      [|exact L|]; nia. }
  split; [lia|]. nia.
Qed.

End Geometry.

(** ** Bulk transfer: [write] and [read] *)

(** The rows of [write]: [n] rows of [row_length] bytes, [stride] apart in
    the image and consecutive in the buffer. *)
Lemma write_rows_spec columns n row_length buffer :
  0 <= row_length ->
  forall screen_pointer bp image,
  (forall i, 0 <= i < Z.of_nat n ->
     0 <= screen_pointer + i * Int.mul 2 columns /\
     screen_pointer + i * Int.mul 2 columns + row_length
       <= Z.of_nat (length image)) ->
  (forall i, 0 <= i < Z.of_nat n ->
     0 <= bp + i * row_length /\
     bp + i * row_length + row_length <= Z.of_nat (length buffer)) ->
  row_length <= Int.mul 2 columns ->
  exists image',
    write_rows columns n row_length screen_pointer bp buffer image
      = Some image' /\
    length image' = length image /\
    (forall i j, 0 <= i < Z.of_nat n -> 0 <= j < row_length ->
       load image' (screen_pointer + i * Int.mul 2 columns + j)
       = load buffer (bp + i * row_length + j)) /\
    (forall q,
       (forall i, 0 <= i < Z.of_nat n ->
          ~ (screen_pointer + i * Int.mul 2 columns <= q
             < screen_pointer + i * Int.mul 2 columns + row_length)) ->
       load image' q = load image q).
Proof.
  intros Hrl. set (stride := Int.mul 2 columns).
  induction n as [|n IH]; intros sp bp image Himg Hbuf Hstride.
  - exists image. simpl. repeat split; auto. intros; lia.
  - simpl. fold stride.
    destruct (Himg 0) as [Hi0 Hi1]; [lia|].
    destruct (Hbuf 0) as [Hb0 Hb1]; [lia|].
    destruct (memcpy_spec image sp buffer bp row_length)
      as (image1 & -> & Hlen1 & Hin1 & Hout1); try lia.
    destruct (IH (sp + stride) (bp + row_length) image1)
      as (image' & -> & Hlen & Hin & Hout); auto.
    { intros i Hi. rewrite Hlen1.
      destruct (Himg (i + 1)) as [? ?]; [lia|]. lia. }
    { intros i Hi. destruct (Hbuf (i + 1)) as [? ?]; [lia|]. lia. }
    exists image'. split; [reflexivity|]. split; [congruence|]. split.
    + intros i j Hi Hj. destruct (Z.eq_dec i 0) as [->|Hne].
      * rewrite Hout.
        -- replace (sp + 0 * stride + j) with (sp + j) by lia.
           rewrite Hin1 by lia. f_equal. lia.
        -- intros i' Hi'. pose proof (Z.mul_nonneg_nonneg i' stride). lia.
      * replace (sp + i * stride + j)
          with (sp + stride + (i - 1) * stride + j) by lia.
        rewrite Hin by lia. f_equal. lia.
    + intros q Hq. rewrite Hout.
      * apply Hout1. specialize (Hq 0). lia.
      * intros i Hi. specialize (Hq (i + 1)). lia.
Qed.

(** The rows of [read]. *)
Lemma read_rows_spec columns n row_length image :
  0 <= row_length ->
  forall screen_pointer bp buffer,
  (forall i, 0 <= i < Z.of_nat n ->
     0 <= screen_pointer + i * Int.mul 2 columns /\
     screen_pointer + i * Int.mul 2 columns + row_length
       <= Z.of_nat (length image)) ->
  (forall i, 0 <= i < Z.of_nat n ->
     0 <= bp + i * row_length /\
     bp + i * row_length + row_length <= Z.of_nat (length buffer)) ->
  exists buffer',
    read_rows columns n row_length screen_pointer bp image buffer
      = Some buffer' /\
    length buffer' = length buffer /\
    (forall i j, 0 <= i < Z.of_nat n -> 0 <= j < row_length ->
       load buffer' (bp + i * row_length + j)
       = load image (screen_pointer + i * Int.mul 2 columns + j)) /\
    (forall q, ~ (bp <= q < bp + Z.of_nat n * row_length) ->
       load buffer' q = load buffer q).
Proof.
  intros Hrl. set (stride := Int.mul 2 columns).
  induction n as [|n IH]; intros sp bp buffer Himg Hbuf.
  - exists buffer. simpl. repeat split; auto. intros; lia.
  - simpl. fold stride.
    destruct (Himg 0) as [Hi0 Hi1]; [lia|].
    destruct (Hbuf 0) as [Hb0 Hb1]; [lia|].
    destruct (memcpy_spec buffer bp image sp row_length)
      as (buffer1 & -> & Hlen1 & Hin1 & Hout1); try lia.
    destruct (IH (sp + stride) (bp + row_length) buffer1)
      as (buffer' & -> & Hlen & Hin & Hout).
    { intros i Hi. destruct (Himg (i + 1)) as [? ?]; [lia|]. lia. }
    { intros i Hi. rewrite Hlen1.
      destruct (Hbuf (i + 1)) as [? ?]; [lia|]. lia. }
    exists buffer'. split; [reflexivity|]. split; [congruence|]. split.
    + intros i j Hi Hj. destruct (Z.eq_dec i 0) as [->|Hne].
      * rewrite Hout.
        -- replace (bp + 0 * row_length + j) with (bp + j) by lia.
           rewrite Hin1 by lia. f_equal. lia.
        -- pose proof (Z.mul_nonneg_nonneg (Z.of_nat n) row_length). lia.
      * replace (bp + i * row_length + j)
          with (bp + row_length + (i - 1) * row_length + j) by lia.
        rewrite Hin by lia. f_equal. lia.
    + intros q Hq. rewrite Hout by lia. apply Hout1.
      pose proof (Z.mul_nonneg_nonneg (Z.of_nat n) row_length). lia.
Qed.

(** What [write] does to the image, for a region inside the screen and a
    buffer of the right size: the bytes of row [i] of the region are the
    bytes of row [i] of the buffer and every other byte is kept. *)
Lemma write_spec s r c w h buffer :
  session_ok s ->
  region_ok (total_rows s) (total_columns s) r c w h ->
  Z.of_nat (length buffer) = 2 * w * h ->
  exists image image',
    screen_image s = Some image /\
    write r c w h buffer s = Some (set_screen_image (Some image') s) /\
    length image' = length image /\
    (forall i j, 0 <= i < h -> 0 <= j < 2 * w ->
       load image'
         (cell_index (total_columns s) r c + i * (2 * total_columns s) + j)
       = load buffer (i * (2 * w) + j)) /\
    (forall q,
       (forall i, 0 <= i < h ->
          ~ (cell_index (total_columns s) r c + i * (2 * total_columns s) <= q
             < cell_index (total_columns s) r c + i * (2 * total_columns s)
               + 2 * w)) ->
       load image' q = load image q).
Proof.
  intros (Hgeo & image & Himage & Hsize) Hreg Hbuf.
  pose proof (geometry_bounds _ _ Hgeo) as (Hrows & Hcols & Hstride).
  pose proof (stride_small _ _ Hgeo) as Es.
  assert (Hreg' := Hreg). destruct Hreg' as (Hr & Hc & Hw & Hh & Hrh & Hcw).
  destruct (write_rows_spec (total_columns s) (Z.to_nat h) (2 * w) buffer)
    with (screen_pointer := cell_index (total_columns s) r c) (bp := 0)
         (image := image)
    as (image' & Hrun & Hlen & Hin & Hout); try lia.
  { intros i Hi. rewrite Es, Hsize.
    pose proof (region_row_in_image _ _ Hgeo r c w h i Hreg). lia. }
  { intros i Hi. nia. }
  exists image, image'. split; [exact Himage|]. split.
  { unfold write.
    rewrite adjust_dimensions_id by (lia || exact Hreg).
    rewrite Himage.
    rewrite (IntFacts.mul_small 2 w) by (int_range; lia).
    rewrite !IntFacts.to_unsigned_small by lia.
    rewrite (cell_offset_small _ _ Hgeo) by lia.
    rewrite Hrun. reflexivity. }
  split; [exact Hlen|]. rewrite Es in Hin, Hout. split.
  - intros i j Hi Hj. rewrite Hin by lia. f_equal.
  - intros q Hq. apply Hout. intros i Hi. apply Hq. lia.
Qed.

(** C3. For every region inside the screen (one that clamping leaves as it
    is) and every buffer [B] of [2 * width * height] bytes, [write] of [B]
    followed by [read] of the same region into a buffer of the same size
    returns [B], byte for byte, the attribute bytes included. *)
Theorem write_read_roundtrip (s : scr) (r c w h : Z) (B B2 : list Z) :
  session_ok s ->
  region_ok (total_rows s) (total_columns s) r c w h ->
  Z.of_nat (length B) = 2 * w * h ->
  Z.of_nat (length B2) = 2 * w * h ->
  adjust_dimensions (total_rows s) (total_columns s) r c w h = (r, c, w, h) /\
  exists s', write r c w h B s = Some s' /\ read r c w h B2 s' = Some B.
Proof.
  intros Hs Hreg HB HB2.
  destruct (write_spec s r c w h B Hs Hreg HB)
    as (image & image' & Himage & Hwrite & Hlen & Hin & Hout).
  destruct Hs as (Hgeo & image0 & Himage0 & Hsize).
  rewrite Himage in Himage0. injection Himage0 as <-.
  pose proof (geometry_bounds _ _ Hgeo) as (Hrows & Hcols & Hstride).
  pose proof (stride_small _ _ Hgeo) as Es.
  assert (Hreg' := Hreg). destruct Hreg' as (Hr & Hc & Hw & Hh & Hrh & Hcw).
  split; [apply adjust_dimensions_id; [lia | lia | exact Hreg]|].
  eexists. split; [exact Hwrite|].
  unfold read. cbn [total_rows total_columns screen_image set_screen_image].
  rewrite adjust_dimensions_id by (lia || exact Hreg).
  rewrite (IntFacts.mul_small 2 w) by (int_range; lia).
  rewrite !IntFacts.to_unsigned_small by lia.
  rewrite (cell_offset_small _ _ Hgeo) by lia.
  destruct (read_rows_spec (total_columns s) (Z.to_nat h) (2 * w) image')
    with (screen_pointer := cell_index (total_columns s) r c) (bp := 0)
         (buffer := B2)
    as (B' & -> & HlenB & HinB & _); try lia.
  { intros i Hi. rewrite Es, Hlen, Hsize.
    pose proof (region_row_in_image _ _ Hgeo r c w h i Hreg). lia. }
  { intros i Hi. nia. }
  f_equal. apply image_ext; [lia|].
  intros p Hp. rewrite Es in HinB.
  assert (0 < 2 * w) as Hpos by lia.
  pose proof (Z.div_mod p (2 * w) ltac:(lia)) as Hdm.
  pose proof (Z.mod_pos_bound p (2 * w) Hpos) as Hmod.
  set (i := p / (2 * w)) in *. set (j := p mod (2 * w)) in *.
  assert (0 <= i < h) as Hi by nia.
  replace p with (0 + i * (2 * w) + j) by lia.
  rewrite HinB by lia. rewrite Hin by lia. f_equal; lia.
Qed.

(** ** [clear] *)

Lemma clear_cols_spec attribute n :
  forall destination image,
  0 <= destination ->
  destination + 2 * Z.of_nat n <= Z.of_nat (length image) ->
  exists image',
    clear_cols n destination attribute image = Some image' /\
    length image' = length image /\
    (forall j, 0 <= j < Z.of_nat n ->
       load image' (destination + 2 * j) = Some 32 /\
       load image' (destination + 2 * j + 1) = Some (to_char attribute)) /\
    (forall q, ~ (destination <= q < destination + 2 * Z.of_nat n) ->
       load image' q = load image q).
Proof.
  induction n as [|n IH]; intros d image Hd Hlen.
  - exists image. simpl. repeat split; auto; intros; lia.
  - simpl.
    rewrite (store_in_bounds image d 32) by lia.
    set (image1 := <[Z.to_nat d := 32]> image).
    assert (store image d 32 = Some image1) as S1
      by (apply store_in_bounds; lia).
    assert (length image1 = length image) as L1 by (eapply store_length, S1).
    rewrite (store_in_bounds image1 (d + 1)) by lia.
    set (image2 := <[Z.to_nat (d + 1) := to_char attribute]> image1).
    assert (store image1 (d + 1) (to_char attribute) = Some image2) as S2
      by (apply store_in_bounds; lia).
    assert (length image2 = length image1) as L2 by (eapply store_length, S2).
    destruct (IH (d + 2) image2) as (image' & -> & Hlen' & Hin & Hout);
      try lia.
    exists image'. split; [reflexivity|]. split; [congruence|]. split.
    + intros j Hj. destruct (Z.eq_dec j 0) as [->|Hne].
      * replace (d + 2 * 0) with d by lia.
        rewrite !Hout by lia.
        rewrite (load_store_eq _ _ _ _ S2).
        rewrite (load_store_ne _ _ _ _ d S2) by lia.
        rewrite (load_store_eq _ _ _ _ S1). auto.
      * replace (d + 2 * j) with (d + 2 + 2 * (j - 1)) by lia.
        apply Hin. lia.
    + intros q Hq. rewrite Hout by lia.
      rewrite (load_store_ne _ _ _ _ q S2) by lia.
      apply (load_store_ne _ _ _ _ q S1). lia.
Qed.

Lemma clear_rows_spec columns width attribute n :
  0 <= width -> 2 * width <= Int.mul 2 columns ->
  forall screen_pointer image,
  (forall i, 0 <= i < Z.of_nat n ->
     0 <= screen_pointer + i * Int.mul 2 columns /\
     screen_pointer + i * Int.mul 2 columns + 2 * width
       <= Z.of_nat (length image)) ->
  exists image',
    clear_rows columns n width screen_pointer attribute image = Some image' /\
    length image' = length image /\
    (forall i j, 0 <= i < Z.of_nat n -> 0 <= j < width ->
       load image' (screen_pointer + i * Int.mul 2 columns + 2 * j)
         = Some 32 /\
       load image' (screen_pointer + i * Int.mul 2 columns + 2 * j + 1)
         = Some (to_char attribute)) /\
    (forall q,
       (forall i, 0 <= i < Z.of_nat n ->
          ~ (screen_pointer + i * Int.mul 2 columns <= q
             < screen_pointer + i * Int.mul 2 columns + 2 * width)) ->
       load image' q = load image q).
Proof.
  intros Hw Hstride. set (stride := Int.mul 2 columns) in *.
  induction n as [|n IH]; intros sp image Himg.
  - exists image. simpl. repeat split; auto; intros; lia.
  - simpl. fold stride.
    destruct (Himg 0) as [Hi0 Hi1]; [lia|].
    destruct (clear_cols_spec attribute (Z.to_nat width) sp image)
      as (image1 & -> & Hlen1 & Hin1 & Hout1); try lia.
    destruct (IH (sp + stride) image1) as (image' & -> & Hlen & Hin & Hout).
    { intros i Hi. rewrite Hlen1.
      destruct (Himg (i + 1)) as [? ?]; [lia|]. lia. }
    exists image'. split; [reflexivity|]. split; [congruence|]. split.
    + intros i j Hi Hj. destruct (Z.eq_dec i 0) as [->|Hne].
      * rewrite !Hout.
        -- replace (sp + 0 * stride + 2 * j) with (sp + 2 * j) by lia.
           apply Hin1. lia.
        -- intros i' Hi'. pose proof (Z.mul_nonneg_nonneg i' stride). lia.
        -- intros i' Hi'. pose proof (Z.mul_nonneg_nonneg i' stride). lia.
      * replace (sp + i * stride + 2 * j)
          with (sp + stride + (i - 1) * stride + 2 * j) by lia.
        apply Hin; lia.
    + intros q Hq. rewrite Hout.
      * apply Hout1. specialize (Hq 0). lia.
      * intros i Hi. specialize (Hq (i + 1)). lia.
Qed.

(** Reading a cell through the byte offsets of the rows of a region. *)
Lemma cell_at_loads image columns row column c a :
  load image (cell_index columns row column) = Some c ->
  load image (cell_index columns row column + 1) = Some a ->
  cell_at (Some image) columns row column = Some (c, a).
Proof. intros H1 H2. unfold cell_at. rewrite H1, H2. reflexivity. Qed.

Lemma cell_at_same image image' columns row column row' column' :
  load image' (cell_index columns row column)
    = load image (cell_index columns row' column') ->
  load image' (cell_index columns row column + 1)
    = load image (cell_index columns row' column' + 1) ->
  cell_at (Some image') columns row column
    = cell_at (Some image) columns row' column'.
Proof. intros H1 H2. unfold cell_at. rewrite H1, H2. reflexivity. Qed.

(** What [clear] does, for a region inside the screen: every cell of the
    region holds a space in the converted attribute, every other cell of the
    screen is kept. *)
Lemma clear_spec s r c w h attribute :
  session_ok s ->
  region_ok (total_rows s) (total_columns s) r c w h ->
  exists image',
    clear r c w h attribute s = Some (set_screen_image (Some image') s) /\
    Z.of_nat (length image') = 2 * total_rows s * total_columns s /\
    (forall row column, r <= row < r + h -> c <= column < c + w ->
       cell_at (Some image') (total_columns s) row column
       = Some (32, to_char (convert_attribute (color_works s) attribute))) /\
    (forall row column,
       1 <= column <= total_columns s ->
       ~ (r <= row < r + h /\ c <= column < c + w) ->
       cell_at (Some image') (total_columns s) row column
       = cell_at (screen_image s) (total_columns s) row column).
Proof.
  intros (Hgeo & image & Himage & Hsize) Hreg.
  pose proof (geometry_bounds _ _ Hgeo) as (Hrows & Hcols & Hstride).
  pose proof (stride_small _ _ Hgeo) as Es.
  assert (Hreg' := Hreg). destruct Hreg' as (Hr & Hc & Hw & Hh & Hrh & Hcw).
  destruct (clear_rows_spec (total_columns s) w
              (convert_attribute (color_works s) attribute) (Z.to_nat h))
    with (screen_pointer := cell_index (total_columns s) r c) (image := image)
    as (image' & Hrun & Hlen & Hin & Hout); try lia.
  { intros i Hi. rewrite Es, Hsize.
    pose proof (region_row_in_image _ _ Hgeo r c w h i Hreg). lia. }
  rewrite Es in Hin, Hout.
  exists image'. split.
  { unfold clear. rewrite adjust_dimensions_id by (lia || exact Hreg).
    rewrite Himage, (cell_offset_small _ _ Hgeo) by lia.
    rewrite Hrun. reflexivity. }
  split; [lia|]. split.
  - intros row column Hrow Hcol.
    destruct (Hin (row - r) (column - c)) as [H1 H2]; try lia.
    apply cell_at_loads.
    + rewrite <- H1. f_equal. unfold cell_index. lia.
    + rewrite <- H2. f_equal. unfold cell_index. lia.
  - intros row column Hcol Hnot. rewrite Himage.
    apply cell_at_same; apply Hout; intros i Hi Hin'.
    + apply Hnot.
      destruct (cell_in_region_rows _ _ Hgeo r c w h row column 0 i)
        as [? ?]; auto; lia.
    + apply Hnot.
      destruct (cell_in_region_rows _ _ Hgeo r c w h row column 1 i)
        as [? ?]; auto; lia.
Qed.

(** ** [scroll] *)

(** The copying loop: row [i] of the destination receives what row [i + k]
    held when the loop started, rows being counted in the direction of the
    copy, and nothing else changes.  No [memcpy] has overlapping ranges. *)
Lemma scroll_rows_spec stride width k step n :
  0 < Int.mul 2 width <= stride -> step = stride \/ step = - stride ->
  1 <= k ->
  forall destination image,
  (forall a, 0 <= a < Z.of_nat n + k ->
     0 <= destination + a * step /\
     destination + a * step + Int.mul 2 width <= Z.of_nat (length image)) ->
  exists image',
    scroll_rows n width destination (destination + k * step) step image
      = Some image' /\
    length image' = length image /\
    (forall i j, 0 <= i < Z.of_nat n -> 0 <= j < Int.mul 2 width ->
       load image' (destination + i * step + j)
       = load image (destination + (i + k) * step + j)) /\
    (forall q,
       (forall i, 0 <= i < Z.of_nat n ->
          ~ (destination + i * step <= q
             < destination + i * step + Int.mul 2 width)) ->
       load image' q = load image q).
Proof.
  set (rl := Int.mul 2 width). intros Hrl Hstep Hk.
  induction n as [|n IH]; intros d image Himg.
  - exists image. simpl. repeat split; auto; intros; lia.
  - simpl. fold rl.
    destruct (Himg 0) as [Hd0 Hd1]; [lia|].
    destruct (Himg k) as [Hs0 Hs1]; [lia|].
    assert (memcpy_within image d (d + k * step) rl
            = memcpy image d image (d + k * step) rl) as ->.
    { unfold memcpy_within.
      destruct Hstep as [-> | ->].
      - replace (d + k * stride <? d + rl) with false by nia.
        rewrite andb_false_r. reflexivity.
      - replace (d <? d + k * - stride + rl) with false by nia.
        rewrite andb_false_r. reflexivity. }
    destruct (memcpy_spec image d image (d + k * step) rl)
      as (image1 & -> & Hlen1 & Hin1 & Hout1); try lia.
    destruct (IH (d + step) image1) as (image' & Hrun & Hlen & Hin & Hout).
    { intros a Ha. rewrite Hlen1.
      destruct (Himg (a + 1)) as [? ?]; [lia|]. lia. }
    replace (d + step + k * step) with (d + k * step + step) in Hrun by lia.
    rewrite Hrun.
    exists image'. split; [reflexivity|]. split; [congruence|]. split.
    + intros i j Hi Hj. destruct (Z.eq_dec i 0) as [->|Hne].
      * rewrite Hout.
        -- replace (d + 0 * step + j) with (d + j) by lia.
           rewrite Hin1 by lia. f_equal; lia.
        -- intros i' Hi'. destruct Hstep as [-> | ->]; nia.
      * replace (d + i * step + j)
          with (d + step + (i - 1) * step + j) by lia.
        rewrite Hin by lia.
        replace (d + step + (i - 1 + k) * step + j)
          with (d + (i + k) * step + j) by lia.
        apply Hout1. destruct Hstep as [-> | ->]; nia.
    + intros q Hq. rewrite Hout.
      * apply Hout1. specialize (Hq 0). lia.
      * intros i Hi. specialize (Hq (i + 1)). lia.
Qed.

(** Changing the image of an open session keeps the session open. *)
Lemma session_ok_set_screen_image s image' :
  session_ok s ->
  Z.of_nat (length image') = 2 * total_rows s * total_columns s ->
  session_ok (set_screen_image (Some image') s).
Proof.
  intros (Hgeo & _) Hlen. split; [exact Hgeo|].
  exists image'. split; [reflexivity|exact Hlen].
Qed.

(** Scrolling up by [0 < k < h]: the rows [r .. r + h - k - 1] receive the
    rows [k] below them, the last [k] rows of the region are blank. *)
Lemma scroll_up_spec s r c w h k attribute :
  session_ok s ->
  region_ok (total_rows s) (total_columns s) r c w h ->
  0 < k < h ->
  exists image',
    scroll UP r c w h k attribute s = Some (set_screen_image (Some image') s) /\
    Z.of_nat (length image') = 2 * total_rows s * total_columns s /\
    (forall row column, r <= row < r + h - k -> c <= column < c + w ->
       cell_at (Some image') (total_columns s) row column
       = cell_at (screen_image s) (total_columns s) (row + k) column) /\
    (forall row column, r + h - k <= row < r + h -> c <= column < c + w ->
       cell_at (Some image') (total_columns s) row column
       = Some (32, to_char (convert_attribute (color_works s) attribute))) /\
    (forall row column,
       1 <= column <= total_columns s ->
       ~ (r <= row < r + h /\ c <= column < c + w) ->
       cell_at (Some image') (total_columns s) row column
       = cell_at (screen_image s) (total_columns s) row column).
Proof.
  intros Hs Hreg Hk. assert (Hs' := Hs).
  destruct Hs' as (Hgeo & image & Himage & Hsize).
  pose proof (geometry_bounds _ _ Hgeo) as (Hrows & Hcols & Hstride).
  pose proof (stride_small _ _ Hgeo) as Es.
  assert (Hreg' := Hreg). destruct Hreg' as (Hr & Hc & Hw & Hh & Hrh & Hcw).
  assert (Int.mul 2 w = 2 * w) as Ew
    by (apply IntFacts.mul_small; int_range; lia).
  destruct (scroll_rows_spec (2 * total_columns s) w k (2 * total_columns s)
              (Z.to_nat (h - k)))
    with (destination := cell_index (total_columns s) r c) (image := image)
    as (image1 & Hrun & Hlen1 & Hin1 & Hout1); try lia.
  { intros a Ha. rewrite Ew, Hsize.
    pose proof (region_row_in_image _ _ Hgeo r c w h a Hreg). lia. }
  rewrite Ew in Hin1, Hout1.
  set (s1 := set_screen_image (Some image1) s).
  assert (session_ok s1) as Hs1
    by (apply session_ok_set_screen_image; [exact Hs|lia]).
  destruct (clear_spec s1 (r + h - k) c w k
              (convert_attribute (color_works s) attribute) Hs1)
    as (image' & Hclear & Hlen & Hblank & Hkeep).
  { unfold region_ok. cbn [s1 total_rows total_columns set_screen_image]. lia. }
  cbn [s1 total_rows total_columns color_works screen_image set_screen_image]
    in Hlen, Hblank, Hkeep.
  rewrite convert_attribute_idempotent in Hblank.
  exists image'. split.
  { unfold scroll. replace (k <=? 0) with false by lia.
    rewrite adjust_dimensions_id by (lia || exact Hreg).
    replace (k >=? h) with false by lia.
    rewrite Himage, (cell_offset_small _ _ Hgeo) by lia.
    rewrite (row_offset_small _ _ Hgeo) by lia.
    rewrite (IntFacts.sub_small h k) by (int_range; lia).
    rewrite (IntFacts.add_small r (h - k)) by (int_range; lia).
    rewrite Es, Hrun.
    replace (r + (h - k)) with (r + h - k) by lia.
    exact Hclear. }
  split; [exact Hlen|]. split; [|split].
  - intros row column Hrow Hcol.
    rewrite Hkeep by lia. rewrite Himage.
    apply cell_at_same.
    + replace (cell_index (total_columns s) row column)
        with (cell_index (total_columns s) r c
              + (row - r) * (2 * total_columns s) + 2 * (column - c))
        by (unfold cell_index; lia).
      rewrite Hin1 by lia. f_equal. unfold cell_index. lia.
    + replace (cell_index (total_columns s) row column + 1)
        with (cell_index (total_columns s) r c
              + (row - r) * (2 * total_columns s) + (2 * (column - c) + 1))
        by (unfold cell_index; lia).
      rewrite Hin1 by lia. f_equal. unfold cell_index. lia.
  - intros row column Hrow Hcol. apply Hblank; lia.
  - intros row column Hcol Hnot.
    rewrite Hkeep by lia. rewrite Himage.
    apply cell_at_same; apply Hout1; intros i Hi Hin'; apply Hnot.
    + destruct (cell_in_region_rows _ _ Hgeo r c w h row column 0 i)
        as [? ?]; auto; lia.
    + destruct (cell_in_region_rows _ _ Hgeo r c w h row column 1 i)
        as [? ?]; auto; lia.
Qed.

(** Scrolling down by [0 < k < h]: the rows [r + k .. r + h - 1] receive the
    rows [k] above them, the first [k] rows of the region are blank. *)
Lemma scroll_down_spec s r c w h k attribute :
  session_ok s ->
  region_ok (total_rows s) (total_columns s) r c w h ->
  0 < k < h ->
  exists image',
    scroll DOWN r c w h k attribute s
      = Some (set_screen_image (Some image') s) /\
    Z.of_nat (length image') = 2 * total_rows s * total_columns s /\
    (forall row column, r + k <= row < r + h -> c <= column < c + w ->
       cell_at (Some image') (total_columns s) row column
       = cell_at (screen_image s) (total_columns s) (row - k) column) /\
    (forall row column, r <= row < r + k -> c <= column < c + w ->
       cell_at (Some image') (total_columns s) row column
       = Some (32, to_char (convert_attribute (color_works s) attribute))) /\
    (forall row column,
       1 <= column <= total_columns s ->
       ~ (r <= row < r + h /\ c <= column < c + w) ->
       cell_at (Some image') (total_columns s) row column
       = cell_at (screen_image s) (total_columns s) row column).
Proof.
  intros Hs Hreg Hk. assert (Hs' := Hs).
  destruct Hs' as (Hgeo & image & Himage & Hsize).
  pose proof (geometry_bounds _ _ Hgeo) as (Hrows & Hcols & Hstride).
  pose proof (stride_small _ _ Hgeo) as Es.
  assert (Hreg' := Hreg). destruct Hreg' as (Hr & Hc & Hw & Hh & Hrh & Hcw).
  assert (Int.mul 2 w = 2 * w) as Ew
    by (apply IntFacts.mul_small; int_range; lia).
  set (last := cell_index (total_columns s) (r + h - 1) c).
  assert (forall a, last + a * - (2 * total_columns s)
                    = cell_index (total_columns s) r c
                      + (h - 1 - a) * (2 * total_columns s)) as Elast
    by (intros a; unfold last, cell_index; lia).
  destruct (scroll_rows_spec (2 * total_columns s) w k
              (- (2 * total_columns s)) (Z.to_nat (h - k)))
    with (destination := last) (image := image)
    as (image1 & Hrun & Hlen1 & Hin1 & Hout1); try lia.
  { intros a Ha. rewrite Ew, Hsize, Elast.
    pose proof (region_row_in_image _ _ Hgeo r c w h (h - 1 - a) Hreg). lia. }
  rewrite Ew in Hin1, Hout1.
  set (s1 := set_screen_image (Some image1) s).
  assert (session_ok s1) as Hs1
    by (apply session_ok_set_screen_image; [exact Hs|lia]).
  destruct (clear_spec s1 r c w k
              (convert_attribute (color_works s) attribute) Hs1)
    as (image' & Hclear & Hlen & Hblank & Hkeep).
  { unfold region_ok. cbn [s1 total_rows total_columns set_screen_image]. lia. }
  cbn [s1 total_rows total_columns color_works screen_image set_screen_image]
    in Hlen, Hblank, Hkeep.
  rewrite convert_attribute_idempotent in Hblank.
  exists image'. split.
  { unfold scroll. replace (k <=? 0) with false by lia.
    rewrite adjust_dimensions_id by (lia || exact Hreg).
    replace (k >=? h) with false by lia.
    rewrite Himage.
    rewrite (IntFacts.sub_small r 1) by (int_range; lia).
    rewrite (IntFacts.sub_add_small (r - 1) h 1) by (int_range; lia).
    rewrite (row_offset_small _ _ Hgeo (r - 1 + h - 1)) by lia.
    rewrite (row_offset_small _ _ Hgeo k) by lia.
    rewrite (IntFacts.sub_small c 1) by (int_range; lia).
    rewrite (IntFacts.mul_small (c - 1) 2) by (int_range; lia).
    rewrite (IntFacts.sub_small h k) by (int_range; lia).
    rewrite Es.
    replace ((r - 1 + h - 1) * (2 * total_columns s) + (c - 1) * 2)
      with last by (unfold last, cell_index; lia).
    replace (last - k * (2 * total_columns s))
      with (last + k * - (2 * total_columns s)) by lia.
    rewrite Hrun. exact Hclear. }
  split; [exact Hlen|]. split; [|split].
  - intros row column Hrow Hcol.
    rewrite Hkeep by lia. rewrite Himage.
    apply cell_at_same.
    + replace (cell_index (total_columns s) row column)
        with (last + (r + h - 1 - row) * - (2 * total_columns s)
              + 2 * (column - c))
        by (unfold last, cell_index; lia).
      rewrite Hin1 by lia. f_equal. unfold last, cell_index. lia.
    + replace (cell_index (total_columns s) row column + 1)
        with (last + (r + h - 1 - row) * - (2 * total_columns s)
              + (2 * (column - c) + 1))
        by (unfold last, cell_index; lia).
      rewrite Hin1 by lia. f_equal. unfold last, cell_index. lia.
  - intros row column Hrow Hcol. apply Hblank; lia.
  - intros row column Hcol Hnot.
    rewrite Hkeep by lia. rewrite Himage.
    apply cell_at_same; apply Hout1; intros i Hi Hin'; apply Hnot;
      rewrite Elast in Hin'.
    + destruct (cell_in_region_rows _ _ Hgeo r c w h row column 0 (h - 1 - i))
        as [? ?]; auto; lia.
    + destruct (cell_in_region_rows _ _ Hgeo r c w h row column 1 (h - 1 - i))
        as [? ?]; auto; lia.
Qed.

(** C2. For every region inside the screen, of height [h], every attribute,
    both directions and every [int] [k]: [scroll] by [k <= 0] changes
    nothing; by [k >= h] it is the [clear] of the region with the same
    attribute; by [0 < k < h] the [h - k] surviving rows move [k] rows
    towards the direction of the scroll, in the same order and with the same
    characters and attributes, the [k] rows at the trailing edge (the bottom
    of the region scrolling up, its top scrolling down) hold spaces in the
    converted attribute, and the cells outside the region are unchanged. *)
Theorem scroll_semantics (s : scr) (direction : direction_t)
    (r c w h k attribute : Z) :
  session_ok s ->
  region_ok (total_rows s) (total_columns s) r c w h ->
  (k <= 0 -> scroll direction r c w h k attribute s = Some s) /\
  (h <= k ->
   scroll direction r c w h k attribute s = clear r c w h attribute s) /\
  (0 < k < h ->
   exists image',
     scroll direction r c w h k attribute s
       = Some (set_screen_image (Some image') s) /\
     Z.of_nat (length image') = 2 * total_rows s * total_columns s /\
     (forall row column, r <= row < r + h -> c <= column < c + w ->
        cell_at (Some image') (total_columns s) row column
        = match direction with
          | UP =>
              if row <? r + h - k
              then cell_at (screen_image s) (total_columns s) (row + k) column
              else Some (32, to_char
                               (convert_attribute (color_works s) attribute))
          | DOWN =>
              if r + k <=? row
              then cell_at (screen_image s) (total_columns s) (row - k) column
              else Some (32, to_char
                               (convert_attribute (color_works s) attribute))
          end) /\
     (forall row column,
        1 <= column <= total_columns s ->
        ~ (r <= row < r + h /\ c <= column < c + w) ->
        cell_at (Some image') (total_columns s) row column
        = cell_at (screen_image s) (total_columns s) row column)).
Proof.
  intros Hs Hreg. split; [|split].
  - intros Hk. unfold scroll. replace (k <=? 0) with true by lia. reflexivity.
  - intros Hk. destruct Hs as (Hgeo & _).
    pose proof (geometry_bounds _ _ Hgeo) as (Hrows & Hcols & _).
    assert (Hreg' := Hreg). destruct Hreg' as (_ & _ & _ & Hh & _).
    unfold scroll. replace (k <=? 0) with false by lia.
    rewrite adjust_dimensions_id by (lia || exact Hreg).
    replace (k >=? h) with true by lia.
    unfold clear. rewrite convert_attribute_idempotent. reflexivity.
  - intros Hk. destruct direction.
    + destruct (scroll_up_spec s r c w h k attribute Hs Hreg Hk)
        as (image' & Hrun & Hlen & Hmove & Hblank & Hkeep).
      exists image'. repeat split; auto.
      intros row column Hrow Hcol.
      destruct (row <? r + h - k) eqn:E.
      * apply Hmove; lia.
      * apply Hblank; lia.
    + destruct (scroll_down_spec s r c w h k attribute Hs Hreg Hk)
        as (image' & Hrun & Hlen & Hmove & Hblank & Hkeep).
      exists image'. repeat split; auto.
      intros row column Hrow Hcol.
      destruct (r + k <=? row) eqn:E.
      * apply Hmove; lia.
      * apply Hblank; lia.
Qed.

(** ** [print] and [print_text] *)

Lemma c_string_app_zero l r : c_string (l ++ 0 :: r) = c_string l.
Proof.
  induction l as [|ch l IH]; simpl; [reflexivity|].
  destruct (ch =? 0); [reflexivity|]. f_equal. exact IH.
Qed.

Lemma c_string_length l : (length (c_string l) <= length l)%nat.
Proof.
  induction l as [|ch l IH]; simpl; [lia|].
  destruct (ch =? 0); simpl; lia.
Qed.

(** The text in [work_buffer] after [vsnprintf]: the expansion cut to
    [maximum_print_size] characters, up to its first terminator. *)
Lemma c_string_vsnprintf work_buffer formatted :
  c_string (vsnprintf work_buffer (maximum_print_size + 1) formatted)
  = c_string (take 1024 formatted) /\
  In 0 (vsnprintf work_buffer (maximum_print_size + 1) formatted).
Proof.
  unfold vsnprintf, maximum_print_size.
  change (Z.to_nat (1024 + 1 - 1)) with 1024%nat.
  rewrite <- app_assoc. simpl. split.
  - apply c_string_app_zero.
  - apply in_or_app. right. left. reflexivity.
Qed.

Lemma c_string_truncated formatted :
  (length (c_string (take 1024 formatted)) <= 1024)%nat.
Proof.
  pose proof (c_string_length (take 1024 formatted)) as H.
  rewrite length_take in H. lia.
Qed.

(** Whatever the width, the loops of [print] and [print_text] store cells for
    a prefix of the text, one iteration per character. *)
Lemma print_loops_write attribute string :
  In 0 string ->
  forall width screen_pointer,
  exists text,
    text `prefix_of` c_string string /\
    (forall image,
       print_loop string width screen_pointer attribute image
       = write_cells text screen_pointer attribute image) /\
    (forall image,
       print_text_loop string width screen_pointer image
       = write_chars text screen_pointer image).
Proof.
  induction string as [|ch string IH]; intros Hz width sp; [destruct Hz|].
  simpl. destruct (ch =? 0) eqn:E.
  - exists []. split; [apply prefix_nil|split; reflexivity].
  - destruct (width =? 0).
    + exists []. split; [apply prefix_nil|split; reflexivity].
    + destruct (IH ltac:(destruct Hz as [->|?]; [discriminate|assumption])
                  (Int.sub width 1) (sp + 2)) as (text & Hpre & Hrun & Hrun').
      exists (ch :: text). split; [apply prefix_cons, Hpre|]. split.
      * intros image. simpl.
        destruct (store image sp ch) as [image1|]; [|reflexivity].
        destruct (store image1 (sp + 1) (to_char attribute)) as [image2|];
          [|reflexivity].
        apply Hrun.
      * intros image. simpl.
        destruct (store image sp ch) as [image1|]; [|reflexivity].
        apply Hrun'.
Qed.

(** With a width in the range of [int], the prefix is the first [width]
    characters of the text. *)
Lemma print_loop_width attribute string :
  In 0 string ->
  forall width screen_pointer image,
  0 <= width <= Int.int_max ->
  print_loop string width screen_pointer attribute image
  = write_cells (take (Z.to_nat width) (c_string string)) screen_pointer
      attribute image.
Proof.
  induction string as [|ch string IH]; intros Hz width sp image Hw;
    [destruct Hz|].
  simpl. destruct (ch =? 0) eqn:E.
  - rewrite take_nil. reflexivity.
  - destruct (width =? 0) eqn:E0.
    + apply Z.eqb_eq in E0. subst width. reflexivity.
    + apply Z.eqb_neq in E0.
      replace (Z.to_nat width) with (S (Z.to_nat (width - 1))) by lia.
      simpl.
      destruct (store image sp ch) as [image1|]; [|reflexivity].
      destruct (store image1 (sp + 1) (to_char attribute)) as [image2|];
        [|reflexivity].
      rewrite IntFacts.sub_small by (int_range; lia).
      apply IH; [|lia].
      destruct Hz as [->|?]; [discriminate|assumption].
Qed.

(** The stores of [write_cells] touch the bytes of the cells and no other. *)
Lemma write_cells_frame attribute text :
  forall p image image',
  write_cells text p attribute image = Some image' ->
  length image' = length image /\
  forall q, ~ (p <= q < p + 2 * Z.of_nat (length text)) ->
            load image' q = load image q.
Proof.
  induction text as [|ch text IH]; intros p image image' H.
  - injection H as <-. auto.
  - simpl in H.
    destruct (store image p ch) as [image1|] eqn:S1; [|discriminate].
    destruct (store image1 (p + 1) (to_char attribute)) as [image2|] eqn:S2;
      [|discriminate].
    apply IH in H as [Hlen Hout].
    pose proof (store_length _ _ _ _ S1). pose proof (store_length _ _ _ _ S2).
    split; [congruence|].
    intros q Hq. simpl length in Hq. rewrite Hout by lia.
    rewrite (load_store_ne _ _ _ _ q S2) by lia.
    apply (load_store_ne _ _ _ _ q S1). lia.
Qed.

Lemma write_chars_frame text :
  forall p image image',
  write_chars text p image = Some image' ->
  length image' = length image /\
  forall q, ~ (p <= q < p + 2 * Z.of_nat (length text)) ->
            load image' q = load image q.
Proof.
  induction text as [|ch text IH]; intros p image image' H.
  - injection H as <-. auto.
  - simpl in H.
    destruct (store image p ch) as [image1|] eqn:S1; [|discriminate].
    apply IH in H as [Hlen Hout].
    pose proof (store_length _ _ _ _ S1).
    split; [congruence|].
    intros q Hq. simpl length in Hq. rewrite Hout by lia.
    apply (load_store_ne _ _ _ _ q S1). lia.
Qed.

(** Inside the image the stores succeed and the cells hold the text. *)
Lemma write_cells_spec attribute text :
  forall p image,
  0 <= p -> p + 2 * Z.of_nat (length text) <= Z.of_nat (length image) ->
  exists image',
    write_cells text p attribute image = Some image' /\
    forall j ch, text !! j = Some ch ->
      load image' (p + 2 * Z.of_nat j) = Some ch /\
      load image' (p + 2 * Z.of_nat j + 1) = Some (to_char attribute).
Proof.
  induction text as [|ch text IH]; intros p image Hp Hlen.
  - exists image. split; [reflexivity|]. intros j c Hj. discriminate.
  - simpl length in Hlen. simpl.
    destruct (store image p ch) as [image1|] eqn:S1;
      [|rewrite store_in_bounds in S1 by lia; discriminate].
    pose proof (store_length _ _ _ _ S1) as L1.
    destruct (store image1 (p + 1) (to_char attribute)) as [image2|] eqn:S2;
      [|rewrite store_in_bounds in S2 by lia; discriminate].
    pose proof (store_length _ _ _ _ S2) as L2.
    destruct (IH (p + 2) image2) as (image' & Hrun & Hin); try lia.
    exists image'. split; [exact Hrun|].
    intros [|j] c Hj.
    + injection Hj as <-.
      apply write_cells_frame in Hrun as [_ Hout].
      replace (p + 2 * Z.of_nat 0) with p by lia.
      rewrite !Hout by lia.
      rewrite (load_store_eq _ _ _ _ S2).
      rewrite (load_store_ne _ _ _ _ p S2) by lia.
      rewrite (load_store_eq _ _ _ _ S1). auto.
    + replace (p + 2 * Z.of_nat (S j)) with (p + 2 + 2 * Z.of_nat j) by lia.
      apply Hin. exact Hj.
Qed.

(** The clamping [print] asks for, when the sum of the count with the
    clamped column stays in the range of [int]: the row and the column are
    clamped, a count of zero becomes a width of one, and the width is cut at
    the right edge. *)
Lemma adjust_dimensions_print rows columns row column count :
  geometry_ok rows columns ->
  0 <= count ->
  clamp 1 columns column + Z.max count 1 - 1 <= Int.int_max ->
  adjust_dimensions rows columns row column (Int.wrap count) 1
  = (clamp 1 rows row, clamp 1 columns column,
     Z.min (Z.max count 1) (columns - clamp 1 columns column + 1), 1).
Proof.
  intros Hgeo Hcount Hsum.
  pose proof (geometry_bounds _ _ Hgeo) as (Hrows & Hcols & _).
  unfold adjust_dimensions, clamp in *.
  set (r1 := if row <? 1 then 1 else row).
  set (r2 := if r1 >? rows then rows else r1).
  set (c1 := if column <? 1 then 1 else column) in *.
  set (c2 := if c1 >? columns then columns else c1) in *.
  assert (1 <= r2 <= rows) by (subst r2 r1; repeat case_match; lia).
  assert (1 <= c2 <= columns) by (subst c2 c1; repeat case_match; lia).
  clearbody r2 c2. clear r1 c1.
  rewrite (IntFacts.wrap_small count) by (int_range; lia).
  replace (1 <=? 0) with false by reflexivity.
  set (w1 := if count <=? 0 then 1 else count).
  assert (w1 = Z.max count 1) as -> by (subst w1; case_match; lia).
  int_linear.
  replace (r2 + 1 - 1 >? rows) with false by lia.
  destruct (c2 + Z.max count 1 - 1 >? columns) eqn:E; do 2 f_equal; lia.
Qed.

(** C4 (amended). For every row and column, and every count whose sum with
    the clamped column stays in the range of [int], [print] writes the first
    [n] characters of the text, where the text is the expansion cut to 1024
    characters up to its first terminator and [n] is the smallest of its
    length, the count (a count of zero standing for one) and the number of
    columns from the clamped column to the right edge.  The cells written are
    in the clamped row from the clamped column on; cell [j] holds character
    [j] of the text and the low eight bits of the converted attribute; every
    other cell of the screen is unchanged. *)
Theorem print_spec (s : scr) (row column count attribute : Z)
    (formatted : list Z) :
  session_ok s ->
  0 <= count ->
  clamp 1 (total_columns s) column + Z.max count 1 - 1 <= Int.int_max ->
  let r' := clamp 1 (total_rows s) row in
  let c' := clamp 1 (total_columns s) column in
  let text :=
    take (Z.to_nat (Z.min (Z.max count 1) (total_columns s - c' + 1)))
         (c_string (take 1024 formatted)) in
  exists image',
    print row column count attribute formatted s
    = Some (set_screen_image (Some image')
              (set_work_buffer
                 (vsnprintf (work_buffer s) (maximum_print_size + 1)
                    formatted) s)) /\
    Z.of_nat (length image') = 2 * total_rows s * total_columns s /\
    Z.of_nat (length text) <= Z.max count 1 /\
    c' + Z.of_nat (length text) - 1 <= total_columns s /\
    (forall j ch, text !! j = Some ch ->
       cell_at (Some image') (total_columns s) r' (c' + Z.of_nat j)
       = Some (ch, to_char (convert_attribute (color_works s) attribute))) /\
    (forall row2 column2,
       1 <= column2 <= total_columns s ->
       ~ (row2 = r' /\ c' <= column2 < c' + Z.of_nat (length text)) ->
       cell_at (Some image') (total_columns s) row2 column2
       = cell_at (screen_image s) (total_columns s) row2 column2).
Proof.
  intros (Hgeo & image & Himage & Hsize) Hcount Hsum r' c' text.
  pose proof (geometry_bounds _ _ Hgeo) as (Hrows & Hcols & Hstride).
  assert (1 <= r' <= total_rows s) as Hr'
    by (subst r'; unfold clamp; repeat case_match; lia).
  assert (1 <= c' <= total_columns s) as Hc'
    by (subst c'; unfold clamp; repeat case_match; lia).
  set (w' := Z.min (Z.max count 1) (total_columns s - c' + 1)) in *.
  assert (1 <= w' <= total_columns s - c' + 1) as Hw' by lia.
  assert (Z.of_nat (length text) <= w') as Hlen
    by (subst text; rewrite length_take; lia).
  assert (region_ok (total_rows s) (total_columns s) r' c' w' 1) as Hreg
    by (unfold region_ok; lia).
  pose proof (region_row_in_image _ _ Hgeo r' c' w' 1 0 Hreg ltac:(lia))
    as (Hp0 & Hp1 & _).
  set (p := cell_index (total_columns s) r' c') in *.
  destruct (c_string_vsnprintf (work_buffer s) formatted) as [Ecs Hz].
  destruct (write_cells_spec (convert_attribute (color_works s) attribute)
              text p image) as (image' & Hrun & Hin); try lia.
  pose proof (write_cells_frame _ _ _ _ _ Hrun) as [Hlen' Hout].
  exists image'. split.
  { unfold print. rewrite (adjust_dimensions_print _ _ _ _ _ Hgeo Hcount Hsum).
    cbn [total_columns screen_image work_buffer set_work_buffer color_works].
    rewrite Himage, (cell_offset_small _ _ Hgeo) by lia.
    rewrite print_loop_width by (exact Hz || (fold c' w'; lia)).
    rewrite Ecs. fold c' w' text r' p. rewrite Hrun. reflexivity. }
  split; [lia|]. split; [lia|]. split; [lia|]. split.
  - intros j ch Hj. destruct (Hin j ch Hj) as [H1 H2].
    apply cell_at_loads.
    + rewrite <- H1. f_equal. unfold p, cell_index. lia.
    + rewrite <- H2. f_equal. unfold p, cell_index. lia.
  - intros row2 column2 Hcol Hnot. rewrite Himage.
    apply cell_at_same; apply Hout; intros Hq; apply Hnot.
    + destruct (cell_in_region_rows _ _ Hgeo r' c' w' 1 row2 column2 0 0)
        as [E ?]; auto; try (fold p; lia).
      split; [lia|]. subst row2. unfold p, cell_index in Hq. lia.
    + destruct (cell_in_region_rows _ _ Hgeo r' c' w' 1 row2 column2 1 0)
        as [E ?]; auto; try (fold p; lia).
      split; [lia|]. subst row2. unfold p, cell_index in Hq. lia.
Qed.

Lemma small_screen_ok : session_ok small_screen /\ shadow_ok small_screen.
Proof.
  split; [split|].
  - unfold geometry_ok. simpl. unfold Int.int_max. lia.
  - eexists. split; reflexivity.
  - eexists. split; reflexivity.
Qed.

Lemma print_spec_witness :
  exists image',
    print 2 2 10 0x17 [72; 101; 108; 108; 111] small_screen
    = Some (set_screen_image (Some image')
              (set_work_buffer
                 (vsnprintf (work_buffer small_screen)
                    (maximum_print_size + 1) [72; 101; 108; 108; 111])
                 small_screen)) /\
    cell_at (Some image') 4 2 4 = Some (108, 0x17) /\
    cell_at (Some image') 4 3 1 = Some (32, 7).
Proof.
  destruct (print_spec small_screen 2 2 10 0x17 [72; 101; 108; 108; 111])
    as (image' & Hrun & _ & _ & _ & Hin & Hout).
  - split.
    + unfold geometry_ok. simpl. unfold Int.int_max. lia.
    + eexists. split; reflexivity.
  - lia.
  - vm_compute. discriminate.
  - exists image'. split; [exact Hrun|]. split.
    + apply (Hin 2%nat 108). reflexivity.
    + transitivity
        (cell_at (screen_image small_screen) (total_columns small_screen) 3 1);
        [apply Hout|reflexivity].
      * simpl. lia.
      * vm_compute. intros [E _]. discriminate E.
Defined.

(** C4 (counterexample). With a count of zero [print] writes one cell:
    [adjust_dimensions] turns the width 0 into 1. *)
Lemma print_zero_count_writes : ~ print_as_claimed small_screen 1 1 0 0x17 [65; 66].
Proof.
  unfold print_as_claimed. intros H.
  destruct (print 1 1 0 0x17 [65; 66] small_screen) as [s'|] eqn:E;
    [|vm_compute in E; discriminate E].
  destruct (H s' eq_refl) as [Hcount _].
  vm_compute in E. injection E as <-.
  vm_compute in Hcount. apply Hcount. reflexivity.
Qed.

(** A row outside the screen is clamped: the text goes to row 1, not to the
    row 0 that was asked for. *)
Lemma print_row_is_clamped : ~ print_as_claimed small_screen 0 1 5 0x17 [65; 66].
Proof.
  unfold print_as_claimed. intros H.
  destruct (print 0 1 5 0x17 [65; 66] small_screen) as [s'|] eqn:E;
    [|vm_compute in E; discriminate E].
  destruct (H s' eq_refl) as [_ Hrow].
  vm_compute in E. injection E as <-.
  specialize (Hrow (1, 1)). vm_compute in Hrow.
  assert (1 = 0) as F by (apply Hrow; left; reflexivity). discriminate F.
Qed.

(** With a count of [INT_MAX] from column 2 the sum [c + w - 1] wraps
    around, the width is not cut at the right edge and the text runs on into
    the next row. *)
Lemma print_count_overflow :
  ~ print_as_claimed small_screen 2 2 2147483647 0x17 [65; 66; 67; 68; 69].
Proof.
  unfold print_as_claimed. intros H.
  destruct (print 2 2 2147483647 0x17 [65; 66; 67; 68; 69] small_screen)
    as [s'|] eqn:E; [|vm_compute in E; discriminate E].
  destruct (H s' eq_refl) as [_ Hrow].
  vm_compute in E. injection E as <-.
  specialize (Hrow (3, 1)). vm_compute in Hrow.
  assert (3 = 2) as F by (apply Hrow; right; right; right; left; reflexivity).
  discriminate F.
Qed.

(** ** The mutations keep the size of the image *)

Lemma memcpy_length dst dp src sp n dst' :
  memcpy dst dp src sp n = Some dst' -> length dst' = length dst.
Proof.
  unfold memcpy. destruct (load_bytes src sp n) as [bs|]; [|discriminate].
  intros H. apply store_bytes_Some in H as (_ & _ & H & _). exact H.
Qed.

Lemma memcpy_within_length m dp sp n m' :
  memcpy_within m dp sp n = Some m' -> length m' = length m.
Proof.
  unfold memcpy_within. case_match; [discriminate|]. apply memcpy_length.
Qed.

Lemma write_rows_length columns n row_length buffer :
  forall sp bp image image',
  write_rows columns n row_length sp bp buffer image = Some image' ->
  length image' = length image.
Proof.
  induction n as [|n IH]; simpl; intros sp bp image image' H.
  - congruence.
  - destruct (memcpy image sp buffer bp row_length) as [image1|] eqn:E;
      [|discriminate].
    apply IH in H. apply memcpy_length in E. congruence.
Qed.

Lemma write_text_cols_length buffer n :
  forall d bp image image' bp',
  write_text_cols n d bp buffer image = Some (image', bp') ->
  length image' = length image.
Proof.
  induction n as [|n IH]; simpl; intros d bp image image' bp' H.
  - congruence.
  - destruct (load buffer bp) as [ch|]; [|discriminate].
    destruct (store image d ch) as [image1|] eqn:E; [|discriminate].
    apply IH in H. apply store_length in E. congruence.
Qed.

Lemma write_text_rows_length columns width buffer n :
  forall sp bp image image',
  write_text_rows columns n width sp bp buffer image = Some image' ->
  length image' = length image.
Proof.
  induction n as [|n IH]; simpl; intros sp bp image image' H.
  - congruence.
  - destruct (write_text_cols (Z.to_nat width) sp bp buffer image)
      as [[image1 bp1]|] eqn:E; [|discriminate].
    apply IH in H. apply write_text_cols_length in E. congruence.
Qed.

Lemma print_loop_length attribute string :
  forall width sp image image',
  print_loop string width sp attribute image = Some image' ->
  length image' = length image.
Proof.
  induction string as [|ch string IH]; simpl; intros width sp image image' H;
    [discriminate|].
  destruct (ch =? 0); [congruence|]. destruct (width =? 0); [congruence|].
  destruct (store image sp ch) as [image1|] eqn:E1; [|discriminate].
  destruct (store image1 (sp + 1) (to_char attribute)) as [image2|] eqn:E2;
    [|discriminate].
  apply IH in H. apply store_length in E1, E2. congruence.
Qed.

Lemma print_text_loop_length string :
  forall width sp image image',
  print_text_loop string width sp image = Some image' ->
  length image' = length image.
Proof.
  induction string as [|ch string IH]; simpl; intros width sp image image' H;
    [discriminate|].
  destruct (ch =? 0); [congruence|]. destruct (width =? 0); [congruence|].
  destruct (store image sp ch) as [image1|] eqn:E1; [|discriminate].
  apply IH in H. apply store_length in E1. congruence.
Qed.

Lemma clear_cols_length attribute n :
  forall d image image',
  clear_cols n d attribute image = Some image' ->
  length image' = length image.
Proof.
  induction n as [|n IH]; simpl; intros d image image' H.
  - congruence.
  - destruct (store image d 32) as [image1|] eqn:E1; [|discriminate].
    destruct (store image1 (d + 1) (to_char attribute)) as [image2|] eqn:E2;
      [|discriminate].
    apply IH in H. apply store_length in E1, E2. congruence.
Qed.

Lemma clear_rows_length columns width attribute n :
  forall sp image image',
  clear_rows columns n width sp attribute image = Some image' ->
  length image' = length image.
Proof.
  induction n as [|n IH]; simpl; intros sp image image' H.
  - congruence.
  - destruct (clear_cols (Z.to_nat width) sp attribute image)
      as [image1|] eqn:E; [|discriminate].
    apply IH in H. apply clear_cols_length in E. congruence.
Qed.

Lemma set_color_cols_length attribute n :
  forall d image image',
  set_color_cols n d attribute image = Some image' ->
  length image' = length image.
Proof.
  induction n as [|n IH]; simpl; intros d image image' H.
  - congruence.
  - destruct (store image (d + 1) (to_char attribute)) as [image1|] eqn:E;
      [|discriminate].
    apply IH in H. apply store_length in E. congruence.
Qed.

Lemma set_color_rows_length columns width attribute n :
  forall sp image image',
  set_color_rows columns n width sp attribute image = Some image' ->
  length image' = length image.
Proof.
  induction n as [|n IH]; simpl; intros sp image image' H.
  - congruence.
  - destruct (set_color_cols (Z.to_nat width) sp attribute image)
      as [image1|] eqn:E; [|discriminate].
    apply IH in H. apply set_color_cols_length in E. congruence.
Qed.

Lemma scroll_rows_length width step n :
  forall d sp image image',
  scroll_rows n width d sp step image = Some image' ->
  length image' = length image.
Proof.
  induction n as [|n IH]; simpl; intros d sp image image' H.
  - congruence.
  - destruct (memcpy_within image d sp (Int.mul 2 width)) as [image1|] eqn:E;
      [|discriminate].
    apply IH in H. apply memcpy_within_length in E. congruence.
Qed.

Lemma buffer_step_refl s : buffer_step s s.
Proof. repeat split. eauto. Qed.

Lemma buffer_step_trans s1 s2 s3 :
  buffer_step s1 s2 -> buffer_step s2 s3 -> buffer_step s1 s3.
Proof.
  intros (A1 & A2 & A3 & A4) (B1 & B2 & B3 & B4).
  repeat split; try congruence.
  intros image H. destruct (A4 _ H) as (image2 & H2 & L2).
  destruct (B4 _ H2) as (image3 & H3 & L3).
  exists image3. split; [exact H3|congruence].
Qed.

(** Replacing the image by one of the same size is a buffer step. *)
Lemma buffer_step_image s image image' :
  screen_image s = Some image -> length image' = length image ->
  buffer_step s (set_screen_image (Some image') s).
Proof.
  intros H L. repeat split. intros image0 H0.
  exists image'. split; [reflexivity|congruence].
Qed.

Lemma buffer_step_work_buffer s b : buffer_step s (set_work_buffer b s).
Proof. repeat split. eauto. Qed.

(** Every call of the buffer interface that returns is a buffer step. *)
Ltac buffer_step_op :=
  match goal with
  | |- context [adjust_dimensions ?a ?b ?c ?d ?e ?f] =>
      destruct (adjust_dimensions a b c d e f) as [[[? ?] ?] ?]
  end;
  cbn [total_columns screen_image work_buffer set_work_buffer color_works];
  match goal with
  | |- context [screen_image ?s] =>
      destruct (screen_image s) as [?image|] eqn:?Himage; [|discriminate]
  end.

Lemma write_step r c w h buffer s s' :
  write r c w h buffer s = Some s' -> buffer_step s s'.
Proof.
  unfold write. buffer_step_op.
  case_match eqn:E; [|discriminate]. intros [= <-].
  apply write_rows_length in E. eapply buffer_step_image; eauto.
Qed.

Lemma write_text_step r c w h buffer s s' :
  write_text r c w h buffer s = Some s' -> buffer_step s s'.
Proof.
  unfold write_text. buffer_step_op.
  case_match eqn:E; [|discriminate]. intros [= <-].
  apply write_text_rows_length in E. eapply buffer_step_image; eauto.
Qed.

Lemma print_step r c count attribute formatted s s' :
  print r c count attribute formatted s = Some s' -> buffer_step s s'.
Proof.
  unfold print. buffer_step_op.
  case_match eqn:E; [|discriminate]. intros [= <-].
  apply print_loop_length in E.
  eapply buffer_step_trans; [apply buffer_step_work_buffer|].
  eapply buffer_step_image; eauto.
Qed.

Lemma print_text_step r c count formatted s s' :
  print_text r c count formatted s = Some s' -> buffer_step s s'.
Proof.
  unfold print_text. buffer_step_op.
  case_match eqn:E; [|discriminate]. intros [= <-].
  apply print_text_loop_length in E.
  eapply buffer_step_trans; [apply buffer_step_work_buffer|].
  eapply buffer_step_image; eauto.
Qed.

Lemma clear_step r c w h attribute s s' :
  clear r c w h attribute s = Some s' -> buffer_step s s'.
Proof.
  unfold clear. buffer_step_op.
  case_match eqn:E; [|discriminate]. intros [= <-].
  apply clear_rows_length in E. eapply buffer_step_image; eauto.
Qed.

Lemma set_color_step r c w h attribute s s' :
  set_color r c w h attribute s = Some s' -> buffer_step s s'.
Proof.
  unfold set_color. buffer_step_op.
  case_match eqn:E; [|discriminate]. intros [= <-].
  apply set_color_rows_length in E. eapply buffer_step_image; eauto.
Qed.

Lemma scroll_step direction r c w h k attribute s s' :
  scroll direction r c w h k attribute s = Some s' -> buffer_step s s'.
Proof.
  unfold scroll. destruct (k <=? 0).
  { intros [= <-]. apply buffer_step_refl. }
  destruct (adjust_dimensions _ _ r c w h) as [[[r' c'] w'] h'].
  destruct (k >=? h'); [apply clear_step|].
  destruct direction;
    (destruct (screen_image s) as [image|] eqn:Himage; [|discriminate]);
    (case_match eqn:E; [|discriminate]);
    intros H; apply clear_step in H; apply scroll_rows_length in E;
    (eapply buffer_step_trans; [|exact H]);
    eapply buffer_step_image; eauto.
Qed.

Lemma mutate_step m s s' : mutate m s = Some s' -> buffer_step s s'.
Proof.
  destruct m; simpl.
  - apply write_step.
  - apply write_text_step.
  - apply print_step.
  - apply print_text_step.
  - apply clear_step.
  - apply set_color_step.
  - apply scroll_step.
Qed.

Lemma mutate_all_step ms :
  forall s s', mutate_all ms s = Some s' -> buffer_step s s'.
Proof.
  induction ms as [|m ms IH]; simpl; intros s s' H.
  - injection H as <-. apply buffer_step_refl.
  - destruct (mutate m s) as [s1|] eqn:E; [|discriminate].
    eapply buffer_step_trans; [apply (mutate_step _ _ _ E)|apply IH, H].
Qed.

Lemma buffer_step_ok s s' :
  buffer_step s s' -> session_ok s -> shadow_ok s ->
  session_ok s' /\ shadow_ok s'.
Proof.
  intros (E1 & E2 & E3 & E4) (Hgeo & image & Himage & Hsize) Hsh.
  destruct (E4 _ Himage) as (image' & Himage' & Hlen).
  unfold session_ok, shadow_ok. rewrite E1, E2, E3.
  split; [split; [exact Hgeo|]|exact Hsh].
  exists image'. split; [exact Himage'|lia].
Qed.

(** ** Diff-based [refresh] *)

(** One cell of the scan: whether the cell is skipped or written, the
    physical image agrees with the virtual one on it afterwards. *)
Lemma refresh_cell_sync pf s0 s row column :
  session_ok s0 ->
  1 <= row <= total_rows s0 -> 1 <= column <= total_columns s0 ->
  refresh_inv s0 s (cell_index (total_columns s0) row column) ->
  exists s',
    refresh_cell pf row column s = Some s' /\
    refresh_inv s0 s' (cell_index (total_columns s0) row column + 2).
Proof.
  intros (Hgeo & image0 & Himage0 & Hsize) Hrow Hcol
         (Er & Ec & Ei & Evr & Evc & image & physical & Himage & Hphys & Hlen
          & Hsync).
  rewrite Himage0 in Himage. injection Himage as <-.
  pose proof (geometry_bounds _ _ Hgeo) as (Hrows & Hcols & Hstride).
  set (index := cell_index (total_columns s0) row column) in *.
  assert (0 <= index /\ index + 2 <= 2 * total_rows s0 * total_columns s0)
    as Hindex.
  { pose proof (region_row_in_image _ _ Hgeo row column 1 1 0) as H.
    unfold region_ok in H. fold index in H. lia. }
  assert (Int.add
            (Int.mul (Int.mul (Int.sub row 1) 2) (total_columns s))
            (Int.mul 2 (Int.sub column 1)) = index) as Eindex.
  { rewrite Ec.
    rewrite (IntFacts.sub_small row 1) by (int_range; lia).
    rewrite (IntFacts.sub_small column 1) by (int_range; lia).
    rewrite (row_offset_small _ _ Hgeo) by lia.
    rewrite (IntFacts.mul_small 2 (column - 1)) by (int_range; lia).
    rewrite IntFacts.add_small;
      [unfold index, cell_index; lia|].
    unfold index, cell_index in Hindex. destruct Hgeo as (_ & _ & ?).
    int_range. lia. }
  assert (Int.add index 1 = index + 1) as Eindex1.
  { apply IntFacts.add_small. destruct Hgeo as (_ & _ & ?). int_range. lia. }
  destruct (load_in_bounds image0 index) as [c Hc]; [lia|].
  destruct (load_in_bounds image0 (index + 1)) as [a Ha]; [lia|].
  destruct (load_in_bounds physical index) as [pc Hpc]; [lia|].
  destruct (load_in_bounds physical (index + 1)) as [pa Hpa]; [lia|].
  unfold refresh_cell. rewrite Eindex, Eindex1, Ei, Himage0, Hphys.
  rewrite Hc, Hpc, Ha, Hpa.
  destruct (c =? pc) eqn:Ecp; [destruct (a =? pa) eqn:Eap|].
  - (* the cell is already what we want *)
    apply Z.eqb_eq in Ecp, Eap. subst pc pa.
    exists s. split; [reflexivity|].
    repeat split; auto. exists image0, physical. repeat split; auto.
    intros q Hq.
    destruct (Z.eq_dec q index) as [->|?]; [congruence|].
    destruct (Z.eq_dec q (index + 1)) as [->|?]; [congruence|].
    apply Hsync. lia.
  - (* the attribute differs *)
    destruct (store physical index c) as [physical1|] eqn:S1;
      [|rewrite store_in_bounds in S1 by lia; discriminate].
    pose proof (store_length _ _ _ _ S1) as L1.
    destruct (store physical1 (index + 1) a) as [physical2|] eqn:S2;
      [|rewrite store_in_bounds in S2 by lia; discriminate].
    pose proof (store_length _ _ _ _ S2) as L2.
    eexists. split; [reflexivity|].
    split; [|split; [|split; [|split; [|split]]]];
      try (destruct (negb (row =? physical_row s)
                     || negb (column =? physical_column s)); assumption).
    exists image0, physical2. repeat split; auto; [congruence|].
    intros q Hq.
    destruct (Z.eq_dec q (index + 1)) as [->|?].
    { rewrite (load_store_eq _ _ _ _ S2). congruence. }
    rewrite (load_store_ne _ _ _ _ q S2) by assumption.
    destruct (Z.eq_dec q index) as [->|?].
    { rewrite (load_store_eq _ _ _ _ S1). congruence. }
    rewrite (load_store_ne _ _ _ _ q S1) by assumption.
    apply Hsync. lia.
  - (* the character differs *)
    destruct (store physical index c) as [physical1|] eqn:S1;
      [|rewrite store_in_bounds in S1 by lia; discriminate].
    pose proof (store_length _ _ _ _ S1) as L1.
    destruct (store physical1 (index + 1) a) as [physical2|] eqn:S2;
      [|rewrite store_in_bounds in S2 by lia; discriminate].
    pose proof (store_length _ _ _ _ S2) as L2.
    eexists. split; [reflexivity|].
    split; [|split; [|split; [|split; [|split]]]];
      try (destruct (negb (row =? physical_row s)
                     || negb (column =? physical_column s)); assumption).
    exists image0, physical2. repeat split; auto; [congruence|].
    intros q Hq.
    destruct (Z.eq_dec q (index + 1)) as [->|?].
    { rewrite (load_store_eq _ _ _ _ S2). congruence. }
    rewrite (load_store_ne _ _ _ _ q S2) by assumption.
    destruct (Z.eq_dec q index) as [->|?].
    { rewrite (load_store_eq _ _ _ _ S1). congruence. }
    rewrite (load_store_ne _ _ _ _ q S1) by assumption.
    apply Hsync. lia.
Qed.

(** The columns of one row. *)
Lemma refresh_columns_sync pf s0 row n :
  session_ok s0 -> 1 <= row <= total_rows s0 ->
  forall column s,
  1 <= column -> column + Z.of_nat n - 1 <= total_columns s0 ->
  refresh_inv s0 s (cell_index (total_columns s0) row column) ->
  exists s',
    refresh_columns pf n row column s = Some s' /\
    refresh_inv s0 s'
      (cell_index (total_columns s0) row (column + Z.of_nat n)).
Proof.
  intros Hs Hrow. induction n as [|n IH]; intros column s Hc Hn Hinv.
  - exists s. split; [reflexivity|].
    replace (column + Z.of_nat 0) with column by lia. exact Hinv.
  - cbn [refresh_columns].
    destruct (refresh_cell_sync pf s0 s row column Hs Hrow ltac:(lia) Hinv)
      as (s1 & -> & Hinv1).
    destruct Hs as (Hgeo & _).
    pose proof (geometry_bounds _ _ Hgeo) as (_ & Hcols & Hstride).
    rewrite IntFacts.add_small by (int_range; lia).
    destruct (IH (column + 1) s1) as (s' & -> & Hinv'); try lia.
    { replace (cell_index (total_columns s0) row (column + 1))
        with (cell_index (total_columns s0) row column + 2)
        by (unfold cell_index; lia).
      exact Hinv1. }
    exists s'. split; [reflexivity|].
    replace (column + Z.of_nat (S n)) with (column + 1 + Z.of_nat n) by lia.
    exact Hinv'.
Qed.

(** The rows of the screen. *)
Lemma refresh_rows_sync pf s0 n :
  session_ok s0 ->
  forall row s,
  1 <= row -> row + Z.of_nat n - 1 <= total_rows s0 ->
  refresh_inv s0 s (cell_index (total_columns s0) row 1) ->
  exists s',
    refresh_rows pf n row s = Some s' /\
    refresh_inv s0 s' (cell_index (total_columns s0) (row + Z.of_nat n) 1).
Proof.
  intros Hs. induction n as [|n IH]; intros row s Hr Hn Hinv.
  - exists s. split; [reflexivity|].
    replace (row + Z.of_nat 0) with row by lia. exact Hinv.
  - cbn [refresh_rows]. assert (Hinv0 := Hinv). destruct Hinv0 as (_ & Ec & _).
    assert (Hs0 := Hs). destruct Hs0 as (Hgeo & _).
    pose proof (geometry_bounds _ _ Hgeo) as (Hrows & Hcols & _).
    assert (2 * total_rows s0 <= Int.int_max) as Hrows2
      by (destruct Hgeo as (? & ? & ?); nia).
    rewrite Ec.
    destruct (refresh_columns_sync pf s0 row (Z.to_nat (total_columns s0))
                Hs ltac:(lia) 1 s) as (s1 & -> & Hinv1); try lia;
      [exact Hinv|].
    rewrite IntFacts.add_small by (int_range; lia).
    destruct (IH (row + 1) s1) as (s' & -> & Hinv'); try lia.
    { replace (cell_index (total_columns s0) (row + 1) 1)
        with (cell_index (total_columns s0) row
                (1 + Z.of_nat (Z.to_nat (total_columns s0))))
        by (unfold cell_index; lia).
      exact Hinv1. }
    exists s'. split; [reflexivity|].
    replace (row + Z.of_nat (S n)) with (row + 1 + Z.of_nat n) by lia.
    exact Hinv'.
Qed.

(** [refresh] on an open session: it returns, it leaves the virtual image
    alone and the physical image is the virtual image. *)
Lemma refresh_spec pf s :
  session_ok s -> shadow_ok s ->
  exists s',
    refresh pf s = Some s' /\
    screen_image s' = screen_image s /\
    physical_image s' = screen_image s /\
    physical_row s' = virtual_row s /\
    physical_column s' = virtual_column s.
Proof.
  intros Hs (physical & Hphys & Hpsize). assert (Hs0 := Hs).
  destruct Hs0 as (Hgeo & image & Himage & Hsize).
  pose proof (geometry_bounds _ _ Hgeo) as (Hrows & Hcols & _).
  destruct (refresh_rows_sync pf s (Z.to_nat (total_rows s)) Hs 1 s)
    as (s1 & Hrun & Er & Ec & Ei & Evr & Evc & image1 & physical1 & Himage1
        & Hphys1 & Hlen & Hsync); try lia.
  { repeat split. exists image, physical. repeat split; auto; [lia|].
    unfold cell_index. intros q Hq. lia. }
  rewrite Himage in Himage1. injection Himage1 as <-.
  unfold refresh. rewrite Hrun. eexists. split; [reflexivity|].
  cbn [screen_image physical_image physical_row physical_column emit
       virtual_row virtual_column set_physical_cursor].
  rewrite Ei, Hphys1, Himage.
  split; [reflexivity|]. split; [|split; [exact Evr|exact Evc]].
  f_equal. apply image_ext; [exact Hlen|].
  intros q Hq. apply Hsync. unfold cell_index. nia.
Qed.

(** C1. For every open session, that is every virtual image and physical
    image of the size of the screen, and every sequence of mutations of the
    buffer ([write], [write_text], [print], [print_text], [clear],
    [set_color], [scroll]) that returns, one [refresh] afterwards returns
    and leaves a physical image equal to the virtual image, cell for cell,
    character byte and attribute byte, the virtual image being the one the
    mutations produced. *)
Theorem refresh_synchronizes (pf : platform) (s s1 : scr)
    (ms : list mutation) :
  session_ok s -> shadow_ok s ->
  mutate_all ms s = Some s1 ->
  exists s2,
    refresh pf s1 = Some s2 /\
    screen_image s2 = screen_image s1 /\
    physical_image s2 = screen_image s1 /\
    forall row column,
      cell_at (physical_image s2) (total_columns s) row column
      = cell_at (screen_image s1) (total_columns s) row column.
Proof.
  intros Hs Hsh Hrun.
  apply mutate_all_step in Hrun.
  destruct (buffer_step_ok _ _ Hrun Hs Hsh) as [Hs1 Hsh1].
  destruct (refresh_spec pf s1 Hs1 Hsh1) as (s2 & Href & Ei & Ep & _).
  exists s2. repeat split; auto. intros row column. rewrite Ep. reflexivity.
Qed.

(** ** Life cycle *)

Lemma emit_all_app t1 t2 s : emit_all t2 (emit_all t1 s) = emit_all (t1 ++ t2) s.
Proof. unfold emit_all. rewrite foldl_app. reflexivity. Qed.

Lemma emit_all_fields t :
  forall s,
  total_rows (emit_all t s) = total_rows s /\
  total_columns (emit_all t s) = total_columns s /\
  screen_image (emit_all t s) = screen_image s /\
  physical_image (emit_all t s) = physical_image s /\
  initialize_counter (emit_all t s) = initialize_counter s /\
  virtual_row (emit_all t s) = virtual_row s /\
  virtual_column (emit_all t s) = virtual_column s /\
  trace (emit_all t s) = trace s ++ t.
Proof.
  induction t as [|e t IH]; intros s; simpl.
  - rewrite app_nil_r. repeat split.
  - destruct (IH (emit e s)) as (H1 & H2 & H3 & H4 & H5 & H6 & H7 & H8).
    rewrite H1, H2, H3, H4, H5, H6, H7, H8. simpl.
    rewrite <- app_assoc. repeat split.
Qed.

Lemma allocations_app a t1 t2 :
  allocations a (t1 ++ t2) = (allocations a t1 + allocations a t2)%nat.
Proof. unfold allocations. rewrite List.filter_app, length_app. reflexivity. Qed.

Lemma deallocations_app a t1 t2 :
  deallocations a (t1 ++ t2) = (deallocations a t1 + deallocations a t2)%nat.
Proof.
  unfold deallocations. rewrite List.filter_app, length_app. reflexivity.
Qed.

Lemma quiet_counts a t :
  quiet t -> allocations a t = 0%nat /\ deallocations a t = 0%nat.
Proof.
  unfold quiet, allocations, deallocations.
  induction t as [|e t IH]; simpl; [auto|].
  intros H. apply andb_prop in H as [He Ht]. destruct (IH Ht) as [IA ID].
  destruct e; simpl in *; try discriminate; auto.
Qed.

Lemma quiet_app t1 t2 : quiet t1 -> quiet t2 -> quiet (t1 ++ t2).
Proof. unfold quiet. rewrite forallb_app. intros -> ->. reflexivity. Qed.

(** The columns of a row of [redraw]: only calls to curses. *)
Lemma redraw_columns_spec pf image n :
  forall p s,
  screen_image s = Some image ->
  0 <= p -> p + 2 * Z.of_nat n <= Z.of_nat (length image) ->
  exists t,
    redraw_columns pf n p s = Some (p + 2 * Z.of_nat n, emit_all t s) /\
    quiet t.
Proof.
  induction n as [|n IH]; intros p s Himage Hp Hlen.
  - exists []. split; [|reflexivity]. simpl. do 2 f_equal. lia.
  - cbn [redraw_columns]. rewrite Himage.
    destruct (load_in_bounds image p) as [c ->]; [lia|].
    destruct (load_in_bounds image (p + 1)) as [a ->]; [lia|].
    destruct (IH (p + 2) (emit (addch (new_character pf s c a)) s))
      as (t & -> & Hq); try lia; [exact Himage|].
    exists (addch (new_character pf s c a) :: t). split; [|exact Hq].
    do 2 f_equal. lia.
Qed.

Lemma redraw_rows_spec pf image n :
  forall row s,
  geometry_ok (total_rows s) (total_columns s) ->
  screen_image s = Some image ->
  Z.of_nat (length image) = 2 * total_rows s * total_columns s ->
  1 <= row -> row + Z.of_nat n - 1 <= total_rows s ->
  exists t, redraw_rows pf n row s = Some (emit_all t s) /\ quiet t.
Proof.
  induction n as [|n IH]; intros row s Hgeo Himage Hsize Hrow Hn.
  - exists []. split; reflexivity.
  - cbn [redraw_rows].
    pose proof (geometry_bounds _ _ Hgeo) as (Hrows & Hcols & Hstride).
    assert (2 * total_rows s <= Int.int_max) as Hrows2
      by (destruct Hgeo as (? & ? & ?); nia).
    set (s1 := emit (move (Int.sub row 1) 0) s).
    change (total_columns s1) with (total_columns s).
    rewrite (IntFacts.sub_small row 1) by (int_range; lia).
    rewrite (row_offset_small _ _ Hgeo) by lia.
    destruct (redraw_columns_spec pf image (Z.to_nat (total_columns s))
                ((row - 1) * (2 * total_columns s)) s1)
      as (t1 & -> & Hq1); try (reflexivity || exact Himage || nia).
    rewrite IntFacts.add_small by (int_range; lia).
    destruct (IH (row + 1) (emit_all t1 s1)) as (t2 & -> & Hq2); try lia.
    { destruct (emit_all_fields t1 s1) as (-> & -> & _). exact Hgeo. }
    { destruct (emit_all_fields t1 s1) as (_ & _ & -> & _). exact Himage. }
    { destruct (emit_all_fields t1 s1) as (-> & -> & _). exact Hsize. }
    { destruct (emit_all_fields t1 s1) as (-> & _). simpl. lia. }
    exists (move (Int.sub row 1) 0 :: t1 ++ t2). split.
    + rewrite emit_all_app. reflexivity.
    + apply (quiet_app (_ :: t1) t2); assumption.
Qed.

(** [redraw] on an open session returns, after calls to curses only. *)
Lemma redraw_spec pf s :
  session_ok s ->
  exists t, redraw pf s = Some (emit_all t s) /\ quiet t.
Proof.
  intros (Hgeo & image & Himage & Hsize).
  pose proof (geometry_bounds _ _ Hgeo) as (Hrows & _).
  destruct (redraw_rows_spec pf image (Z.to_nat (total_rows s)) 1 s)
    as (t & Hrun & Hq); auto; try lia.
  unfold redraw. rewrite Hrun.
  set (s1 := emit_all t s).
  exists (t ++ [move (Int.sub (virtual_row s1) 1)
                     (Int.sub (virtual_column s1) 1); curses_refresh]).
  split.
  - rewrite <- emit_all_app. reflexivity.
  - apply quiet_app; [exact Hq|reflexivity].
Qed.

(** The clearing loop of [clear_screen] blanks both images the way the
    column loop of [clear] blanks a row. *)
Lemma clear_screen_loop_spec n :
  forall counter image physical,
  0 <= counter -> counter + 2 * Z.of_nat n <= Int.int_max ->
  counter + 2 * Z.of_nat n <= Z.of_nat (length image) ->
  counter + 2 * Z.of_nat n <= Z.of_nat (length physical) ->
  exists image' physical',
    clear_screen_loop n counter image physical = Some (image', physical') /\
    clear_cols n counter (Z.lor WHITE REV_BLACK) image = Some image' /\
    clear_cols n counter (Z.lor WHITE REV_BLACK) physical = Some physical'.
Proof.
  induction n as [|n IH]; intros counter image physical Hc Hmax Hi Hp.
  - exists image, physical. repeat split.
  - cbn [clear_screen_loop clear_cols].
    rewrite !IntFacts.add_small by (int_range; lia).
    rewrite (store_in_bounds image counter) by lia.
    set (image1 := <[Z.to_nat counter := 32]> image).
    assert (length image1 = length image) as L1 by apply length_insert.
    rewrite (store_in_bounds image1 (counter + 1)) by lia.
    set (image2 := <[Z.to_nat (counter + 1) := _]> image1).
    assert (length image2 = length image1) as L2 by apply length_insert.
    rewrite (store_in_bounds physical counter) by lia.
    set (physical1 := <[Z.to_nat counter := 32]> physical).
    assert (length physical1 = length physical) as L3 by apply length_insert.
    rewrite (store_in_bounds physical1 (counter + 1)) by lia.
    set (physical2 := <[Z.to_nat (counter + 1) := _]> physical1).
    assert (length physical2 = length physical1) as L4
      by apply length_insert.
    apply IH; lia.
Qed.

Lemma terminate_loop_spec n :
  forall counter image,
  0 <= counter -> counter + 2 * Z.of_nat n <= Int.int_max ->
  counter + 2 * Z.of_nat n <= Z.of_nat (length image) ->
  exists image',
    terminate_loop n counter image = Some image' /\
    clear_cols n counter (Z.lor WHITE REV_BLACK) image = Some image'.
Proof.
  induction n as [|n IH]; intros counter image Hc Hmax Hi.
  - exists image. repeat split.
  - cbn [terminate_loop clear_cols].
    rewrite !IntFacts.add_small by (int_range; lia).
    rewrite (store_in_bounds image counter) by lia.
    set (image1 := <[Z.to_nat counter := 32]> image).
    assert (length image1 = length image) as L1 by apply length_insert.
    rewrite (store_in_bounds image1 (counter + 1)) by lia.
    set (image2 := <[Z.to_nat (counter + 1) := _]> image1).
    assert (length image2 = length image1) as L2 by apply length_insert.
    apply IH; lia.
Qed.

(** The trip count of the clearing loops is the number of cells. *)
Lemma clearing_trip_count rows columns :
  geometry_ok rows columns ->
  Int.mul (Int.mul rows 2) columns = 2 * rows * columns /\
  2 * Z.of_nat (Z.to_nat ((2 * rows * columns + 1) / 2)) = 2 * rows * columns.
Proof.
  intros Hgeo. split; [apply image_size_small, Hgeo|].
  destruct Hgeo as (Hr & Hc & _).
  replace (2 * rows * columns + 1) with (1 + rows * columns * 2) by lia.
  rewrite Z.div_add by lia. change (1 / 2) with 0. nia.
Qed.

(** [clear_screen] on an open session: it returns, both images keep their
    size and every cell of both is a space in white on black. *)
Lemma clear_screen_spec s :
  session_ok s -> shadow_ok s ->
  exists s' image' physical' t,
    clear_screen s = Some s' /\
    total_rows s' = total_rows s /\
    total_columns s' = total_columns s /\
    initialize_counter s' = initialize_counter s /\
    screen_image s' = Some image' /\
    physical_image s' = Some physical' /\
    virtual_row s' = 1 /\ virtual_column s' = 1 /\
    trace s' = trace s ++ t /\ quiet t /\
    length image' = Z.to_nat (2 * total_rows s * total_columns s) /\
    length physical' = Z.to_nat (2 * total_rows s * total_columns s) /\
    forall j, 0 <= j < total_rows s * total_columns s ->
      load image' (2 * j) = Some 32 /\ load image' (2 * j + 1) = Some 7 /\
      load physical' (2 * j) = Some 32 /\ load physical' (2 * j + 1) = Some 7.
Proof.
  intros (Hgeo & image & Himage & Hsize) (physical & Hphys & Hpsize).
  destruct (clearing_trip_count _ _ Hgeo) as [Elimit Etrip].
  destruct Hgeo as (Hr & Hc & Hmax).
  destruct (clear_screen_loop_spec
              (Z.to_nat ((2 * total_rows s * total_columns s + 1) / 2))
              0 image physical)
    as (image' & physical' & Hrun & Hci & Hcp); try lia.
  destruct (clear_cols_spec (Z.lor WHITE REV_BLACK)
              (Z.to_nat ((2 * total_rows s * total_columns s + 1) / 2))
              0 image ltac:(lia) ltac:(lia))
    as (image2 & Hci2 & Hleni & Hini & _).
  destruct (clear_cols_spec (Z.lor WHITE REV_BLACK)
              (Z.to_nat ((2 * total_rows s * total_columns s + 1) / 2))
              0 physical ltac:(lia) ltac:(lia))
    as (physical2 & Hcp2 & Hlenp & Hinp & _).
  rewrite Hci in Hci2. injection Hci2 as <-.
  rewrite Hcp in Hcp2. injection Hcp2 as <-.
  eexists. exists image', physical', [werase; move 0 0; curses_refresh].
  split.
  { unfold clear_screen.
    cbn [total_rows total_columns screen_image physical_image emit].
    rewrite Elimit, Himage, Hphys, Hrun. reflexivity. }
  cbn. rewrite <- !app_assoc.
  repeat (split; [reflexivity || lia|]).
  intros j Hj.
  destruct (Hini j) as [H1 H2]; [lia|].
  destruct (Hinp j) as [H3 H4]; [lia|].
  change (to_char (Z.lor WHITE REV_BLACK)) with 7 in *.
  repeat split; assumption.
Qed.

(** The colour pairs: [init_pair] for the pairs [i .. i + n - 1], all of
    them in the table. *)
Lemma init_pairs_spec n :
  forall i s,
  1 <= i -> i + Z.of_nat n <= 64 ->
  exists t, init_pairs n i s = Some (emit_all t s) /\ quiet t.
Proof.
  induction n as [|n IH]; intros i s Hi Hn.
  - exists []. split; reflexivity.
  - cbn [init_pairs].
    destruct (lookup_lt_is_Some_2 color_initializers (Z.to_nat i))
      as [ci ->].
    { change (length color_initializers) with 64%nat. lia. }
    replace (to_short (i + 1)) with (i + 1)
      by (unfold to_short; rewrite Z.mod_small by lia; lia).
    destruct (IH (i + 1) (emit (init_pair i ci.1 ci.2) s)) as (t & -> & Hq);
      try lia.
    exists (init_pair i ci.1 ci.2 :: t). split; [reflexivity|exact Hq].
Qed.

(** [initialize_colors] returns; it calls curses only and leaves the
    counter alone. *)
Lemma initialize_colors_spec pf s :
  exists s' t,
    initialize_colors pf s = Some s' /\
    initialize_counter s' = initialize_counter s /\
    trace s' = trace s ++ t /\ quiet t.
Proof.
  unfold initialize_colors.
  destruct (start_color_ok pf); cbn [negb].
  - set (max_colors := if to_short (COLOR_PAIRS pf) >? 64 then 64
                       else to_short (COLOR_PAIRS pf)).
    assert (max_colors <= 64) by (subst max_colors; case_match; lia).
    destruct (init_pairs_spec (Z.to_nat (max_colors - 1)) 1
                (emit start_color (set_color_works true s)))
      as (t & -> & Hq); try lia.
    eexists. exists (start_color :: t). split; [reflexivity|].
    destruct (emit_all_fields t (emit start_color (set_color_works true s)))
      as (_ & _ & _ & _ & Ec & _ & _ & Et).
    cbn [initialize_counter trace set_colors_map]. rewrite Ec, Et.
    cbn. rewrite <- app_assoc. repeat split. exact Hq.
  - eexists. exists [start_color]. split; [reflexivity|]. repeat split.
Qed.

(** The first [initialize]: the session becomes active with a count of one,
    on the geometry curses reports, each image allocated once. *)
Lemma initialize_first pf s :
  initialize_counter s = 0 ->
  geometry_ok (LINES pf) (COLS pf) ->
  exists s',
    initialize pf s = Some (true, s') /\
    active s' 1 /\
    total_rows s' = LINES pf /\ total_columns s' = COLS pf /\
    forall a,
      allocations a (trace s') = S (allocations a (trace s)) /\
      deallocations a (trace s') = deallocations a (trace s).
Proof.
  intros Hzero Hgeo.
  destruct (clearing_trip_count _ _ Hgeo) as [Elimit _].
  unfold initialize. rewrite Hzero. change (0 >? 0) with false. cbv iota.
  set (s1 := initialize_character_map _).
  destruct (initialize_colors_spec pf s1) as (s2 & t2 & -> & Ec2 & Et2 & Hq2).
  cbn [total_rows total_columns set_geometry].
  rewrite Elimit.
  assert (0 <= 2 * LINES pf * COLS pf) as Hsize
    by (destruct Hgeo as (? & ? & ?); nia).
  unfold new_char_array. replace (2 * LINES pf * COLS pf <? 0) with false by lia.
  set (image := map (uninitialized pf ScreenImage) _).
  set (physical := map (uninitialized pf PhysicalImage) _).
  set (s3 := set_physical_image (Some physical) _).
  destruct (clear_screen_spec s3)
    as (s4 & image' & physical' & t4 & -> & Er & Ecol & Ecount & Himage
        & Hphys & _ & _ & Et4 & Hq4 & Hli & Hlp & _).
  { split; [exact Hgeo|]. exists image. split; [reflexivity|].
    subst image. rewrite length_map, length_seq. cbn. lia. }
  { exists physical. split; [reflexivity|].
    subst physical. rewrite length_map, length_seq. cbn. lia. }
  eexists. split; [reflexivity|]. unfold active.
  cbn [initialize_counter total_rows total_columns screen_image
       physical_image trace set_initialize_counter].
  rewrite Ecount, Er, Ecol, Himage, Hphys, Et4.
  cbn [s3 initialize_counter total_rows total_columns trace emit
       set_physical_image set_screen_image set_geometry].
  rewrite Ec2, Et2.
  cbn [s1 initialize_counter trace initialize_character_map
       set_box_character_map emit].
  cbn [s3 total_rows total_columns set_physical_image set_screen_image emit
       set_geometry] in Hli, Hlp.
  rewrite Hzero.
  split; [|split; [reflexivity|split; [reflexivity|]]].
  - split; [lia|]. split; [reflexivity|]. split.
    + exists image'. split; [reflexivity|lia].
    + exists physical'. split; [reflexivity|lia].
  - intros a.
    rewrite !allocations_app, !deallocations_app.
    destruct (quiet_counts a t2 Hq2) as [-> ->].
    destruct (quiet_counts a t4 Hq4) as [-> ->].
    destruct a; cbn; lia.
Qed.

(** A nested [initialize] only counts. *)
Lemma initialize_nested pf s :
  0 < initialize_counter s < Int.int_max ->
  initialize pf s
  = Some (true, set_initialize_counter (initialize_counter s + 1) s).
Proof.
  intros H. unfold initialize.
  replace (initialize_counter s >? 0) with true by lia.
  rewrite IntFacts.add_small by (int_range; lia). reflexivity.
Qed.

(** A [terminate] that is not the last only counts. *)
Lemma terminate_nested pf s :
  2 <= initialize_counter s <= Int.int_max ->
  terminate pf s = Some (set_initialize_counter (initialize_counter s - 1) s).
Proof.
  intros H. unfold terminate.
  replace (initialize_counter s =? 0) with false by lia.
  rewrite IntFacts.sub_small by (int_range; lia).
  cbn [initialize_counter set_initialize_counter].
  replace (initialize_counter s - 1 =? 0) with false by lia. reflexivity.
Qed.

(** [terminate] without a matching [initialize] does nothing. *)
Lemma terminate_inactive pf s :
  initialize_counter s = 0 -> terminate pf s = Some s.
Proof. intros H. unfold terminate. rewrite H. reflexivity. Qed.

(** The last [terminate]: the session becomes inactive and each image is
    freed once. *)
Lemma terminate_last pf s :
  active s 1 -> geometry_ok (total_rows s) (total_columns s) ->
  exists s',
    terminate pf s = Some s' /\
    inactive s' /\
    forall a,
      allocations a (trace s') = allocations a (trace s) /\
      deallocations a (trace s') = S (deallocations a (trace s)).
Proof.
  intros (_ & Hone & (image & Himage & Hsize) & (physical & Hphys & Hpsize))
         Hgeo.
  destruct (clearing_trip_count _ _ Hgeo) as [Elimit Etrip].
  unfold terminate. rewrite Hone. change (1 =? 0) with false. cbv iota.
  change (Int.sub 1 1) with 0.
  cbn [initialize_counter total_rows total_columns screen_image
       set_initialize_counter].
  change (negb (0 =? 0)) with false. cbv iota.
  rewrite Elimit, Himage.
  destruct (terminate_loop_spec
              (Z.to_nat ((2 * total_rows s * total_columns s + 1) / 2))
              0 image) as (image' & -> & Hclear); try lia.
  { destruct Hgeo as (? & ? & ?). lia. }
  apply clear_cols_length in Hclear.
  set (s1 := set_virtual_cursor 1 1 _).
  destruct (redraw_spec pf s1) as (t & -> & Hq).
  { split; [exact Hgeo|]. exists image'. split; [reflexivity|].
    cbn [s1 total_rows total_columns set_virtual_cursor set_screen_image
         set_initialize_counter]. lia. }
  destruct (emit_all_fields t s1) as (_ & _ & Ei & Ep & Ec & _ & _ & Et).
  set (s2 := emit_all t s1) in *.
  assert (screen_image s2 = Some image') as Ei' by (rewrite Ei; reflexivity).
  assert (physical_image s2 = Some physical) as Ep'
    by (rewrite Ep; exact Hphys).
  assert (initialize_counter s2 = 0) as Ec' by (rewrite Ec; reflexivity).
  assert (trace s2 = trace s ++ t) as Et' by (rewrite Et; reflexivity).
  clearbody s2. clear Ei Ep Ec Et.
  destruct s2; cbn in Ei', Ep', Ec', Et'; subst.
  eexists. split; [reflexivity|].
  unfold inactive. cbn -[allocations deallocations].
  split; [repeat split|].
  intros a. rewrite !allocations_app, !deallocations_app.
  destruct (quiet_counts a t Hq) as [-> ->].
  destruct a; cbn; lia.
Qed.

(** C9. From an inactive session (counter 0, no image), the calls
    [initialize(); initialize(); terminate();] leave the session active with
    a count of one, both images allocated and none freed; a further
    [terminate()] makes it inactive, each image having been allocated once
    and freed once; and [terminate()] on the inactive session returns the
    state unchanged. *)
Theorem lifecycle_nesting (pf : platform) (s : scr) :
  inactive s ->
  geometry_ok (LINES pf) (COLS pf) ->
  exists s3 s4,
    lifecycle_run pf [call_initialize; call_initialize; call_terminate] s
      = Some s3 /\
    active s3 1 /\
    (forall a,
       allocations a (trace s3) = S (allocations a (trace s)) /\
       deallocations a (trace s3) = deallocations a (trace s)) /\
    terminate pf s3 = Some s4 /\
    inactive s4 /\
    (forall a,
       allocations a (trace s4) = S (allocations a (trace s)) /\
       deallocations a (trace s4) = S (deallocations a (trace s))) /\
    terminate pf s4 = Some s4.
Proof.
  intros (Hzero & _ & _) Hgeo.
  destruct (initialize_first pf s Hzero Hgeo)
    as (s1 & Hinit & Hactive & Er & Ec & Hcounts).
  assert (Hactive' := Hactive).
  destruct Hactive' as (_ & Hone & Himage & Hphys).
  assert (geometry_ok (total_rows s1) (total_columns s1)) as Hgeo1
    by (rewrite Er, Ec; exact Hgeo).
  destruct (terminate_last pf s1 Hactive Hgeo1)
    as (s4 & Hterm & Hinactive & Hcounts4).
  exists s1, s4. split; [|split; [exact Hactive|split; [exact Hcounts|]]].
  - cbn [lifecycle_run lifecycle_step]. rewrite Hinit.
    rewrite initialize_nested by (rewrite Hone; unfold Int.int_max; lia).
    rewrite terminate_nested
      by (cbn [initialize_counter set_initialize_counter]; rewrite Hone;
          unfold Int.int_max; lia).
    f_equal. clear -Hone. destruct s1. cbn in Hone. subst. reflexivity.
  - split; [exact Hterm|]. split; [exact Hinactive|]. split.
    + intros a. destruct (Hcounts a) as [A D].
      destruct (Hcounts4 a) as [A4 D4]. rewrite A4, D4, A, D. auto.
    + apply terminate_inactive. apply Hinactive.
Qed.

(** ** The theorems at work on the small screen *)

Lemma write_read_roundtrip_witness :
  adjust_dimensions 3 4 2 2 2 2 = (2, 2, 2, 2) /\
  exists s',
    write 2 2 2 2 [1; 2; 3; 4; 5; 6; 7; 8] small_screen = Some s' /\
    read 2 2 2 2 (replicate 8 0) s' = Some [1; 2; 3; 4; 5; 6; 7; 8].
Proof.
  apply (write_read_roundtrip small_screen 2 2 2 2
           [1; 2; 3; 4; 5; 6; 7; 8] (replicate 8 0)).
  - split.
    + unfold geometry_ok. simpl. unfold Int.int_max. lia.
    + eexists. split; reflexivity.
  - unfold region_ok. simpl. lia.
  - reflexivity.
  - reflexivity.
Defined.

Lemma scroll_semantics_witness :
  exists image',
    scroll UP 1 2 2 3 1 0x70 small_screen
    = Some (set_screen_image (Some image') small_screen) /\
    cell_at (Some image') 4 1 2 = cell_at (screen_image small_screen) 4 2 2 /\
    cell_at (Some image') 4 3 3 = Some (32, 0x70).
Proof.
  destruct (scroll_semantics small_screen UP 1 2 2 3 1 0x70) as (_ & _ & H).
  - split.
    + unfold geometry_ok. simpl. unfold Int.int_max. lia.
    + eexists. split; reflexivity.
  - unfold region_ok. simpl. lia.
  - destruct H as (image' & Hrun & _ & Hin & _); [lia|].
    exists image'. split; [exact Hrun|]. split.
    + apply (Hin 1 2); lia.
    + apply (Hin 3 3); lia.
Defined.

Lemma refresh_synchronizes_witness :
  exists s1 s2,
    mutate_all
      [call_clear 1 1 4 3 0x70;
       call_print 2 1 4 0x17 [72; 105];
       call_scroll UP 1 1 4 3 1 0x07] small_screen = Some s1 /\
    refresh small_platform s1 = Some s2 /\
    physical_image s2 = screen_image s1.
Proof.
  destruct (mutate_all
              [call_clear 1 1 4 3 0x70;
               call_print 2 1 4 0x17 [72; 105];
               call_scroll UP 1 1 4 3 1 0x07] small_screen) as [s1|] eqn:E;
    [|vm_compute in E; discriminate E].
  destruct (refresh_synchronizes small_platform small_screen s1 _
              ltac:(split; [unfold geometry_ok; simpl; unfold Int.int_max; lia
                           |eexists; split; reflexivity])
              ltac:(eexists; split; reflexivity) E)
    as (s2 & Href & _ & Hphys & _).
  exists s1, s2. repeat split; assumption.
Defined.

Lemma lifecycle_nesting_witness :
  exists s3 s4,
    lifecycle_run small_platform
      [call_initialize; call_initialize; call_terminate] initial_state
      = Some s3 /\
    initialize_counter s3 = 1 /\
    terminate small_platform s3 = Some s4 /\
    initialize_counter s4 = 0 /\
    screen_image s4 = None.
Proof.
  destruct (lifecycle_nesting small_platform initial_state)
    as (s3 & s4 & Hrun & (_ & Hone & _) & _ & Hterm & (Hzero & Hnone & _) & _).
  - repeat split.
  - unfold geometry_ok. simpl. unfold Int.int_max. lia.
  - exists s3, s4. repeat split; assumption.
Defined.

(** ** Examples *)

Example adjust_dimensions_clamps_all :
  adjust_dimensions 24 80 0 100 (-3) 50 = (1, 80, 1, 24).
Proof. reflexivity. Qed.

Example adjust_dimensions_cuts :
  adjust_dimensions 24 80 20 70 30 10 = (20, 70, 11, 5).
Proof. reflexivity. Qed.

Example initialize_blanks_the_screen :
  option_map (fun s => (screen_image s, physical_image s, initialize_counter s))
    small_session
  = Some (Some [32; 7; 32; 7; 32; 7; 32; 7;
                32; 7; 32; 7; 32; 7; 32; 7;
                32; 7; 32; 7; 32; 7; 32; 7],
          Some [32; 7; 32; 7; 32; 7; 32; 7;
                32; 7; 32; 7; 32; 7; 32; 7;
                32; 7; 32; 7; 32; 7; 32; 7],
          1).
Proof. vm_compute. reflexivity. Qed.

Example initialize_without_colour :
  option_map (fun bs => is_monochrome bs.2)
    (initialize mono_platform initial_state) = Some true.
Proof. vm_compute. reflexivity. Qed.

(** On a monochrome terminal [clear] stores the converted attribute. *)
Example clear_monochrome :
  option_map screen_image
    (clear 1 1 2 1 0x20 (set_color_works false small_screen))
  = Some (Some [32; 0x70; 32; 0x70; 32; 7; 32; 7;
                32; 7; 32; 7; 32; 7; 32; 7;
                32; 7; 32; 7; 32; 7; 32; 7]).
Proof. vm_compute. reflexivity. Qed.

Example set_color_keeps_text :
  option_map screen_image (set_color 1 1 2 2 0x1F small_screen)
  = Some (Some [32; 31; 32; 31; 32; 7; 32; 7;
                32; 31; 32; 31; 32; 7; 32; 7;
                32; 7; 32; 7; 32; 7; 32; 7]).
Proof. vm_compute. reflexivity. Qed.

Example print_text_keeps_attributes :
  option_map screen_image (print_text 3 3 10 [65; 66; 67; 68] small_screen)
  = Some (Some [32; 7; 32; 7; 32; 7; 32; 7;
                32; 7; 32; 7; 32; 7; 32; 7;
                32; 7; 32; 7; 65; 7; 66; 7]).
Proof. vm_compute. reflexivity. Qed.

(** After a [print] of two characters, [refresh] moves the cursor once,
    prints the two cells that changed and parks the cursor. *)
Example refresh_after_print :
  option_map trace
    (let? s := print 2 2 10 0x17 [72; 105] small_screen in
     refresh small_platform
       (set_physical_image (screen_image small_screen) s))
  = Some [move 1 1;
          addch (mkChtype (Raw 72) false false None);
          addch (mkChtype (Raw 105) false false None);
          move 0 0;
          curses_refresh].
Proof. vm_compute. reflexivity. Qed.

(** Scrolling the middle columns of a screen whose bytes are numbered. *)
Example scroll_up_numbered :
  option_map screen_image
    (let? s := write 1 1 4 3 (map Z.of_nat (seq 1 24)) small_screen in
     scroll UP 1 2 2 3 1 0x70 s)
  = Some (Some [1; 2; 11; 12; 13; 14; 7; 8;
                9; 10; 19; 20; 21; 22; 15; 16;
                17; 18; 32; 112; 32; 112; 23; 24]).
Proof. vm_compute. reflexivity. Qed.

Example scroll_down_numbered :
  option_map screen_image
    (let? s := write 1 1 4 3 (map Z.of_nat (seq 1 24)) small_screen in
     scroll DOWN 1 2 2 3 1 0x70 s)
  = Some (Some [1; 2; 32; 112; 32; 112; 7; 8;
                9; 10; 3; 4; 5; 6; 15; 16;
                17; 18; 11; 12; 13; 14; 23; 24]).
Proof. vm_compute. reflexivity. Qed.

(** * Further properties of the buffer interface *)

(** ** Every region operation acts on the clamped region *)

(** X1. Whatever the arguments, the region operations do on a region what
    they do on the region [adjust_dimensions] makes of it: [read],
    [read_text], [write], [write_text], [clear], [set_color] and [scroll]
    called with the clamped region behave as called with the original one. *)
Theorem region_operations_clamp (s : scr) (r c w h r' c' w' h' : Z) :
  1 <= total_rows s <= Int.int_max ->
  1 <= total_columns s <= Int.int_max ->
  adjust_dimensions (total_rows s) (total_columns s) r c w h
    = (r', c', w', h') ->
  (forall buffer, read r c w h buffer s = read r' c' w' h' buffer s) /\
  (forall buffer, read_text r c w h buffer s = read_text r' c' w' h' buffer s) /\
  (forall buffer, write r c w h buffer s = write r' c' w' h' buffer s) /\
  (forall buffer,
     write_text r c w h buffer s = write_text r' c' w' h' buffer s) /\
  (forall attribute,
     clear r c w h attribute s = clear r' c' w' h' attribute s) /\
  (forall attribute,
     set_color r c w h attribute s = set_color r' c' w' h' attribute s) /\
  (forall direction k attribute,
     scroll direction r c w h k attribute s
     = scroll direction r' c' w' h' k attribute s).
Proof.
  intros Hrows Hcols E.
  pose proof (adjust_dimensions_idempotent _ _ r c w h Hrows Hcols _ _ _ _ E)
    as E'.
  unfold read, read_text, write, write_text, clear, set_color, scroll.
  rewrite E, E'. repeat split.
Qed.

Lemma region_operations_clamp_witness :
  clear 0 3 9 9 0x70 small_screen = clear 1 3 2 3 0x70 small_screen /\
  scroll UP 0 3 9 9 1 0x07 small_screen
  = scroll UP 1 3 2 3 1 0x07 small_screen.
Proof.
  destruct (region_operations_clamp small_screen 0 3 9 9 1 3 2 3)
    as (_ & _ & _ & _ & Hclear & _ & Hscroll).
  - simpl. unfold Int.int_max. lia.
  - simpl. unfold Int.int_max. lia.
  - reflexivity.
  - split; [apply Hclear|apply Hscroll].
Defined.

(** ** [clear] on any region *)

(** X2. For every region whose extents added to the screen size stay in the
    range of [int], [clear] returns: no store leaves the image.  It fills the
    clamped region, and only it, with spaces in the converted attribute. *)
Theorem clear_any_region (s : scr) (r c w h attribute : Z) :
  session_ok s ->
  Int.in_range r -> Int.in_range c -> Int.in_range w -> Int.in_range h ->
  h <= Int.int_max - total_rows s + 1 ->
  w <= Int.int_max - total_columns s + 1 ->
  exists r' c' w' h' image',
    adjust_dimensions (total_rows s) (total_columns s) r c w h
      = (r', c', w', h') /\
    region_ok (total_rows s) (total_columns s) r' c' w' h' /\
    clear r c w h attribute s = Some (set_screen_image (Some image') s) /\
    Z.of_nat (length image') = 2 * total_rows s * total_columns s /\
    (forall row column, r' <= row < r' + h' -> c' <= column < c' + w' ->
       cell_at (Some image') (total_columns s) row column
       = Some (32, to_char (convert_attribute (color_works s) attribute))) /\
    (forall row column,
       1 <= column <= total_columns s ->
       ~ (r' <= row < r' + h' /\ c' <= column < c' + w') ->
       cell_at (Some image') (total_columns s) row column
       = cell_at (screen_image s) (total_columns s) row column).
Proof.
  intros Hs Hr Hc Hw Hh Hh' Hw'. assert (Hs0 := Hs). destruct Hs0 as (Hgeo & _).
  pose proof (geometry_bounds _ _ Hgeo) as (Hrows & Hcols & _).
  destruct (adjust_dimensions_clamps _ _ r c w h Hrows Hcols Hr Hc Hw Hh Hh' Hw')
    as (r' & c' & w' & h' & E & Hreg & _).
  destruct (clear_spec s r' c' w' h' attribute Hs Hreg)
    as (image' & Hrun & Hlen & Hin & Hout).
  exists r', c', w', h', image'. split; [exact E|]. split; [exact Hreg|].
  split; [|auto].
  unfold clear in *. rewrite E.
  rewrite (adjust_dimensions_id _ _ r' c' w' h') in Hrun by (lia || exact Hreg).
  exact Hrun.
Qed.

Lemma clear_any_region_witness :
  exists image',
    clear (-5) 3 100 2 0x1E small_screen
    = Some (set_screen_image (Some image') small_screen) /\
    cell_at (Some image') 4 2 4 = Some (32, 0x1E) /\
    cell_at (Some image') 4 3 4 = Some (32, 7).
Proof.
  destruct (clear_any_region small_screen (-5) 3 100 2 0x1E)
    as (r' & c' & w' & h' & image' & E & _ & Hrun & _ & Hin & Hout).
  - split.
    + unfold geometry_ok. simpl. unfold Int.int_max. lia.
    + eexists. split; reflexivity.
  - unfold Int.in_range, Int.int_min, Int.int_max. lia.
  - unfold Int.in_range, Int.int_min, Int.int_max. lia.
  - unfold Int.in_range, Int.int_min, Int.int_max. lia.
  - unfold Int.in_range, Int.int_min, Int.int_max. lia.
  - simpl. unfold Int.int_max. lia.
  - simpl. unfold Int.int_max. lia.
  - vm_compute in E. injection E as <- <- <- <-.
    exists image'. split; [exact Hrun|]. split.
    + apply (Hin 2 4); lia.
    + transitivity
        (cell_at (screen_image small_screen) (total_columns small_screen) 3 4);
        [apply Hout|reflexivity].
      * simpl. lia.
      * lia.
Defined.

(** ** [set_color] *)

Lemma set_color_cols_spec attribute n :
  forall destination image,
  0 <= destination ->
  destination + 2 * Z.of_nat n <= Z.of_nat (length image) ->
  exists image',
    set_color_cols n destination attribute image = Some image' /\
    (forall j, 0 <= j < Z.of_nat n ->
       load image' (destination + 2 * j + 1) = Some (to_char attribute)) /\
    (forall q,
       (forall j, 0 <= j < Z.of_nat n -> q <> destination + 2 * j + 1) ->
       load image' q = load image q).
Proof.
  induction n as [|n IH]; intros d image Hd Hlen.
  - exists image. simpl. repeat split; auto; intros; lia.
  - cbn [set_color_cols].
    destruct (store image (d + 1) (to_char attribute)) as [image1|] eqn:S1;
      [|rewrite store_in_bounds in S1 by lia; discriminate].
    pose proof (store_length _ _ _ _ S1) as L1.
    destruct (IH (d + 2) image1) as (image' & -> & Hin & Hout); try lia.
    exists image'. split; [reflexivity|]. split.
    + intros j Hj. destruct (Z.eq_dec j 0) as [->|Hne].
      * rewrite Hout by (intros; lia).
        replace (d + 2 * 0 + 1) with (d + 1) by lia.
        apply (load_store_eq _ _ _ _ S1).
      * replace (d + 2 * j + 1) with (d + 2 + 2 * (j - 1) + 1) by lia.
        apply Hin. lia.
    + intros q Hq. rewrite Hout.
      * apply (load_store_ne _ _ _ _ q S1). specialize (Hq 0). lia.
      * intros j Hj. specialize (Hq (j + 1)). lia.
Qed.

Lemma set_color_rows_spec columns width attribute n :
  0 <= width -> 2 * width <= Int.mul 2 columns ->
  forall screen_pointer image,
  (forall i, 0 <= i < Z.of_nat n ->
     0 <= screen_pointer + i * Int.mul 2 columns /\
     screen_pointer + i * Int.mul 2 columns + 2 * width
       <= Z.of_nat (length image)) ->
  exists image',
    set_color_rows columns n width screen_pointer attribute image
      = Some image' /\
    (forall i j, 0 <= i < Z.of_nat n -> 0 <= j < width ->
       load image' (screen_pointer + i * Int.mul 2 columns + 2 * j + 1)
         = Some (to_char attribute)) /\
    (forall q,
       (forall i j, 0 <= i < Z.of_nat n -> 0 <= j < width ->
          q <> screen_pointer + i * Int.mul 2 columns + 2 * j + 1) ->
       load image' q = load image q).
Proof.
  intros Hw Hstride. set (stride := Int.mul 2 columns) in *.
  induction n as [|n IH]; intros sp image Himg.
  - exists image. simpl. repeat split; auto; intros; lia.
  - cbn [set_color_rows]. fold stride.
    destruct (Himg 0) as [Hi0 Hi1]; [lia|].
    destruct (set_color_cols_spec attribute (Z.to_nat width) sp image)
      as (image1 & Hrun1 & Hin1 & Hout1); try lia.
    rewrite Hrun1. apply set_color_cols_length in Hrun1.
    destruct (IH (sp + stride) image1) as (image' & -> & Hin & Hout).
    { intros i Hi. rewrite Hrun1.
      destruct (Himg (i + 1)) as [? ?]; [lia|]. lia. }
    exists image'. split; [reflexivity|]. split.
    + intros i j Hi Hj. destruct (Z.eq_dec i 0) as [->|Hne].
      * rewrite Hout.
        -- replace (sp + 0 * stride + 2 * j + 1) with (sp + 2 * j + 1) by lia.
           apply Hin1. lia.
        -- intros i' j' Hi' Hj'.
           pose proof (Z.mul_nonneg_nonneg i' stride). lia.
      * replace (sp + i * stride + 2 * j + 1)
          with (sp + stride + (i - 1) * stride + 2 * j + 1) by lia.
        apply Hin; lia.
    + intros q Hq. rewrite Hout.
      * apply Hout1. intros j Hj. specialize (Hq 0 j). lia.
      * intros i j Hi Hj. specialize (Hq (i + 1) j). lia.
Qed.

(** X3. On a region inside the screen [set_color] returns; every cell of the
    region keeps its character and takes the converted attribute; every
    other cell of the screen is unchanged. *)
Theorem set_color_spec (s : scr) (r c w h attribute : Z) :
  session_ok s ->
  region_ok (total_rows s) (total_columns s) r c w h ->
  exists image',
    set_color r c w h attribute s = Some (set_screen_image (Some image') s) /\
    Z.of_nat (length image') = 2 * total_rows s * total_columns s /\
    (forall row column, r <= row < r + h -> c <= column < c + w ->
       exists ch old,
         cell_at (screen_image s) (total_columns s) row column
           = Some (ch, old) /\
         cell_at (Some image') (total_columns s) row column
           = Some (ch, to_char (convert_attribute (color_works s) attribute)))
    /\
    (forall row column,
       1 <= column <= total_columns s ->
       ~ (r <= row < r + h /\ c <= column < c + w) ->
       cell_at (Some image') (total_columns s) row column
       = cell_at (screen_image s) (total_columns s) row column).
Proof.
  intros (Hgeo & image & Himage & Hsize) Hreg.
  pose proof (geometry_bounds _ _ Hgeo) as (Hrows & Hcols & Hstride).
  pose proof (stride_small _ _ Hgeo) as Es.
  assert (Hreg' := Hreg). destruct Hreg' as (Hr & Hc & Hw & Hh & Hrh & Hcw).
  destruct (set_color_rows_spec (total_columns s) w
              (convert_attribute (color_works s) attribute) (Z.to_nat h))
    with (screen_pointer := cell_index (total_columns s) r c) (image := image)
    as (image' & Hrun & Hin & Hout); try lia.
  { intros i Hi. rewrite Es, Hsize.
    pose proof (region_row_in_image _ _ Hgeo r c w h i Hreg). lia. }
  rewrite Es in Hin, Hout.
  pose proof (set_color_rows_length _ _ _ _ _ _ _ Hrun) as Hlen.
  exists image'. split.
  { unfold set_color. rewrite adjust_dimensions_id by (lia || exact Hreg).
    rewrite Himage, (cell_offset_small _ _ Hgeo) by lia.
    rewrite Hrun. reflexivity. }
  split; [lia|]. split.
  - intros row column Hrow Hcol. rewrite Himage.
    pose proof (region_row_in_image _ _ Hgeo r c w h (row - r) Hreg
                  ltac:(lia)) as (Hb0 & Hb1 & _).
    assert (cell_index (total_columns s) row column
            = cell_index (total_columns s) r c
              + (row - r) * (2 * total_columns s) + 2 * (column - c)) as Ecell
      by (unfold cell_index; lia).
    destruct (load_in_bounds image (cell_index (total_columns s) row column))
      as [ch Hch]; [lia|].
    destruct (load_in_bounds image
                (cell_index (total_columns s) row column + 1))
      as [old Hold]; [lia|].
    exists ch, old. split; [apply cell_at_loads; assumption|].
    apply cell_at_loads.
    + rewrite Hout; [exact Hch|].
      intros i j Hi Hj. unfold cell_index. lia.
    + rewrite Ecell. apply Hin; lia.
  - intros row column Hcol Hnot. rewrite Himage.
    apply cell_at_same; apply Hout; intros i j Hi Hj E.
    + unfold cell_index in E. lia.
    + apply Hnot.
      destruct (cell_in_region_rows _ _ Hgeo r c w h row column 0 i)
        as [? ?]; auto; lia.
Qed.

Lemma set_color_spec_witness :
  exists image',
    set_color 1 1 2 2 0x1F small_screen
    = Some (set_screen_image (Some image') small_screen) /\
    cell_at (Some image') 4 2 2 = Some (32, 0x1F) /\
    cell_at (Some image') 4 2 3 = Some (32, 7).
Proof.
  destruct (set_color_spec small_screen 1 1 2 2 0x1F)
    as (image' & Hrun & _ & Hin & Hout).
  - split.
    + unfold geometry_ok. simpl. unfold Int.int_max. lia.
    + eexists. split; reflexivity.
  - unfold region_ok. simpl. lia.
  - exists image'. split; [exact Hrun|]. split.
    + destruct (Hin 2 2) as (ch & old & Hold & Hnew); [lia|lia|].
      vm_compute in Hold. injection Hold as <- <-. exact Hnew.
    + transitivity
        (cell_at (screen_image small_screen) (total_columns small_screen) 2 3);
        [apply Hout|reflexivity].
      * simpl. lia.
      * lia.
Defined.

(** ** [write_text] and [read_text] *)

Lemma write_text_cols_spec buffer n :
  forall destination bp image,
  0 <= destination ->
  destination + 2 * Z.of_nat n <= Z.of_nat (length image) ->
  0 <= bp -> bp + Z.of_nat n <= Z.of_nat (length buffer) ->
  exists image',
    write_text_cols n destination bp buffer image
      = Some (image', bp + Z.of_nat n) /\
    (forall j, 0 <= j < Z.of_nat n ->
       load image' (destination + 2 * j) = load buffer (bp + j)) /\
    (forall q,
       (forall j, 0 <= j < Z.of_nat n -> q <> destination + 2 * j) ->
       load image' q = load image q).
Proof.
  induction n as [|n IH]; intros d bp image Hd Hlen Hbp Hbuf.
  - exists image. cbn [write_text_cols]. split; [do 2 f_equal; lia|].
    split; auto; intros; lia.
  - cbn [write_text_cols].
    destruct (load_in_bounds buffer bp) as [ch Hch]; [lia|]. rewrite Hch.
    destruct (store image d ch) as [image1|] eqn:S1;
      [|rewrite store_in_bounds in S1 by lia; discriminate].
    pose proof (store_length _ _ _ _ S1) as L1.
    destruct (IH (d + 2) (bp + 1) image1) as (image' & -> & Hin & Hout);
      try lia.
    exists image'. split; [do 2 f_equal; lia|]. split.
    + intros j Hj. destruct (Z.eq_dec j 0) as [->|Hne].
      * rewrite Hout by (intros; lia).
        replace (d + 2 * 0) with d by lia. replace (bp + 0) with bp by lia.
        rewrite Hch. apply (load_store_eq _ _ _ _ S1).
      * replace (d + 2 * j) with (d + 2 + 2 * (j - 1)) by lia.
        replace (bp + j) with (bp + 1 + (j - 1)) by lia.
        apply Hin. lia.
    + intros q Hq. rewrite Hout.
      * apply (load_store_ne _ _ _ _ q S1). specialize (Hq 0). lia.
      * intros j Hj. specialize (Hq (j + 1)). lia.
Qed.

Lemma write_text_rows_spec columns width buffer n :
  0 <= width -> 2 * width <= Int.mul 2 columns ->
  forall screen_pointer bp image,
  (forall i, 0 <= i < Z.of_nat n ->
     0 <= screen_pointer + i * Int.mul 2 columns /\
     screen_pointer + i * Int.mul 2 columns + 2 * width
       <= Z.of_nat (length image)) ->
  0 <= bp -> bp + Z.of_nat n * width <= Z.of_nat (length buffer) ->
  exists image',
    write_text_rows columns n width screen_pointer bp buffer image
      = Some image' /\
    (forall i j, 0 <= i < Z.of_nat n -> 0 <= j < width ->
       load image' (screen_pointer + i * Int.mul 2 columns + 2 * j)
       = load buffer (bp + i * width + j)) /\
    (forall q,
       (forall i j, 0 <= i < Z.of_nat n -> 0 <= j < width ->
          q <> screen_pointer + i * Int.mul 2 columns + 2 * j) ->
       load image' q = load image q).
Proof.
  intros Hw Hstride. set (stride := Int.mul 2 columns) in *.
  induction n as [|n IH]; intros sp bp image Himg Hbp Hbuf.
  - exists image. simpl. repeat split; auto; intros; lia.
  - cbn [write_text_rows]. fold stride.
    destruct (Himg 0) as [Hi0 Hi1]; [lia|].
    destruct (write_text_cols_spec buffer (Z.to_nat width) sp bp image)
      as (image1 & Hrun1 & Hin1 & Hout1); try nia.
    rewrite Hrun1. apply write_text_cols_length in Hrun1.
    rewrite Z2Nat.id in * by lia.
    destruct (IH (sp + stride) (bp + width) image1)
      as (image' & -> & Hin & Hout); try nia.
    { intros i Hi. rewrite Hrun1.
      destruct (Himg (i + 1)) as [? ?]; [lia|]. lia. }
    exists image'. split; [reflexivity|]. split.
    + intros i j Hi Hj. destruct (Z.eq_dec i 0) as [->|Hne].
      * rewrite Hout.
        -- replace (sp + 0 * stride + 2 * j) with (sp + 2 * j) by lia.
           replace (bp + 0 * width + j) with (bp + j) by lia.
           apply Hin1. lia.
        -- intros i' j' Hi' Hj'.
           pose proof (Z.mul_nonneg_nonneg i' stride). lia.
      * replace (sp + i * stride + 2 * j)
          with (sp + stride + (i - 1) * stride + 2 * j) by lia.
        replace (bp + i * width + j)
          with (bp + width + (i - 1) * width + j) by lia.
        apply Hin; lia.
    + intros q Hq. rewrite Hout.
      * apply Hout1. intros j Hj. specialize (Hq 0 j). lia.
      * intros i j Hi Hj. specialize (Hq (i + 1) j). lia.
Qed.

Lemma read_text_cols_spec image n :
  forall source bp buffer,
  0 <= source ->
  source + 2 * Z.of_nat n <= Z.of_nat (length image) ->
  0 <= bp -> bp + Z.of_nat n <= Z.of_nat (length buffer) ->
  exists buffer',
    read_text_cols n source bp image buffer
      = Some (buffer', bp + Z.of_nat n) /\
    length buffer' = length buffer /\
    (forall j, 0 <= j < Z.of_nat n ->
       load buffer' (bp + j) = load image (source + 2 * j)) /\
    (forall q, ~ (bp <= q < bp + Z.of_nat n) ->
       load buffer' q = load buffer q).
Proof.
  induction n as [|n IH]; intros src bp buffer Hsrc Hlen Hbp Hbuf.
  - exists buffer. cbn [read_text_cols]. split; [do 2 f_equal; lia|].
    repeat split; auto; intros; lia.
  - cbn [read_text_cols].
    destruct (load_in_bounds image src) as [ch Hch]; [lia|]. rewrite Hch.
    destruct (store buffer bp ch) as [buffer1|] eqn:S1;
      [|rewrite store_in_bounds in S1 by lia; discriminate].
    pose proof (store_length _ _ _ _ S1) as L1.
    destruct (IH (src + 2) (bp + 1) buffer1)
      as (buffer' & -> & Hlen' & Hin & Hout); try lia.
    exists buffer'. split; [do 2 f_equal; lia|]. split; [lia|]. split.
    + intros j Hj. destruct (Z.eq_dec j 0) as [->|Hne].
      * rewrite Hout by lia.
        replace (src + 2 * 0) with src by lia. replace (bp + 0) with bp by lia.
        rewrite Hch. apply (load_store_eq _ _ _ _ S1).
      * replace (src + 2 * j) with (src + 2 + 2 * (j - 1)) by lia.
        replace (bp + j) with (bp + 1 + (j - 1)) by lia.
        apply Hin. lia.
    + intros q Hq. rewrite Hout by lia.
      apply (load_store_ne _ _ _ _ q S1). lia.
Qed.

Lemma read_text_rows_spec columns width image n :
  0 <= width ->
  forall screen_pointer bp buffer,
  (forall i, 0 <= i < Z.of_nat n ->
     0 <= screen_pointer + i * Int.mul 2 columns /\
     screen_pointer + i * Int.mul 2 columns + 2 * width
       <= Z.of_nat (length image)) ->
  0 <= bp -> bp + Z.of_nat n * width <= Z.of_nat (length buffer) ->
  exists buffer',
    read_text_rows columns n width screen_pointer bp image buffer
      = Some buffer' /\
    length buffer' = length buffer /\
    (forall i j, 0 <= i < Z.of_nat n -> 0 <= j < width ->
       load buffer' (bp + i * width + j)
       = load image (screen_pointer + i * Int.mul 2 columns + 2 * j)) /\
    (forall q, ~ (bp <= q < bp + Z.of_nat n * width) ->
       load buffer' q = load buffer q).
Proof.
  intros Hw. set (stride := Int.mul 2 columns) in *.
  induction n as [|n IH]; intros sp bp buffer Himg Hbp Hbuf.
  - exists buffer. simpl. repeat split; auto; intros; lia.
  - cbn [read_text_rows]. fold stride.
    destruct (Himg 0) as [Hi0 Hi1]; [lia|].
    destruct (read_text_cols_spec image (Z.to_nat width) sp bp buffer)
      as (buffer1 & Hrun1 & Hlen1 & Hin1 & Hout1); try nia.
    rewrite Hrun1. rewrite Z2Nat.id in * by lia.
    destruct (IH (sp + stride) (bp + width) buffer1)
      as (buffer' & -> & Hlen' & Hin & Hout); try nia.
    { intros i Hi. destruct (Himg (i + 1)) as [? ?]; [lia|]. lia. }
    exists buffer'. split; [reflexivity|]. split; [lia|]. split.
    + intros i j Hi Hj. destruct (Z.eq_dec i 0) as [->|Hne].
      * rewrite Hout by nia.
        replace (sp + 0 * stride + 2 * j) with (sp + 2 * j) by lia.
        replace (bp + 0 * width + j) with (bp + j) by lia.
        apply Hin1. lia.
      * replace (sp + i * stride + 2 * j)
          with (sp + stride + (i - 1) * stride + 2 * j) by lia.
        replace (bp + i * width + j)
          with (bp + width + (i - 1) * width + j) by lia.
        apply Hin; lia.
    + intros q Hq. rewrite Hout by nia. apply Hout1. nia.
Qed.

(** What [write_text] does to the image, byte by byte. *)
Lemma write_text_loads s r c w h buffer :
  session_ok s ->
  region_ok (total_rows s) (total_columns s) r c w h ->
  w * h <= Z.of_nat (length buffer) ->
  exists image image',
    screen_image s = Some image /\
    write_text r c w h buffer s = Some (set_screen_image (Some image') s) /\
    length image' = length image /\
    (forall i j, 0 <= i < h -> 0 <= j < w ->
       load image'
         (cell_index (total_columns s) r c + i * (2 * total_columns s) + 2 * j)
       = load buffer (i * w + j)) /\
    (forall q,
       (forall i j, 0 <= i < h -> 0 <= j < w ->
          q <> cell_index (total_columns s) r c + i * (2 * total_columns s)
               + 2 * j) ->
       load image' q = load image q).
Proof.
  intros (Hgeo & image & Himage & Hsize) Hreg Hbuf.
  pose proof (geometry_bounds _ _ Hgeo) as (Hrows & Hcols & Hstride).
  pose proof (stride_small _ _ Hgeo) as Es.
  assert (Hreg' := Hreg). destruct Hreg' as (Hr & Hc & Hw & Hh & Hrh & Hcw).
  destruct (write_text_rows_spec (total_columns s) w buffer (Z.to_nat h))
    with (screen_pointer := cell_index (total_columns s) r c) (bp := 0)
         (image := image)
    as (image' & Hrun & Hin & Hout); try lia.
  { intros i Hi. rewrite Es, Hsize.
    pose proof (region_row_in_image _ _ Hgeo r c w h i Hreg). lia. }
  exists image, image'. split; [exact Himage|]. split.
  { unfold write_text.
    rewrite adjust_dimensions_id by (lia || exact Hreg).
    rewrite Himage, (cell_offset_small _ _ Hgeo) by lia.
    rewrite Hrun. reflexivity. }
  split; [exact (write_text_rows_length _ _ _ _ _ _ _ _ Hrun)|].
  rewrite Es in Hin, Hout. split.
  - intros i j Hi Hj. rewrite Hin by lia. f_equal.
  - intros q Hq. apply Hout. intros i j Hi Hj. apply Hq; lia.
Qed.

(** What [read_text] puts in the buffer, byte by byte. *)
Lemma read_text_loads s r c w h buffer :
  session_ok s ->
  region_ok (total_rows s) (total_columns s) r c w h ->
  w * h <= Z.of_nat (length buffer) ->
  exists image buffer',
    screen_image s = Some image /\
    read_text r c w h buffer s = Some buffer' /\
    length buffer' = length buffer /\
    (forall i j, 0 <= i < h -> 0 <= j < w ->
       load buffer' (i * w + j)
       = load image
           (cell_index (total_columns s) r c + i * (2 * total_columns s)
            + 2 * j)) /\
    (forall q, ~ (0 <= q < w * h) -> load buffer' q = load buffer q).
Proof.
  intros (Hgeo & image & Himage & Hsize) Hreg Hbuf.
  pose proof (geometry_bounds _ _ Hgeo) as (Hrows & Hcols & Hstride).
  pose proof (stride_small _ _ Hgeo) as Es.
  assert (Hreg' := Hreg). destruct Hreg' as (Hr & Hc & Hw & Hh & Hrh & Hcw).
  destruct (read_text_rows_spec (total_columns s) w image (Z.to_nat h))
    with (screen_pointer := cell_index (total_columns s) r c) (bp := 0)
         (buffer := buffer)
    as (buffer' & Hrun & Hlen & Hin & Hout); try lia.
  { intros i Hi. rewrite Es, Hsize.
    pose proof (region_row_in_image _ _ Hgeo r c w h i Hreg). lia. }
  exists image, buffer'. split; [exact Himage|]. split.
  { unfold read_text.
    rewrite adjust_dimensions_id by (lia || exact Hreg).
    rewrite Himage, (cell_offset_small _ _ Hgeo) by lia.
    exact Hrun. }
  split; [exact Hlen|]. rewrite Es in Hin. split.
  - intros i j Hi Hj. rewrite <- Hin by lia. f_equal.
  - intros q Hq. apply Hout. nia.
Qed.

(** What [read] puts in the buffer, byte by byte. *)
Lemma read_loads s r c w h buffer :
  session_ok s ->
  region_ok (total_rows s) (total_columns s) r c w h ->
  2 * w * h <= Z.of_nat (length buffer) ->
  exists image buffer',
    screen_image s = Some image /\
    read r c w h buffer s = Some buffer' /\
    length buffer' = length buffer /\
    (forall i j, 0 <= i < h -> 0 <= j < 2 * w ->
       load buffer' (i * (2 * w) + j)
       = load image
           (cell_index (total_columns s) r c + i * (2 * total_columns s) + j))
    /\
    (forall q, ~ (0 <= q < 2 * w * h) -> load buffer' q = load buffer q).
Proof.
  intros (Hgeo & image & Himage & Hsize) Hreg Hbuf.
  pose proof (geometry_bounds _ _ Hgeo) as (Hrows & Hcols & Hstride).
  pose proof (stride_small _ _ Hgeo) as Es.
  assert (Hreg' := Hreg). destruct Hreg' as (Hr & Hc & Hw & Hh & Hrh & Hcw).
  destruct (read_rows_spec (total_columns s) (Z.to_nat h) (2 * w) image)
    with (screen_pointer := cell_index (total_columns s) r c) (bp := 0)
         (buffer := buffer)
    as (buffer' & Hrun & Hlen & Hin & Hout); try lia.
  { intros i Hi. rewrite Es, Hsize.
    pose proof (region_row_in_image _ _ Hgeo r c w h i Hreg). lia. }
  { intros i Hi. nia. }
  exists image, buffer'. split; [exact Himage|]. split.
  { unfold read.
    rewrite adjust_dimensions_id by (lia || exact Hreg).
    rewrite (IntFacts.mul_small 2 w) by (int_range; lia).
    rewrite !IntFacts.to_unsigned_small by lia.
    rewrite Himage, (cell_offset_small _ _ Hgeo) by lia.
    exact Hrun. }
  split; [exact Hlen|]. rewrite Es in Hin. split.
  - intros i j Hi Hj. rewrite <- Hin by lia. f_equal.
  - intros q Hq. apply Hout. nia.
Qed.

(** X4. On a region inside the screen and with a buffer of at least
    [width * height] characters [write_text] returns; the cell at row [i]
    and column [j] of the region takes character [i * width + j] of the
    buffer and keeps its attribute; every other cell of the screen is
    unchanged. *)
Theorem write_text_spec (s : scr) (r c w h : Z) (buffer : list Z) :
  session_ok s ->
  region_ok (total_rows s) (total_columns s) r c w h ->
  w * h <= Z.of_nat (length buffer) ->
  exists image',
    write_text r c w h buffer s = Some (set_screen_image (Some image') s) /\
    Z.of_nat (length image') = 2 * total_rows s * total_columns s /\
    (forall i j, 0 <= i < h -> 0 <= j < w ->
       exists ch ch0 old,
         load buffer (i * w + j) = Some ch /\
         cell_at (screen_image s) (total_columns s) (r + i) (c + j)
           = Some (ch0, old) /\
         cell_at (Some image') (total_columns s) (r + i) (c + j)
           = Some (ch, old)) /\
    (forall row column,
       1 <= column <= total_columns s ->
       ~ (r <= row < r + h /\ c <= column < c + w) ->
       cell_at (Some image') (total_columns s) row column
       = cell_at (screen_image s) (total_columns s) row column).
Proof.
  intros Hs Hreg Hbuf.
  destruct (write_text_loads s r c w h buffer Hs Hreg Hbuf)
    as (image & image' & Himage & Hrun & Hlen & Hin & Hout).
  destruct Hs as (Hgeo & image0 & Himage0 & Hsize).
  rewrite Himage in Himage0. injection Himage0 as <-.
  assert (Hreg' := Hreg). destruct Hreg' as (Hr & Hc & Hw & Hh & Hrh & Hcw).
  exists image'. split; [exact Hrun|]. split; [lia|]. split.
  - intros i j Hi Hj. rewrite Himage.
    pose proof (region_row_in_image _ _ Hgeo r c w h i Hreg Hi)
      as (Hb0 & Hb1 & _).
    pose proof (cell_index_row (total_columns s) r c i j) as Ecell.
    destruct (load_in_bounds buffer (i * w + j)) as [ch Hch]; [nia|].
    destruct (load_in_bounds image
                (cell_index (total_columns s) (r + i) (c + j)))
      as [ch0 Hch0]; [lia|].
    destruct (load_in_bounds image
                (cell_index (total_columns s) (r + i) (c + j) + 1))
      as [old Hold]; [lia|].
    exists ch, ch0, old. split; [exact Hch|].
    split; [apply cell_at_loads; assumption|].
    apply cell_at_loads.
    + rewrite Ecell, Hin by lia. exact Hch.
    + rewrite Hout; [exact Hold|].
      intros i' j' Hi' Hj'. unfold cell_index. lia.
  - intros row column Hcol Hnot. rewrite Himage.
    apply cell_at_same; apply Hout; intros i j Hi Hj E.
    + apply Hnot.
      destruct (cell_in_region_rows _ _ Hgeo r c w h row column 0 i)
        as [? ?]; auto; lia.
    + unfold cell_index in E. lia.
Qed.

Lemma write_text_spec_witness :
  exists image',
    write_text 2 3 2 2 [65; 66; 67; 68] small_screen
    = Some (set_screen_image (Some image') small_screen) /\
    cell_at (Some image') 4 3 3 = Some (67, 7) /\
    cell_at (Some image') 4 3 2 = Some (32, 7).
Proof.
  destruct (write_text_spec small_screen 2 3 2 2 [65; 66; 67; 68])
    as (image' & Hrun & _ & Hin & Hout).
  - apply small_screen_ok.
  - unfold region_ok. simpl. lia.
  - simpl. lia.
  - exists image'. split; [exact Hrun|]. split.
    + destruct (Hin 1 0) as (ch & ch0 & old & Hch & Hold & Hnew); [lia|lia|].
      vm_compute in Hch, Hold. injection Hch as <-. injection Hold as <- <-.
      exact Hnew.
    + transitivity
        (cell_at (screen_image small_screen) (total_columns small_screen) 3 2);
        [apply Hout|reflexivity].
      * simpl. lia.
      * lia.
Defined.

(** X5. On a region inside the screen, [write_text] of a buffer [B] of
    [width * height] characters followed by [read_text] of the same region
    into a buffer of that size returns [B]. *)
Theorem write_text_read_text_roundtrip (s : scr) (r c w h : Z)
    (B B2 : list Z) :
  session_ok s ->
  region_ok (total_rows s) (total_columns s) r c w h ->
  Z.of_nat (length B) = w * h ->
  Z.of_nat (length B2) = w * h ->
  exists s', write_text r c w h B s = Some s' /\
             read_text r c w h B2 s' = Some B.
Proof.
  intros Hs Hreg HB HB2.
  destruct (write_text_loads s r c w h B Hs Hreg ltac:(lia))
    as (image & image' & Himage & Hwrite & Hlen & Hin & _).
  assert (session_ok (set_screen_image (Some image') s)) as Hs'.
  { apply session_ok_set_screen_image; [exact Hs|].
    destruct Hs as (_ & image0 & Himage0 & Hsize).
    rewrite Himage in Himage0. injection Himage0 as <-. lia. }
  destruct (read_text_loads (set_screen_image (Some image') s) r c w h B2
              Hs' Hreg ltac:(lia))
    as (image2 & B' & Himage2 & Hread & HlenB & HinB & _).
  cbn [screen_image set_screen_image] in Himage2. injection Himage2 as <-.
  cbn [total_columns set_screen_image] in HinB.
  eexists. split; [exact Hwrite|]. rewrite Hread. f_equal.
  destruct Hreg as (Hr & Hc & Hw & Hh & Hrh & Hcw).
  apply image_ext; [lia|].
  intros p Hp.
  pose proof (Z.div_mod p w ltac:(lia)) as Hdm.
  pose proof (Z.mod_pos_bound p w ltac:(lia)) as Hmod.
  set (i := p / w) in *. set (j := p mod w) in *.
  assert (0 <= i < h) as Hi by nia.
  replace p with (i * w + j) by lia.
  rewrite HinB, Hin by lia. reflexivity.
Qed.

Lemma write_text_read_text_roundtrip_witness :
  exists s',
    write_text 2 3 2 2 [65; 66; 67; 68] small_screen = Some s' /\
    read_text 2 3 2 2 [0; 0; 0; 0] s' = Some [65; 66; 67; 68].
Proof.
  apply (write_text_read_text_roundtrip small_screen 2 3 2 2
           [65; 66; 67; 68] [0; 0; 0; 0]).
  - apply small_screen_ok.
  - unfold region_ok. simpl. lia.
  - reflexivity.
  - reflexivity.
Defined.

(** X6. On a region inside the screen and with a buffer of at least
    [2 * width * height] bytes [read] returns; the buffer, seen as an image
    [width] cells wide, holds at row [i + 1] and column [j + 1] the character
    and the attribute of the cell at row [i] and column [j] of the region;
    the bytes of the buffer past [2 * width * height] are kept. *)
Theorem read_spec (s : scr) (r c w h : Z) (buffer : list Z) :
  session_ok s ->
  region_ok (total_rows s) (total_columns s) r c w h ->
  2 * w * h <= Z.of_nat (length buffer) ->
  exists buffer',
    read r c w h buffer s = Some buffer' /\
    length buffer' = length buffer /\
    (forall i j, 0 <= i < h -> 0 <= j < w ->
       cell_at (Some buffer') w (i + 1) (j + 1)
       = cell_at (screen_image s) (total_columns s) (r + i) (c + j)) /\
    (forall q, 2 * w * h <= q -> load buffer' q = load buffer q).
Proof.
  intros Hs Hreg Hbuf.
  destruct (read_loads s r c w h buffer Hs Hreg Hbuf)
    as (image & buffer' & Himage & Hrun & Hlen & Hin & Hout).
  exists buffer'. split; [exact Hrun|]. split; [exact Hlen|]. split.
  - intros i j Hi Hj. rewrite Himage.
    pose proof (cell_index_row (total_columns s) r c i j) as Ecell.
    unfold cell_at.
    replace (cell_index w (i + 1) (j + 1)) with (i * (2 * w) + 2 * j)
      by (unfold cell_index; lia).
    replace (i * (2 * w) + 2 * j + 1) with (i * (2 * w) + (2 * j + 1)) by lia.
    rewrite !Hin, Ecell by lia.
    replace (cell_index (total_columns s) r c + i * (2 * total_columns s)
             + (2 * j + 1))
      with (cell_index (total_columns s) r c + i * (2 * total_columns s)
            + 2 * j + 1) by lia.
    reflexivity.
  - intros q Hq. apply Hout. lia.
Qed.

Lemma read_spec_witness :
  exists buffer',
    read 2 3 2 2 (replicate 9 0) small_screen = Some buffer' /\
    cell_at (Some buffer') 2 2 1 = Some (32, 7) /\
    load buffer' 8 = Some 0.
Proof.
  destruct (read_spec small_screen 2 3 2 2 (replicate 9 0))
    as (buffer' & Hrun & _ & Hin & Hout).
  - apply small_screen_ok.
  - unfold region_ok. simpl. lia.
  - simpl. lia.
  - exists buffer'. split; [exact Hrun|]. split.
    + transitivity
        (cell_at (screen_image small_screen) (total_columns small_screen)
           (2 + 1) (3 + 0));
        [exact (Hin 1 0 ltac:(lia) ltac:(lia))|reflexivity].
    + rewrite Hout by lia. reflexivity.
Defined.

(** X7. On a region inside the screen and with a buffer of at least
    [width * height] bytes [read_text] returns; byte [i * width + j] of the
    buffer is the character of the cell at row [i] and column [j] of the
    region, whatever its attribute; the bytes of the buffer past
    [width * height] are kept. *)
Theorem read_text_spec (s : scr) (r c w h : Z) (buffer : list Z) :
  session_ok s ->
  region_ok (total_rows s) (total_columns s) r c w h ->
  w * h <= Z.of_nat (length buffer) ->
  exists buffer',
    read_text r c w h buffer s = Some buffer' /\
    length buffer' = length buffer /\
    (forall i j, 0 <= i < h -> 0 <= j < w ->
       exists ch a,
         cell_at (screen_image s) (total_columns s) (r + i) (c + j)
           = Some (ch, a) /\
         load buffer' (i * w + j) = Some ch) /\
    (forall q, w * h <= q -> load buffer' q = load buffer q).
Proof.
  intros Hs Hreg Hbuf.
  destruct (read_text_loads s r c w h buffer Hs Hreg Hbuf)
    as (image & buffer' & Himage & Hrun & Hlen & Hin & Hout).
  destruct Hs as (Hgeo & image0 & Himage0 & Hsize).
  rewrite Himage in Himage0. injection Himage0 as <-.
  exists buffer'. split; [exact Hrun|]. split; [exact Hlen|]. split.
  - intros i j Hi Hj. rewrite Himage.
    pose proof (region_row_in_image _ _ Hgeo r c w h i Hreg Hi)
      as (Hb0 & Hb1 & _).
    pose proof (cell_index_row (total_columns s) r c i j) as Ecell.
    destruct (load_in_bounds image
                (cell_index (total_columns s) (r + i) (c + j)))
      as [ch Hch]; [lia|].
    destruct (load_in_bounds image
                (cell_index (total_columns s) (r + i) (c + j) + 1))
      as [a Ha]; [lia|].
    exists ch, a. split; [apply cell_at_loads; assumption|].
    rewrite Hin, <- Ecell by lia. exact Hch.
  - intros q Hq. apply Hout. lia.
Qed.

Lemma read_text_spec_witness :
  exists buffer',
    read_text 1 1 4 3 (replicate 13 1) small_screen = Some buffer' /\
    load buffer' 5 = Some 32 /\
    load buffer' 12 = Some 1.
Proof.
  destruct (read_text_spec small_screen 1 1 4 3 (replicate 13 1))
    as (buffer' & Hrun & _ & Hin & Hout).
  - apply small_screen_ok.
  - unfold region_ok. simpl. lia.
  - simpl. lia.
  - exists buffer'. split; [exact Hrun|]. split.
    + destruct (Hin 1 1) as (ch & a & Hcell & Hload); [lia|lia|].
      vm_compute in Hcell. injection Hcell as <- <-. exact Hload.
    + rewrite Hout by lia. reflexivity.
Defined.

(** ** [print_text] *)

Lemma print_text_loop_width string :
  In 0 string ->
  forall width screen_pointer image,
  0 <= width <= Int.int_max ->
  print_text_loop string width screen_pointer image
  = write_chars (take (Z.to_nat width) (c_string string)) screen_pointer image.
Proof.
  induction string as [|ch string IH]; intros Hz width sp image Hw;
    [destruct Hz|].
  simpl. destruct (ch =? 0) eqn:E.
  - rewrite take_nil. reflexivity.
  - destruct (width =? 0) eqn:E0.
    + apply Z.eqb_eq in E0. subst width. reflexivity.
    + apply Z.eqb_neq in E0.
      replace (Z.to_nat width) with (S (Z.to_nat (width - 1))) by lia.
      simpl.
      destruct (store image sp ch) as [image1|]; [|reflexivity].
      rewrite IntFacts.sub_small by (int_range; lia).
      apply IH; [|lia].
      destruct Hz as [->|?]; [discriminate|assumption].
Qed.

(** Inside the image the stores of [write_chars] succeed; the character
    bytes hold the text and every other byte is kept. *)
Lemma write_chars_spec text :
  forall p image,
  0 <= p -> p + 2 * Z.of_nat (length text) <= Z.of_nat (length image) ->
  exists image',
    write_chars text p image = Some image' /\
    (forall j ch, text !! j = Some ch ->
       load image' (p + 2 * Z.of_nat j) = Some ch) /\
    (forall q,
       (forall j, 0 <= j < Z.of_nat (length text) -> q <> p + 2 * j) ->
       load image' q = load image q).
Proof.
  induction text as [|ch text IH]; intros p image Hp Hlen.
  - exists image. split; [reflexivity|]. split; [|reflexivity].
    intros j c Hj. discriminate.
  - simpl length in Hlen. cbn [write_chars].
    destruct (store image p ch) as [image1|] eqn:S1;
      [|rewrite store_in_bounds in S1 by lia; discriminate].
    pose proof (store_length _ _ _ _ S1) as L1.
    destruct (IH (p + 2) image1) as (image' & Hrun & Hin & Hout); try lia.
    exists image'. split; [exact Hrun|]. split.
    + intros [|j] c Hj.
      * injection Hj as <-.
        replace (p + 2 * Z.of_nat 0) with p by lia.
        rewrite Hout by (intros; lia).
        apply (load_store_eq _ _ _ _ S1).
      * replace (p + 2 * Z.of_nat (S j)) with (p + 2 + 2 * Z.of_nat j) by lia.
        apply Hin. exact Hj.
    + intros q Hq. simpl length in Hq. rewrite Hout.
      * apply (load_store_ne _ _ _ _ q S1). specialize (Hq 0). lia.
      * intros j Hj. specialize (Hq (j + 1)). lia.
Qed.

(** X8. For every row and column, and every count whose sum with the clamped
    column stays in the range of [int], [print_text] writes the first [n]
    characters of the text, where the text is the expansion cut to 1024
    characters up to its first terminator and [n] is the smallest of its
    length, the count (a count of zero standing for one) and the number of
    columns from the clamped column to the right edge.  Cell [j] from the
    clamped position on takes character [j] of the text and keeps its
    attribute; every other cell of the screen is unchanged. *)
Theorem print_text_spec (s : scr) (row column count : Z)
    (formatted : list Z) :
  session_ok s ->
  0 <= count ->
  clamp 1 (total_columns s) column + Z.max count 1 - 1 <= Int.int_max ->
  let r' := clamp 1 (total_rows s) row in
  let c' := clamp 1 (total_columns s) column in
  let text :=
    take (Z.to_nat (Z.min (Z.max count 1) (total_columns s - c' + 1)))
         (c_string (take 1024 formatted)) in
  exists image',
    print_text row column count formatted s
    = Some (set_screen_image (Some image')
              (set_work_buffer
                 (vsnprintf (work_buffer s) (maximum_print_size + 1)
                    formatted) s)) /\
    Z.of_nat (length image') = 2 * total_rows s * total_columns s /\
    c' + Z.of_nat (length text) - 1 <= total_columns s /\
    (forall j ch, text !! j = Some ch ->
       exists ch0 old,
         cell_at (screen_image s) (total_columns s) r' (c' + Z.of_nat j)
           = Some (ch0, old) /\
         cell_at (Some image') (total_columns s) r' (c' + Z.of_nat j)
           = Some (ch, old)) /\
    (forall row2 column2,
       1 <= column2 <= total_columns s ->
       ~ (row2 = r' /\ c' <= column2 < c' + Z.of_nat (length text)) ->
       cell_at (Some image') (total_columns s) row2 column2
       = cell_at (screen_image s) (total_columns s) row2 column2).
Proof.
  intros (Hgeo & image & Himage & Hsize) Hcount Hsum r' c' text.
  pose proof (geometry_bounds _ _ Hgeo) as (Hrows & Hcols & Hstride).
  assert (1 <= r' <= total_rows s) as Hr'
    by (subst r'; unfold clamp; repeat case_match; lia).
  assert (1 <= c' <= total_columns s) as Hc'
    by (subst c'; unfold clamp; repeat case_match; lia).
  set (w' := Z.min (Z.max count 1) (total_columns s - c' + 1)) in *.
  assert (1 <= w' <= total_columns s - c' + 1) as Hw' by lia.
  assert (Z.of_nat (length text) <= w') as Hlen
    by (subst text; rewrite length_take; lia).
  assert (region_ok (total_rows s) (total_columns s) r' c' w' 1) as Hreg
    by (unfold region_ok; lia).
  pose proof (region_row_in_image _ _ Hgeo r' c' w' 1 0 Hreg ltac:(lia))
    as (Hp0 & Hp1 & _).
  set (p := cell_index (total_columns s) r' c') in *.
  destruct (c_string_vsnprintf (work_buffer s) formatted) as [Ecs Hz].
  destruct (write_chars_spec text p image) as (image' & Hrun & Hin & Hout);
    try lia.
  pose proof (write_chars_frame _ _ _ _ Hrun) as [Hlen' _].
  exists image'. split.
  { unfold print_text.
    rewrite (adjust_dimensions_print _ _ _ _ _ Hgeo Hcount Hsum).
    cbn [total_columns screen_image work_buffer set_work_buffer].
    rewrite Himage, (cell_offset_small _ _ Hgeo) by lia.
    rewrite print_text_loop_width by (exact Hz || (fold c' w'; lia)).
    rewrite Ecs. fold c' w' text r' p. rewrite Hrun. reflexivity. }
  split; [lia|]. split; [lia|]. split.
  - intros j ch Hj. rewrite Himage.
    pose proof (lookup_lt_Some _ _ _ Hj) as Hjlt.
    assert (cell_index (total_columns s) r' (c' + Z.of_nat j)
            = p + 2 * Z.of_nat j) as Ecell by (unfold p, cell_index; lia).
    destruct (load_in_bounds image (p + 2 * Z.of_nat j)) as [ch0 Hch0];
      [lia|].
    destruct (load_in_bounds image (p + 2 * Z.of_nat j + 1)) as [old Hold];
      [lia|].
    exists ch0, old. rewrite <- Ecell in Hch0, Hold.
    split; [apply cell_at_loads; assumption|].
    apply cell_at_loads.
    + rewrite Ecell. apply Hin, Hj.
    + rewrite Hout; [exact Hold|]. intros i Hi. rewrite Ecell. lia.
  - intros row2 column2 Hcol Hnot. rewrite Himage.
    apply cell_at_same; apply Hout; intros j Hj E.
    + apply Hnot.
      destruct (cell_in_region_rows _ _ Hgeo r' c' w' 1 row2 column2 0 0)
        as [E' ?]; auto; try (fold p; lia).
      split; [lia|]. subst row2. unfold p, cell_index in E. lia.
    + unfold p, cell_index in E. lia.
Qed.

Lemma print_text_spec_witness :
  exists image',
    print_text 2 3 10 [72; 101; 108; 108; 111]
      (set_screen_image
         (Some [32; 7; 32; 7; 32; 7; 32; 7;
                32; 7; 32; 7; 32; 0x1E; 32; 0x2F;
                32; 7; 32; 7; 32; 7; 32; 7]) small_screen)
    = Some (set_screen_image (Some image')
              (set_work_buffer
                 (vsnprintf (work_buffer small_screen)
                    (maximum_print_size + 1) [72; 101; 108; 108; 111])
                 small_screen)) /\
    cell_at (Some image') 4 2 4 = Some (101, 0x2F) /\
    cell_at (Some image') 4 3 1 = Some (32, 7).
Proof.
  destruct (print_text_spec
              (set_screen_image
                 (Some [32; 7; 32; 7; 32; 7; 32; 7;
                        32; 7; 32; 7; 32; 0x1E; 32; 0x2F;
                        32; 7; 32; 7; 32; 7; 32; 7]) small_screen)
              2 3 10 [72; 101; 108; 108; 111])
    as (image' & Hrun & _ & _ & Hin & Hout).
  - split.
    + unfold geometry_ok. simpl. unfold Int.int_max. lia.
    + eexists. split; reflexivity.
  - lia.
  - vm_compute. discriminate.
  - exists image'. split; [exact Hrun|]. split.
    + destruct (Hin 1%nat 101) as (ch0 & old & Hold & Hnew); [reflexivity|].
      vm_compute in Hold. injection Hold as <- <-. exact Hnew.
    + transitivity
        (cell_at (Some [32; 7; 32; 7; 32; 7; 32; 7;
                        32; 7; 32; 7; 32; 0x1E; 32; 0x2F;
                        32; 7; 32; 7; 32; 7; 32; 7]) 4 3 1);
        [apply Hout|reflexivity].
      * simpl. lia.
      * vm_compute. intros [E _]. discriminate E.
Defined.

(** ** The cursor *)

(** X9. [set_cursor_position] clamps the row to [1 .. total_rows] and the
    column to [1 .. total_columns]; [get_cursor_position] then returns the
    clamped position, which is on the screen, and the position is returned
    as given when it is on the screen already.  Nothing else changes: the
    images, the physical cursor and the calls made to the terminal are the
    same. *)
Theorem cursor_position_roundtrip (s : scr) (row column : Z) :
  1 <= total_rows s -> 1 <= total_columns s ->
  let s' := set_cursor_position row column s in
  get_cursor_position s'
    = (clamp 1 (total_rows s) row, clamp 1 (total_columns s) column) /\
  1 <= (get_cursor_position s').1 <= total_rows s /\
  1 <= (get_cursor_position s').2 <= total_columns s /\
  (1 <= row <= total_rows s -> 1 <= column <= total_columns s ->
   get_cursor_position s' = (row, column)) /\
  set_cursor_position (virtual_row s') (virtual_column s') s' = s' /\
  screen_image s' = screen_image s /\
  physical_image s' = physical_image s /\
  (physical_row s', physical_column s') = (physical_row s, physical_column s) /\
  trace s' = trace s.
Proof.
  intros Hrows Hcols s'.
  assert (get_cursor_position s'
          = (clamp 1 (total_rows s) row, clamp 1 (total_columns s) column))
    as E by reflexivity.
  split; [exact E|]. rewrite E. cbn [fst snd].
  split; [unfold clamp; repeat case_match; lia|].
  split; [unfold clamp; repeat case_match; lia|].
  split.
  { intros Hr Hc. unfold clamp. repeat case_match; try lia. reflexivity. }
  split; [|repeat split].
  subst s'. unfold set_cursor_position.
  cbn [virtual_row virtual_column total_rows total_columns set_virtual_cursor].
  repeat case_match; try lia; reflexivity.
Qed.

Lemma cursor_position_roundtrip_witness :
  get_cursor_position (set_cursor_position 0 9 small_screen) = (1, 4) /\
  get_cursor_position (set_cursor_position 2 3 small_screen) = (2, 3).
Proof.
  destruct (cursor_position_roundtrip small_screen 0 9) as (E & _);
    [simpl; lia|simpl; lia|].
  destruct (cursor_position_roundtrip small_screen 2 3)
    as (_ & _ & _ & E' & _); [simpl; lia|simpl; lia|].
  split; [exact E|apply E'; simpl; lia].
Defined.

(** ** What [refresh] sends to the terminal *)

Lemma scan_step_ok s s' lo hi t :
  scan_step s s' lo hi t -> session_ok s -> shadow_ok s ->
  session_ok s' /\ shadow_ok s'.
Proof.
  intros (Er & Ec & Ei & _ & _ & _ & physical & physical' & Hp & Hp' & Hlen & _)
         (Hgeo & Himage) (physical0 & Hp0 & Hsize).
  rewrite Hp in Hp0. injection Hp0 as <-.
  unfold session_ok, shadow_ok. rewrite Er, Ec, Ei.
  split; [split; assumption|].
  exists physical'. split; [exact Hp'|lia].
Qed.

Lemma scan_step_differs s s' lo hi t rc :
  scan_step s s' lo hi t ->
  ~ (lo <= cell_index (total_columns s) rc.1 rc.2 < hi) ->
  ~ (lo <= cell_index (total_columns s) rc.1 rc.2 + 1 < hi) ->
  differs s' rc = differs s rc.
Proof.
  intros (Er & Ec & Ei & _ & _ & _ & physical & physical' & Hp & Hp' & Hlen
          & Hout) H0 H1.
  unfold differs. rewrite Ec, Ei, Hp, Hp'. unfold cell_at at 2 4.
  rewrite (Hout _ H0), (Hout _ H1). reflexivity.
Qed.

Lemma scan_step_trans s1 s2 s3 lo mid hi t1 t2 :
  lo <= mid <= hi ->
  scan_step s1 s2 lo mid t1 -> scan_step s2 s3 mid hi t2 ->
  scan_step s1 s3 lo hi (t1 ++ t2).
Proof.
  intros Hmid
    (Er & Ec & Ei & Evr & Evc & Et & physical & physical' & Hp & Hp' & Hlen
     & Hout)
    (Er2 & Ec2 & Ei2 & Evr2 & Evc2 & Et2 & physical2 & physical2' & Hp2 & Hp2'
     & Hlen2 & Hout2).
  rewrite Hp' in Hp2. injection Hp2 as <-.
  unfold scan_step. rewrite Er2, Ec2, Ei2, Evr2, Evc2, Et2, Et, app_assoc.
  repeat split; auto.
  exists physical, physical2'. repeat split; auto; [congruence|].
  intros q Hq. rewrite Hout2, Hout by lia. reflexivity.
Qed.

Lemma scan_events_nil : scan_events [] 0.
Proof. repeat split. apply Nat.le_refl. Qed.

Lemma count_events_app f t1 t2 :
  count_events f (t1 ++ t2) = (count_events f t1 + count_events f t2)%nat.
Proof. unfold count_events. rewrite List.filter_app, length_app. reflexivity. Qed.

Lemma scan_events_app t1 t2 n1 n2 :
  scan_events t1 n1 -> scan_events t2 n2 -> scan_events (t1 ++ t2) (n1 + n2).
Proof.
  intros (A1 & M1 & F1) (A2 & M2 & F2). unfold scan_events.
  rewrite !count_events_app, forallb_app, F1, F2. repeat split; lia.
Qed.

(** A scan that prints no cell sends nothing. *)
Lemma scan_events_idle t : scan_events t 0 -> t = [].
Proof.
  intros (A & M & F). destruct t as [|e t]; [reflexivity|].
  exfalso. unfold count_events in *. cbn [forallb List.filter] in *.
  apply andb_true_iff in F as [Fe _].
  destruct (is_addch e) eqn:Ea; [discriminate A|].
  destruct (is_move e) eqn:Em; [|discriminate Fe].
  rewrite A in M. cbn [length] in M. lia.
Qed.

(** One cell of the scan: a cell that differs is printed, after a move of
    the cursor when the cursor is elsewhere, and copied to the physical
    image; a cell that does not differ costs nothing. *)
Lemma refresh_cell_trace pf s row column :
  session_ok s -> shadow_ok s ->
  1 <= row <= total_rows s -> 1 <= column <= total_columns s ->
  exists s' t,
    refresh_cell pf row column s = Some s' /\
    scan_step s s' (cell_index (total_columns s) row column)
      (cell_index (total_columns s) row column + 2) t /\
    scan_events t (if differs s (row, column) then 1 else 0).
Proof.
  intros (Hgeo & image & Himage & Hsize) (physical & Hphys & Hpsize) Hrow Hcol.
  pose proof (geometry_bounds _ _ Hgeo) as (Hrows & Hcols & Hstride).
  set (index := cell_index (total_columns s) row column) in *.
  assert (0 <= index /\ index + 2 <= 2 * total_rows s * total_columns s)
    as Hindex.
  { pose proof (region_row_in_image _ _ Hgeo row column 1 1 0) as H.
    unfold region_ok in H. fold index in H. lia. }
  assert (Int.add
            (Int.mul (Int.mul (Int.sub row 1) 2) (total_columns s))
            (Int.mul 2 (Int.sub column 1)) = index) as Eindex.
  { rewrite (IntFacts.sub_small row 1) by (int_range; lia).
    rewrite (IntFacts.sub_small column 1) by (int_range; lia).
    rewrite (row_offset_small _ _ Hgeo) by lia.
    rewrite (IntFacts.mul_small 2 (column - 1)) by (int_range; lia).
    rewrite IntFacts.add_small;
      [unfold index, cell_index; lia|].
    unfold index, cell_index in Hindex. destruct Hgeo as (_ & _ & ?).
    int_range. lia. }
  assert (Int.add index 1 = index + 1) as Eindex1.
  { apply IntFacts.add_small. destruct Hgeo as (_ & _ & ?). int_range. lia. }
  destruct (load_in_bounds image index) as [c Hc]; [lia|].
  destruct (load_in_bounds image (index + 1)) as [a Ha]; [lia|].
  destruct (load_in_bounds physical index) as [pc Hpc]; [lia|].
  destruct (load_in_bounds physical (index + 1)) as [pa Hpa]; [lia|].
  assert (differs s (row, column)
          = negb ((c =? pc) && (a =? pa))) as Ediff.
  { unfold differs. rewrite Himage, Hphys. cbn [fst snd]. f_equal.
    rewrite (cell_at_loads _ _ _ _ _ _ Hc Ha).
    rewrite (cell_at_loads _ _ _ _ _ _ Hpc Hpa).
    destruct (c =? pc) eqn:Ecp; [destruct (a =? pa) eqn:Eap|].
    - apply Z.eqb_eq in Ecp, Eap. subst. apply bool_decide_eq_true. reflexivity.
    - apply Z.eqb_neq in Eap. apply bool_decide_eq_false. congruence.
    - apply Z.eqb_neq in Ecp. apply bool_decide_eq_false. congruence. }
  rewrite Ediff.
  unfold refresh_cell. rewrite Eindex, Eindex1, Himage, Hphys.
  rewrite Hc, Hpc, Ha, Hpa.
  assert (forall same,
            (if c =? pc then Some (a =? pa) else Some false) = Some same ->
            same = (c =? pc) && (a =? pa)) as Hsame.
  { intros same H. destruct (c =? pc); injection H as <-; reflexivity. }
  destruct (if c =? pc then Some (a =? pa) else Some false) as [same|] eqn:Es;
    [|destruct (c =? pc); discriminate].
  rewrite <- (Hsame same eq_refl). clear Hsame Es.
  destruct same.
  - exists s, []. split; [reflexivity|]. split; [|apply scan_events_nil].
    unfold scan_step. rewrite app_nil_r. repeat split.
    exists physical, physical. repeat split; auto.
  - destruct (store physical index c) as [physical1|] eqn:S1;
      [|rewrite store_in_bounds in S1 by lia; discriminate].
    pose proof (store_length _ _ _ _ S1) as L1.
    destruct (store physical1 (index + 1) a) as [physical2|] eqn:S2;
      [|rewrite store_in_bounds in S2 by lia; discriminate].
    pose proof (store_length _ _ _ _ S2) as L2.
    assert (forall q, ~ (index <= q < index + 2) ->
                      load physical2 q = load physical q) as Hout.
    { intros q Hq. rewrite (load_store_ne _ _ _ _ q S2) by lia.
      apply (load_store_ne _ _ _ _ q S1). lia. }
    destruct (negb (row =? physical_row s)
              || negb (column =? physical_column s)).
    + eexists. eexists [move _ _; addch _].
      split; [reflexivity|]. split.
      * unfold scan_step.
        cbn [total_rows total_columns screen_image virtual_row virtual_column
             trace physical_image emit set_physical_cursor set_physical_image].
        rewrite <- app_assoc. repeat split.
        exists physical, physical2. repeat split; auto. congruence.
      * repeat split. cbn. lia.
    + eexists. eexists [addch _].
      split; [reflexivity|]. split.
      * unfold scan_step.
        cbn [total_rows total_columns screen_image virtual_row virtual_column
             trace physical_image emit set_physical_cursor set_physical_image].
        repeat split.
        exists physical, physical2. repeat split; auto. congruence.
      * repeat split. cbn. lia.
Qed.

(** The columns of one row, from column [c0] on. *)
Lemma refresh_columns_trace pf r n :
  forall c0 s,
  session_ok s -> shadow_ok s ->
  1 <= Z.of_nat r <= total_rows s ->
  (1 <= c0)%nat -> Z.of_nat c0 + Z.of_nat n - 1 <= total_columns s ->
  exists s' t,
    refresh_columns pf n (Z.of_nat r) (Z.of_nat c0) s = Some s' /\
    scan_step s s'
      (cell_index (total_columns s) (Z.of_nat r) (Z.of_nat c0))
      (cell_index (total_columns s) (Z.of_nat r) (Z.of_nat c0 + Z.of_nat n)) t /\
    scan_events t (length (List.filter (differs s) (cells_of_row r c0 n))).
Proof.
  induction n as [|n IH]; intros c0 s Hs Hsh Hr Hc0 Hn.
  - exists s, []. split; [reflexivity|]. split; [|apply scan_events_nil].
    destruct Hsh as (physical & Hp & _).
    unfold scan_step. rewrite app_nil_r. repeat split.
    exists physical, physical. repeat split; auto.
  - cbn [refresh_columns].
    destruct (refresh_cell_trace pf s (Z.of_nat r) (Z.of_nat c0) Hs Hsh Hr
                ltac:(lia)) as (s1 & t1 & -> & Hstep1 & Hev1).
    destruct (scan_step_ok _ _ _ _ _ Hstep1 Hs Hsh) as [Hs1 Hsh1].
    assert (Hstep := Hstep1). destruct Hstep as (Er & Ec & _).
    destruct Hs as (Hgeo & _).
    pose proof (geometry_bounds _ _ Hgeo) as (_ & Hcols & Hstride).
    rewrite IntFacts.add_small by (int_range; lia).
    replace (Z.of_nat c0 + 1) with (Z.of_nat (S c0)) by lia.
    destruct (IH (S c0) s1 Hs1 Hsh1) as (s' & t2 & -> & Hstep2 & Hev2);
      try lia.
    rewrite Ec in Hstep2.
    exists s', (t1 ++ t2). split; [reflexivity|]. split.
    + replace (Z.of_nat c0 + Z.of_nat (S n))
        with (Z.of_nat (S c0) + Z.of_nat n) by lia.
      apply (scan_step_trans s s1 s' _
               (cell_index (total_columns s) (Z.of_nat r) (Z.of_nat (S c0))));
        [unfold cell_index; lia| |exact Hstep2].
      replace (cell_index (total_columns s) (Z.of_nat r) (Z.of_nat (S c0)))
        with (cell_index (total_columns s) (Z.of_nat r) (Z.of_nat c0) + 2)
        by (unfold cell_index; lia).
      exact Hstep1.
    + unfold cells_of_row. cbn [seq map List.filter].
      replace (length
                 (if differs s (Z.of_nat r, Z.of_nat c0)
                  then (Z.of_nat r, Z.of_nat c0)
                       :: List.filter (differs s)
                            (map (fun c => (Z.of_nat r, Z.of_nat c))
                               (seq (S c0) n))
                  else List.filter (differs s)
                         (map (fun c => (Z.of_nat r, Z.of_nat c))
                            (seq (S c0) n))))
        with ((if differs s (Z.of_nat r, Z.of_nat c0) then 1 else 0)
              + length (List.filter (differs s) (cells_of_row r (S c0) n)))%nat
        by (destruct (differs s (Z.of_nat r, Z.of_nat c0)); reflexivity).
      apply scan_events_app; [exact Hev1|].
      replace (List.filter (differs s) (cells_of_row r (S c0) n))
        with (List.filter (differs s1) (cells_of_row r (S c0) n));
        [exact Hev2|].
      apply filter_ext_in. intros rc Hrc.
      apply in_map_iff in Hrc as (c & <- & Hc). apply in_seq in Hc.
      apply (scan_step_differs _ _ _ _ _ _ Hstep1);
        cbn [fst snd]; unfold cell_index; lia.
Qed.

(** The rows of the screen, from row [r0] on. *)
Lemma refresh_rows_trace pf n :
  forall r0 s,
  session_ok s -> shadow_ok s ->
  (1 <= r0)%nat -> Z.of_nat r0 + Z.of_nat n - 1 <= total_rows s ->
  exists s' t,
    refresh_rows pf n (Z.of_nat r0) s = Some s' /\
    scan_step s s'
      (cell_index (total_columns s) (Z.of_nat r0) 1)
      (cell_index (total_columns s) (Z.of_nat r0 + Z.of_nat n) 1) t /\
    scan_events t
      (length
         (List.filter (differs s)
            (flat_map
               (fun r => cells_of_row r 1 (Z.to_nat (total_columns s)))
               (seq r0 n)))).
Proof.
  induction n as [|n IH]; intros r0 s Hs Hsh Hr0 Hn.
  - exists s, []. split; [reflexivity|]. split; [|apply scan_events_nil].
    destruct Hsh as (physical & Hp & _).
    unfold scan_step. rewrite app_nil_r. repeat split.
    exists physical, physical. repeat split; auto.
  - cbn [refresh_rows].
    assert (Hs0 := Hs). destruct Hs0 as (Hgeo & _).
    pose proof (geometry_bounds _ _ Hgeo) as (Hrows & Hcols & _).
    assert (2 * total_rows s <= Int.int_max) as Hrows2
      by (destruct Hgeo as (? & ? & ?); nia).
    destruct (refresh_columns_trace pf r0 (Z.to_nat (total_columns s)) 1%nat s
                Hs Hsh ltac:(lia) ltac:(lia) ltac:(lia))
      as (s1 & t1 & Hrun1 & Hstep1 & Hev1).
    change (Z.of_nat 1) with 1 in Hrun1, Hstep1. rewrite Hrun1.
    destruct (scan_step_ok _ _ _ _ _ Hstep1 Hs Hsh) as [Hs1 Hsh1].
    assert (Hstep := Hstep1). destruct Hstep as (Er & Ec & _).
    rewrite IntFacts.add_small by (int_range; lia).
    replace (Z.of_nat r0 + 1) with (Z.of_nat (S r0)) by lia.
    destruct (IH (S r0) s1 Hs1 Hsh1) as (s' & t2 & -> & Hstep2 & Hev2);
      try lia.
    rewrite Ec in Hstep2, Hev2.
    exists s', (t1 ++ t2). split; [reflexivity|]. split.
    + replace (Z.of_nat r0 + Z.of_nat (S n))
        with (Z.of_nat (S r0) + Z.of_nat n) by lia.
      apply (scan_step_trans s s1 s' _
               (cell_index (total_columns s) (Z.of_nat (S r0)) 1));
        [unfold cell_index; nia| |exact Hstep2].
      replace (cell_index (total_columns s) (Z.of_nat (S r0)) 1)
        with (cell_index (total_columns s) (Z.of_nat r0)
                (1 + Z.of_nat (Z.to_nat (total_columns s))))
        by (unfold cell_index; lia).
      exact Hstep1.
    + cbn [seq flat_map]. rewrite List.filter_app, length_app.
      apply scan_events_app; [exact Hev1|].
      replace (List.filter (differs s)
                 (flat_map
                    (fun r => cells_of_row r 1 (Z.to_nat (total_columns s)))
                    (seq (S r0) n)))
        with (List.filter (differs s1)
                (flat_map
                   (fun r => cells_of_row r 1 (Z.to_nat (total_columns s)))
                   (seq (S r0) n)));
        [exact Hev2|].
      apply filter_ext_in. intros rc Hrc.
      apply in_flat_map in Hrc as (r & Hr & Hrc). apply in_seq in Hr.
      apply in_map_iff in Hrc as (c & <- & Hc). apply in_seq in Hc.
      apply (scan_step_differs _ _ _ _ _ _ Hstep1);
        cbn [fst snd]; unfold cell_index; nia.
Qed.

Lemma filter_all_false {A} (f : A -> bool) l :
  (forall x, f x = false) -> List.filter f l = [].
Proof.
  intros H. induction l as [|x l IH]; [reflexivity|].
  cbn [List.filter]. rewrite H. exact IH.
Qed.

(** The whole of [refresh]. *)
Lemma refresh_trace pf s :
  session_ok s -> shadow_ok s ->
  exists s' t,
    refresh pf s = Some s' /\
    total_rows s' = total_rows s /\
    total_columns s' = total_columns s /\
    screen_image s' = screen_image s /\
    physical_image s' = screen_image s /\
    virtual_row s' = virtual_row s /\
    virtual_column s' = virtual_column s /\
    trace s'
    = trace s ++ t
      ++ [move (Int.sub (virtual_row s) 1) (Int.sub (virtual_column s) 1);
          curses_refresh] /\
    scan_events t
      (length
         (cells_changed (total_rows s) (total_columns s)
            (screen_image s) (physical_image s))).
Proof.
  intros Hs Hsh.
  destruct (refresh_spec pf s Hs Hsh) as (s2 & Hrun2 & _ & Esync & _).
  assert (Hs0 := Hs). destruct Hs0 as (Hgeo & _).
  pose proof (geometry_bounds _ _ Hgeo) as (Hrows & Hcols & _).
  destruct (refresh_rows_trace pf (Z.to_nat (total_rows s)) 1%nat s Hs Hsh
              ltac:(lia) ltac:(lia))
    as (s1 & t & Hrun & (Er & Ec & Ei & Evr & Evc & Et & _) & Hev).
  change (Z.of_nat 1) with 1 in Hrun.
  unfold refresh in Hrun2 |- *. rewrite Hrun in Hrun2 |- *.
  injection Hrun2 as <-.
  eexists. exists t. split; [reflexivity|].
  cbn [total_rows total_columns screen_image physical_image virtual_row
       virtual_column trace emit set_physical_cursor] in Esync |- *.
  rewrite Et, Evr, Evc, <- !app_assoc.
  repeat (split; [assumption || reflexivity|]).
  exact Hev.
Qed.

(** X10. [refresh] is diff-based: on an open session it sends to the
    terminal one [addch] for each cell at which the virtual and the physical
    image differ and no other, at most one [move] per cell printed, and then
    one [move] to the virtual cursor and one curses [refresh]. *)
Theorem refresh_cost (pf : platform) (s : scr) :
  session_ok s -> shadow_ok s ->
  exists s' t,
    refresh pf s = Some s' /\
    trace s'
    = trace s ++ t
      ++ [move (Int.sub (virtual_row s) 1) (Int.sub (virtual_column s) 1);
          curses_refresh] /\
    count_events is_addch t
    = length (cells_changed (total_rows s) (total_columns s)
                (screen_image s) (physical_image s)) /\
    (count_events is_move t <= count_events is_addch t)%nat /\
    forall e, In e t -> is_addch e = true \/ is_move e = true.
Proof.
  intros Hs Hsh.
  destruct (refresh_trace pf s Hs Hsh)
    as (s' & t & Hrun & _ & _ & _ & _ & _ & _ & Et & Ha & Hm & Hf).
  exists s', t. repeat split; auto.
  intros e He. rewrite forallb_forall in Hf.
  apply orb_true_iff, Hf, He.
Qed.

Lemma refresh_cost_witness :
  exists s' t,
    refresh small_platform small_screen = Some s' /\
    trace s' = t ++ [move 0 0; curses_refresh] /\
    count_events is_addch t = 12%nat.
Proof.
  destruct (refresh_cost small_platform small_screen)
    as (s' & t & Hrun & Et & Ha & _); [apply small_screen_ok ..|].
  exists s', t. split; [exact Hrun|]. split; [exact Et|exact Ha].
Defined.

(** X11. A second [refresh] right after a first one prints no cell: it
    sends the [move] to the virtual cursor and the curses [refresh] and
    nothing else, and the images stay as the first one left them. *)
Theorem refresh_twice (pf : platform) (s : scr) :
  session_ok s -> shadow_ok s ->
  exists s1 s2,
    refresh pf s = Some s1 /\
    refresh pf s1 = Some s2 /\
    trace s2
    = trace s1
      ++ [move (Int.sub (virtual_row s) 1) (Int.sub (virtual_column s) 1);
          curses_refresh] /\
    screen_image s2 = screen_image s /\
    physical_image s2 = screen_image s.
Proof.
  intros Hs Hsh.
  destruct (refresh_trace pf s Hs Hsh)
    as (s1 & t1 & Hrun1 & Er & Ec & Ei & Ep & Evr & Evc & _ & _).
  assert (session_ok s1 /\ shadow_ok s1) as [Hs1 Hsh1].
  { unfold session_ok, shadow_ok. rewrite Er, Ec, Ei, Ep.
    destruct Hs as (Hgeo & Himage). split; [split|]; assumption. }
  destruct (refresh_trace pf s1 Hs1 Hsh1)
    as (s2 & t2 & Hrun2 & _ & _ & Ei2 & Ep2 & _ & _ & Et2 & Hev2).
  assert (cells_changed (total_rows s1) (total_columns s1)
            (screen_image s1) (physical_image s1) = []) as Esame.
  { unfold cells_changed. rewrite Ep, Ei.
    apply filter_all_false. intros rc.
    rewrite bool_decide_eq_true_2 by reflexivity. reflexivity. }
  rewrite Esame in Hev2. apply scan_events_idle in Hev2. subst t2.
  exists s1, s2. rewrite Evr, Evc in Et2.
  repeat split; auto; congruence.
Qed.

Lemma refresh_twice_witness :
  exists s1 s2,
    refresh small_platform small_screen = Some s1 /\
    refresh small_platform s1 = Some s2 /\
    trace s2 = trace s1 ++ [move 0 0; curses_refresh].
Proof.
  destruct (refresh_twice small_platform small_screen)
    as (s1 & s2 & Hrun1 & Hrun2 & Et & _); [apply small_screen_ok ..|].
  exists s1, s2. split; [exact Hrun1|]. split; [exact Hrun2|exact Et].
Defined.

(** ** What [redraw] sends to the terminal *)

Lemma new_character_emit_all pf t :
  forall s c a, new_character pf (emit_all t s) c a = new_character pf s c a.
Proof.
  induction t as [|e t IH]; intros s c a; [reflexivity|].
  cbn [emit_all foldl]. apply (IH (emit e s)).
Qed.

(** The columns of a row: one [addch] per cell, in order. *)
Lemma redraw_columns_trace pf image n :
  forall p s,
  screen_image s = Some image ->
  0 <= p -> p + 2 * Z.of_nat n <= Z.of_nat (length image) ->
  exists t,
    redraw_columns pf n p s = Some (p + 2 * Z.of_nat n, emit_all t s) /\
    length t = n /\
    forall j, (j < n)%nat ->
      exists c a,
        load image (p + 2 * Z.of_nat j) = Some c /\
        load image (p + 2 * Z.of_nat j + 1) = Some a /\
        t !! j = Some (addch (new_character pf s c a)).
Proof.
  induction n as [|n IH]; intros p s Himage Hp Hlen.
  - exists []. split; [simpl; do 2 f_equal; lia|]. split; [reflexivity|].
    intros j Hj. lia.
  - cbn [redraw_columns]. rewrite Himage.
    destruct (load_in_bounds image p) as [c Hc]; [lia|].
    destruct (load_in_bounds image (p + 1)) as [a Ha]; [lia|].
    rewrite Hc, Ha.
    destruct (IH (p + 2) (emit (addch (new_character pf s c a)) s))
      as (t & -> & Hlt & Hin); try lia; [exact Himage|].
    exists (addch (new_character pf s c a) :: t).
    split; [do 2 f_equal; lia|]. split; [simpl; lia|].
    intros [|j] Hj.
    + exists c, a. replace (p + 2 * Z.of_nat 0) with p by lia.
      repeat split; assumption.
    + destruct (Hin j ltac:(lia)) as (c' & a' & Hc' & Ha' & Hj').
      exists c', a'.
      replace (p + 2 * Z.of_nat (S j)) with (p + 2 + 2 * Z.of_nat j) by lia.
      repeat split; assumption.
Qed.

(** The rows: a [move] to the start of the row, then its cells. *)
Lemma redraw_rows_trace pf image n :
  forall row s,
  geometry_ok (total_rows s) (total_columns s) ->
  screen_image s = Some image ->
  Z.of_nat (length image) = 2 * total_rows s * total_columns s ->
  1 <= row -> row + Z.of_nat n - 1 <= total_rows s ->
  exists t,
    redraw_rows pf n row s = Some (emit_all t s) /\
    length t = (n * S (Z.to_nat (total_columns s)))%nat /\
    forall i, (i < n)%nat ->
      t !! (i * S (Z.to_nat (total_columns s)))%nat
        = Some (move (row + Z.of_nat i - 1) 0) /\
      forall j, (j < Z.to_nat (total_columns s))%nat ->
        exists c a,
          cell_at (Some image) (total_columns s)
            (row + Z.of_nat i) (Z.of_nat j + 1) = Some (c, a) /\
          t !! (i * S (Z.to_nat (total_columns s)) + S j)%nat
            = Some (addch (new_character pf s c a)).
Proof.
  induction n as [|n IH]; intros row s Hgeo Himage Hsize Hrow Hn.
  - exists []. split; [reflexivity|]. split; [reflexivity|]. intros i Hi. lia.
  - cbn [redraw_rows].
    pose proof (geometry_bounds _ _ Hgeo) as (Hrows & Hcols & Hstride).
    assert (2 * total_rows s <= Int.int_max) as Hrows2
      by (destruct Hgeo as (? & ? & ?); nia).
    rewrite (IntFacts.sub_small row 1) by (int_range; lia).
    set (s1 := emit (move (row - 1) 0) s).
    change (total_columns s1) with (total_columns s).
    rewrite (row_offset_small _ _ Hgeo) by lia.
    set (C := Z.to_nat (total_columns s)).
    destruct (redraw_columns_trace pf image C
                ((row - 1) * (2 * total_columns s)) s1)
      as (t1 & -> & Hl1 & Hin1); try (reflexivity || exact Himage || nia).
    rewrite IntFacts.add_small by (int_range; lia).
    destruct (emit_all_fields t1 s1) as (Er & Ec & Ei & _).
    destruct (IH (row + 1) (emit_all t1 s1)) as (t2 & -> & Hl2 & Hin2);
      try (rewrite ?Er, ?Ec, ?Ei; assumption || (simpl; lia)).
    rewrite Ec in Hl2, Hin2.
    change (total_columns s1) with (total_columns s) in Hl2, Hin2. fold C in Hl2, Hin2.
    exists (move (row - 1) 0 :: t1 ++ t2). split.
    { rewrite emit_all_app. reflexivity. }
    split; [cbn [length]; rewrite length_app; lia|].
    intros [|i] Hi.
    + split; [cbn; do 2 f_equal; lia|].
      intros j Hj. destruct (Hin1 j Hj) as (c & a & Hc & Ha & Hlook).
      exists c, a. split.
      * apply cell_at_loads.
        -- rewrite <- Hc. f_equal. unfold cell_index. lia.
        -- rewrite <- Ha. f_equal. unfold cell_index. lia.
      * change ((t1 ++ t2) !! j = Some (addch (new_character pf s c a))).
        rewrite lookup_app_l by lia. exact Hlook.
    + destruct (Hin2 i ltac:(lia)) as (Hmove & Hcells).
      assert (forall k, (move (row - 1) 0 :: t1 ++ t2) !! (S i * S C + k)%nat
                        = t2 !! (i * S C + k)%nat) as Eshift.
      { intros k.
        replace (S i * S C + k)%nat with (S (C + (i * S C + k)))%nat by lia.
        change ((t1 ++ t2) !! (C + (i * S C + k))%nat
                = t2 !! (i * S C + k)%nat).
        rewrite lookup_app_r by lia. f_equal. lia. }
      split.
      * pose proof (Eshift 0%nat) as E0. rewrite !Nat.add_0_r in E0.
        rewrite E0, Hmove. do 2 f_equal. lia.
      * intros j Hj. destruct (Hcells j Hj) as (c & a & Hcell & Hlook).
        exists c, a. split.
        -- rewrite <- Hcell. f_equal. lia.
        -- rewrite Eshift, Hlook. rewrite new_character_emit_all.
           reflexivity.
Qed.

(** X12. [redraw] repaints the whole screen from the virtual image: for each
    row a [move] to its first column and then one [addch] per cell, left to
    right, with the character the cell holds; then a [move] to the virtual
    cursor and a curses [refresh].  Nothing but the calls made changes: the
    physical image and the recorded position of the physical cursor are not
    updated. *)
Theorem redraw_repaints (pf : platform) (s : scr) :
  session_ok s ->
  exists t,
    redraw pf s
    = Some (emit_all
              (t ++ [move (Int.sub (virtual_row s) 1)
                          (Int.sub (virtual_column s) 1);
                     curses_refresh]) s) /\
    Z.of_nat (length t) = total_rows s * (total_columns s + 1) /\
    forall row column,
      1 <= row <= total_rows s -> 1 <= column <= total_columns s ->
      t !! Z.to_nat ((row - 1) * (total_columns s + 1))
        = Some (move (row - 1) 0) /\
      exists c a,
        cell_at (screen_image s) (total_columns s) row column = Some (c, a) /\
        t !! Z.to_nat ((row - 1) * (total_columns s + 1) + column)
          = Some (addch (new_character pf s c a)).
Proof.
  intros (Hgeo & image & Himage & Hsize).
  pose proof (geometry_bounds _ _ Hgeo) as (Hrows & Hcols & _).
  destruct (redraw_rows_trace pf image (Z.to_nat (total_rows s)) 1 s)
    as (t & Hrun & Hlen & Hin); auto; try lia.
  exists t. split.
  { unfold redraw. rewrite Hrun.
    destruct (emit_all_fields t s) as (_ & _ & _ & _ & _ & -> & -> & _).
    rewrite <- emit_all_app. reflexivity. }
  split; [nia|].
  intros row column Hrow Hcol.
  destruct (Hin (Z.to_nat (row - 1)) ltac:(lia)) as (Hmove & Hcells).
  destruct (Hcells (Z.to_nat (column - 1)) ltac:(lia))
    as (c & a & Hcell & Hlook).
  split.
  - replace (Z.to_nat ((row - 1) * (total_columns s + 1)))
      with (Z.to_nat (row - 1) * S (Z.to_nat (total_columns s)))%nat by nia.
    rewrite Hmove. do 2 f_equal. lia.
  - exists c, a. split.
    + rewrite Himage, <- Hcell. f_equal; lia.
    + replace (Z.to_nat ((row - 1) * (total_columns s + 1) + column))
        with (Z.to_nat (row - 1) * S (Z.to_nat (total_columns s))
              + S (Z.to_nat (column - 1)))%nat by nia.
      exact Hlook.
Qed.

Lemma redraw_repaints_witness :
  exists t,
    redraw small_platform small_screen
    = Some (emit_all (t ++ [move 0 0; curses_refresh]) small_screen) /\
    length t = 15%nat /\
    t !! 5%nat = Some (move 1 0) /\
    t !! 7%nat = Some (addch (mkChtype (Raw 32) false false None)).
Proof.
  destruct (redraw_repaints small_platform small_screen)
    as (t & Hrun & Hlen & Hin); [apply small_screen_ok|].
  exists t. split; [exact Hrun|]. split; [simpl in Hlen; lia|].
  destruct (Hin 2 2) as (Hmove & c & a & Hcell & Hlook);
    [simpl; lia|simpl; lia|].
  split; [exact Hmove|].
  vm_compute in Hcell. injection Hcell as <- <-. exact Hlook.
Defined.

(** ** [clear_screen] and the first [initialize] *)

(** The settings that calls to the terminal leave alone. *)
Lemma emit_all_settings t :
  forall s,
  color_works (emit_all t s) = color_works s /\
  box_character_map (emit_all t s) = box_character_map s /\
  colors_map (emit_all t s) = colors_map s /\
  max_rows (emit_all t s) = max_rows s /\
  max_columns (emit_all t s) = max_columns s /\
  physical_row (emit_all t s) = physical_row s /\
  physical_column (emit_all t s) = physical_column s /\
  work_buffer (emit_all t s) = work_buffer s.
Proof.
  induction t as [|e t IH]; intros s; [repeat split|].
  cbn [emit_all foldl]. destruct (IH (emit e s)) as (? & ? & ? & ? & ? & ? & ? & ?).
  repeat split; assumption.
Qed.

(** Two images of one size that hold the same bytes in every cell. *)
Lemma blank_images_equal n (image physical : list Z) :
  0 <= n ->
  length image = Z.to_nat (2 * n) -> length physical = Z.to_nat (2 * n) ->
  (forall j, 0 <= j < n ->
     load image (2 * j) = Some 32 /\ load image (2 * j + 1) = Some 7 /\
     load physical (2 * j) = Some 32 /\ load physical (2 * j + 1) = Some 7) ->
  image = physical.
Proof.
  intros Hn Hli Hlp Hcells. apply image_ext; [congruence|].
  intros p Hp.
  pose proof (Z.div_mod p 2 ltac:(lia)) as Hdm.
  pose proof (Z.mod_pos_bound p 2 ltac:(lia)) as Hmod.
  destruct (Hcells (p / 2)) as (H0 & H1 & H2 & H3); [lia|].
  destruct (Z.eq_dec (p mod 2) 0) as [E|E].
  - replace p with (2 * (p / 2)) by lia. congruence.
  - replace p with (2 * (p / 2) + 1) by lia. congruence.
Qed.

(** What [clear_screen] does, field by field. *)
Lemma clear_screen_fields s s' :
  clear_screen s = Some s' ->
  trace s' = trace s ++ [werase; move 0 0; curses_refresh] /\
  (virtual_row s', virtual_column s') = (1, 1) /\
  (physical_row s', physical_column s') = (1, 1) /\
  color_works s' = color_works s /\
  box_character_map s' = box_character_map s /\
  colors_map s' = colors_map s /\
  max_rows s' = max_rows s /\
  max_columns s' = max_columns s /\
  work_buffer s' = work_buffer s.
Proof.
  unfold clear_screen.
  cbn [total_rows total_columns screen_image physical_image emit].
  destruct (screen_image s) as [image|]; [|discriminate].
  destruct (physical_image s) as [physical|]; [|discriminate].
  destruct (clear_screen_loop _ _ _ _) as [[image' physical']|];
    [|discriminate].
  intros H. injection H as <-. cbn. rewrite <- !app_assoc.
  repeat split.
Qed.

(** X13. On an open session [clear_screen] returns; afterwards every cell of
    the virtual image and of the physical image is a space in white on black
    (in colour and in monochrome alike), the two images are equal, both
    cursors are at the home position, and the terminal has been sent an
    erase, a move to the corner and a curses [refresh]. *)
Theorem clear_screen_blanks (s : scr) :
  session_ok s -> shadow_ok s ->
  exists s',
    clear_screen s = Some s' /\
    (forall row column,
       1 <= row <= total_rows s -> 1 <= column <= total_columns s ->
       cell_at (screen_image s') (total_columns s) row column
         = Some (32, Z.lor WHITE REV_BLACK) /\
       cell_at (physical_image s') (total_columns s) row column
         = Some (32, Z.lor WHITE REV_BLACK)) /\
    physical_image s' = screen_image s' /\
    get_cursor_position s' = (1, 1) /\
    (physical_row s', physical_column s') = (1, 1) /\
    (total_rows s', total_columns s') = (total_rows s, total_columns s) /\
    trace s' = trace s ++ [werase; move 0 0; curses_refresh].
Proof.
  intros Hs Hsh.
  destruct (clear_screen_spec s Hs Hsh)
    as (s' & image' & physical' & t & Hrun & Er & Ec & _ & Himage & Hphys & _
        & _ & _ & _ & Hli & Hlp & Hcells).
  destruct (clear_screen_fields s s' Hrun) as (Et & Ev & Ep & _).
  destruct Hs as ((Hrows & Hcols & _) & _).
  exists s'. split; [exact Hrun|]. rewrite Himage, Hphys, Er, Ec. split.
  { intros row column Hrow Hcol.
    destruct (Hcells ((row - 1) * total_columns s + (column - 1)))
      as (H0 & H1 & H2 & H3); [nia|].
    assert (cell_index (total_columns s) row column
            = 2 * ((row - 1) * total_columns s + (column - 1))) as E
      by (unfold cell_index; lia).
    split; apply cell_at_loads; rewrite E; assumption. }
  split.
  { f_equal. symmetry.
    apply (blank_images_equal (total_rows s * total_columns s));
      [nia| | |exact Hcells].
    - rewrite Hli. f_equal. lia.
    - rewrite Hlp. f_equal. lia. }
  repeat split; assumption.
Qed.

Lemma clear_screen_blanks_witness :
  exists s',
    clear_screen
      (set_physical_image (Some (replicate 24 65))
         (set_screen_image (Some (replicate 24 66)) small_screen)) = Some s' /\
    cell_at (screen_image s') 4 3 4 = Some (32, 7) /\
    physical_image s' = screen_image s'.
Proof.
  destruct (clear_screen_blanks
              (set_physical_image (Some (replicate 24 65))
                 (set_screen_image (Some (replicate 24 66)) small_screen)))
    as (s' & Hrun & Hcells & Esame & _).
  - split.
    + unfold geometry_ok. simpl. unfold Int.int_max. lia.
    + eexists. split; reflexivity.
  - eexists. split; reflexivity.
  - exists s'. split; [exact Hrun|]. split; [|exact Esame].
    apply (Hcells 3 4); simpl; lia.
Defined.

(** What [initialize_colors] decides. *)
Lemma initialize_colors_color_works pf s s' :
  initialize_colors pf s = Some s' ->
  color_works s' = start_color_ok pf /\
  box_character_map s' = box_character_map s.
Proof.
  unfold initialize_colors.
  destruct (start_color_ok pf); cbn [negb].
  - set (max_colors := if to_short (COLOR_PAIRS pf) >? 64 then 64
                       else to_short (COLOR_PAIRS pf)).
    assert (max_colors <= 64) by (subst max_colors; case_match; lia).
    assert (1 + Z.of_nat (Z.to_nat (max_colors - 1)) <= 64) as H2 by lia.
    pose proof (init_pairs_spec (Z.to_nat (max_colors - 1)) 1
                  (emit start_color (set_color_works true s))
                  (Z.le_refl 1) H2) as Hx.
    destruct Hx as (t & Hp & _).
    rewrite Hp. intros Hrun. apply (inj Some) in Hrun. subst s'.
    destruct (emit_all_settings t (emit start_color (set_color_works true s)))
      as (Ec & Eb & _).
    cbn [color_works box_character_map set_colors_map]. rewrite Ec, Eb.
    split; reflexivity.
  - intros Hrun. apply (inj Some) in Hrun. subst s'. split; reflexivity.
Qed.

(** X14. The first [initialize] on a terminal of [LINES] by [COLS] returns
    true and opens a blank screen of that size: [number_of_rows] and
    [number_of_columns] report it, every cell of both images is a space in
    white on black whatever the fresh arrays held, the cursor is at the home
    position, and [is_monochrome] tells whether [start_color] failed. *)
Theorem initialize_opens_blank_screen (pf : platform) (s : scr) :
  initialize_counter s = 0 ->
  geometry_ok (LINES pf) (COLS pf) ->
  exists s',
    initialize pf s = Some (true, s') /\
    initialize_counter s' = 1 /\
    (number_of_rows s', number_of_columns s') = (LINES pf, COLS pf) /\
    (total_rows s', total_columns s') = (LINES pf, COLS pf) /\
    is_monochrome s' = negb (start_color_ok pf) /\
    get_cursor_position s' = (1, 1) /\
    physical_image s' = screen_image s' /\
    forall row column,
      1 <= row <= LINES pf -> 1 <= column <= COLS pf ->
      cell_at (screen_image s') (COLS pf) row column
        = Some (32, Z.lor WHITE REV_BLACK).
Proof.
  intros Hzero Hgeo.
  destruct (clearing_trip_count _ _ Hgeo) as [Elimit _].
  unfold initialize. rewrite Hzero. change (0 >? 0) with false. cbv iota.
  set (s1 := initialize_character_map _).
  destruct (initialize_colors_spec pf s1) as (s2 & t2 & Hcol & Ec2 & _).
  rewrite Hcol.
  destruct (initialize_colors_color_works pf s1 s2 Hcol) as (Ecw & _).
  cbn [total_rows total_columns set_geometry].
  rewrite Elimit.
  assert (0 <= 2 * LINES pf * COLS pf) as Hsize
    by (destruct Hgeo as (? & ? & ?); nia).
  unfold new_char_array. replace (2 * LINES pf * COLS pf <? 0) with false by lia.
  set (image := map (uninitialized pf ScreenImage) _).
  set (physical := map (uninitialized pf PhysicalImage) _).
  set (s3 := set_physical_image (Some physical) _).
  assert (session_ok s3) as Hs3.
  { split; [exact Hgeo|]. exists image. split; [reflexivity|].
    subst image. rewrite length_map, length_seq. cbn. lia. }
  assert (shadow_ok s3) as Hsh3.
  { exists physical. split; [reflexivity|].
    subst physical. rewrite length_map, length_seq. cbn. lia. }
  destruct (clear_screen_spec s3 Hs3 Hsh3)
    as (s4 & image' & physical' & t4 & Hrun & Er & Ecol & Ecount & Himage
        & Hphys & Evr & Evc & _ & _ & Hli & Hlp & Hcells).
  rewrite Hrun.
  destruct (clear_screen_fields s3 s4 Hrun)
    as (_ & _ & _ & Ecw4 & _ & _ & Emr & Emc & _).
  cbn [s3 total_rows total_columns set_physical_image set_screen_image emit
       set_geometry initialize_counter color_works max_rows max_columns]
    in Er, Ecol, Ecount, Ecw4, Emr, Emc, Hli, Hlp, Hcells.
  eexists. split; [reflexivity|].
  unfold number_of_rows, number_of_columns, is_monochrome, get_cursor_position.
  cbn [initialize_counter total_rows total_columns screen_image max_rows
       max_columns color_works virtual_row virtual_column
       physical_image set_initialize_counter].
  rewrite Ecount, Ec2, Er, Ecol, Emr, Emc, Ecw4, Ecw, Evr, Evc, Himage, Hphys.
  cbn [s1 initialize_counter initialize_character_map set_box_character_map
       emit].
  rewrite Hzero.
  destruct Hgeo as (Hrows & Hcols & _).
  repeat (split; [reflexivity|]). split.
  - f_equal. symmetry.
    apply (blank_images_equal (LINES pf * COLS pf));
      [nia| | |exact Hcells].
    + rewrite Hli. f_equal. lia.
    + rewrite Hlp. f_equal. lia.
  - intros row column Hrow Hcol'.
    destruct (Hcells ((row - 1) * COLS pf + (column - 1)))
      as (H0 & H1 & _); [nia|].
    assert (cell_index (COLS pf) row column
            = 2 * ((row - 1) * COLS pf + (column - 1))) as E
      by (unfold cell_index; lia).
    apply cell_at_loads; rewrite E; assumption.
Qed.

Lemma initialize_opens_blank_screen_witness :
  exists s',
    initialize mono_platform initial_state = Some (true, s') /\
    is_monochrome s' = true /\
    (number_of_rows s', number_of_columns s') = (3, 4) /\
    cell_at (screen_image s') 4 2 3 = Some (32, 7).
Proof.
  destruct (initialize_opens_blank_screen mono_platform initial_state)
    as (s' & Hrun & _ & Esize & _ & Emono & _ & _ & Hcells).
  - reflexivity.
  - unfold geometry_ok. simpl. unfold Int.int_max. lia.
  - exists s'. split; [exact Hrun|]. split; [exact Emono|].
    split; [exact Esize|]. apply (Hcells 2 3); simpl; lia.
Defined.

(** ** Nested sessions *)

Lemma lifecycle_run_app pf cs1 cs2 :
  forall s,
  lifecycle_run pf (cs1 ++ cs2) s
  = (let? s' := lifecycle_run pf cs1 s in lifecycle_run pf cs2 s').
Proof.
  induction cs1 as [|c cs1 IH]; intros s; [reflexivity|].
  cbn [app lifecycle_run].
  destruct (lifecycle_step pf c s) as [s1|]; [apply IH|reflexivity].
Qed.

Lemma set_initialize_counter_same s :
  set_initialize_counter (initialize_counter s) s = s.
Proof. destruct s. reflexivity. Qed.

(** Calls nested in an open session only count. *)
Lemma nested_run pf cs :
  forall c c' s,
  1 <= c -> initialize_counter s = c ->
  c + Z.of_nat (length cs) <= Int.int_max ->
  nested c cs = Some c' ->
  lifecycle_run pf cs s = Some (set_initialize_counter c' s).
Proof.
  induction cs as [|call cs IH]; intros c c' s Hc Hs Hmax Hn.
  - cbn in Hn. apply (inj Some) in Hn. subst c' c.
    rewrite set_initialize_counter_same. reflexivity.
  - cbn [length] in Hmax. cbn [nested] in Hn. cbn [lifecycle_run].
    destruct call; cbn [lifecycle_step].
    + rewrite initialize_nested by (unfold Int.int_max in *; lia).
      rewrite (IH (c + 1) c' (set_initialize_counter (initialize_counter s + 1) s));
        try (cbn [initialize_counter set_initialize_counter]; lia);
        [reflexivity|exact Hn].
    + destruct (c <=? 1) eqn:E; [discriminate|]. apply Z.leb_gt in E.
      rewrite terminate_nested by (unfold Int.int_max in *; lia).
      rewrite (IH (c - 1) c' (set_initialize_counter (initialize_counter s - 1) s));
        try (cbn [initialize_counter set_initialize_counter]; lia);
        [reflexivity|exact Hn].
Qed.

(** X15. The sessions nest to any depth: after a first [initialize] on an
    inactive session, any run of calls to [initialize] and [terminate] in
    which every [terminate] answers an [initialize] of the run leaves the
    state exactly as the first [initialize] made it, and the [terminate]
    that answers the first [initialize] closes the session, each image
    having been allocated once and freed once. *)
Theorem lifecycle_balanced (pf : platform) (s : scr)
    (cs : list lifecycle_call) :
  inactive s ->
  geometry_ok (LINES pf) (COLS pf) ->
  nested 1 cs = Some 1 ->
  1 + Z.of_nat (length cs) <= Int.int_max ->
  exists s1 s',
    initialize pf s = Some (true, s1) /\
    active s1 1 /\
    lifecycle_run pf (call_initialize :: cs) s = Some s1 /\
    lifecycle_run pf (call_initialize :: cs ++ [call_terminate]) s = Some s' /\
    inactive s' /\
    forall a,
      allocations a (trace s') = S (allocations a (trace s)) /\
      deallocations a (trace s') = S (deallocations a (trace s)).
Proof.
  intros (Hzero & _ & _) Hgeo Hnested Hmax.
  destruct (initialize_first pf s Hzero Hgeo)
    as (s1 & Hinit & Hactive & Er & Ec & Hcounts).
  assert (Hactive' := Hactive).
  destruct Hactive' as (_ & Hone & Himage & Hphys).
  assert (geometry_ok (total_rows s1) (total_columns s1)) as Hgeo1
    by (rewrite Er, Ec; exact Hgeo).
  destruct (terminate_last pf s1 Hactive Hgeo1)
    as (s' & Hterm & Hinactive & Hcounts').
  assert (lifecycle_run pf cs s1 = Some s1) as Hrun.
  { rewrite (nested_run pf cs 1 1 s1 ltac:(lia) Hone Hmax Hnested).
    rewrite <- Hone at 1. rewrite set_initialize_counter_same. reflexivity. }
  exists s1, s'. split; [exact Hinit|]. split; [exact Hactive|]. split.
  { cbn [lifecycle_run lifecycle_step]. rewrite Hinit. exact Hrun. }
  split.
  { change (call_initialize :: cs ++ [call_terminate])
      with ((call_initialize :: cs) ++ [call_terminate]).
    rewrite lifecycle_run_app.
    cbn [lifecycle_run lifecycle_step]. rewrite Hinit, Hrun.
    cbn [lifecycle_run lifecycle_step]. rewrite Hterm. reflexivity. }
  split; [exact Hinactive|].
  intros a. destruct (Hcounts a) as [A D].
  destruct (Hcounts' a) as [A' D']. rewrite A', D', A, D. auto.
Qed.

Lemma lifecycle_balanced_witness :
  exists s1 s',
    initialize small_platform initial_state = Some (true, s1) /\
    lifecycle_run small_platform
      [call_initialize;
       call_initialize; call_initialize; call_terminate;
       call_initialize; call_terminate; call_terminate] initial_state
      = Some s1 /\
    lifecycle_run small_platform
      [call_initialize;
       call_initialize; call_initialize; call_terminate;
       call_initialize; call_terminate; call_terminate;
       call_terminate] initial_state = Some s' /\
    screen_image s' = None /\
    allocations ScreenImage (trace s') = 1%nat /\
    deallocations ScreenImage (trace s') = 1%nat.
Proof.
  destruct (lifecycle_balanced small_platform initial_state
              [call_initialize; call_initialize; call_terminate;
               call_initialize; call_terminate; call_terminate])
    as (s1 & s' & Hinit & _ & Hrun & Hrun' & (_ & Himage & _) & Hcounts).
  - repeat split.
  - unfold geometry_ok. simpl. unfold Int.int_max. lia.
  - reflexivity.
  - simpl. unfold Int.int_max. lia.
  - exists s1, s'. split; [exact Hinit|]. split; [exact Hrun|].
    split; [exact Hrun'|]. split; [exact Himage|].
    exact (Hcounts ScreenImage).
Defined.

(** ** The tables of the curses version *)

(** [std::map::insert] of a range: a key of the map keeps its value, and of
    two pairs of the range with one key the first is taken. *)
Lemma map_insert_all_lookup {V} (l : list (Z * V)) :
  forall (m : gmap Z V) k,
  map_insert_all m l !! k
  = match m !! k with
    | Some v => Some v
    | None => assoc k l
    end.
Proof.
  induction l as [|[k' v'] l IH]; intros m k.
  - cbn. destruct (m !! k); reflexivity.
  - change (map_insert_all m ((k', v') :: l))
      with (map_insert_all
              (match m !! k' with
               | Some _ => m
               | None => <[k' := v']> m
               end) l).
    rewrite IH. cbn [assoc]. destruct (m !! k') as [w|] eqn:E'.
    + destruct (m !! k) as [v|] eqn:E; [reflexivity|].
      destruct (k' =? k) eqn:Ek; [|reflexivity].
      apply Z.eqb_eq in Ek. congruence.
    + destruct (k' =? k) eqn:Ek.
      * apply Z.eqb_eq in Ek. subst k'. rewrite lookup_insert_eq, E'.
        reflexivity.
      * apply Z.eqb_neq in Ek. rewrite lookup_insert_ne by exact Ek.
        reflexivity.
Qed.

Lemma assoc_In {V} k (v : V) l : assoc k l = Some v -> In (k, v) l.
Proof.
  induction l as [|[k' v'] l IH]; [discriminate|].
  cbn [assoc]. destruct (k' =? k) eqn:E.
  - apply Z.eqb_eq in E. intros H. apply (inj Some) in H. subst. left.
    reflexivity.
  - intros H. right. apply IH, H.
Qed.

(** The characters the map translates are all above the ASCII range. *)
Lemma character_associations_keys k x :
  assoc k character_associations = Some x -> 128 <= k < 256.
Proof.
  intros H. apply assoc_In in H.
  assert (Forall (fun kv : Z * acs => 128 <= kv.1 < 256)
            character_associations) as Hall
    by (repeat constructor; cbn; lia).
  apply (proj1 (List.Forall_forall _ _) Hall (k, x)), H.
Qed.

(** X16. After [initialize_character_map] on an empty map, the two line
    styles look the same: the character in each of the eleven fields of the
    double-line definition is mapped to the curses symbol the character in
    that field of the single-line definition is mapped to.  Every character
    of the dark and of the solid definition is mapped to the checker board;
    no character of the light, the ASCII and the blank definition is mapped.
    Every key of the map is above the ASCII range. *)
Theorem box_characters_mapped (s : scr) :
  box_character_map s = ∅ ->
  let m := box_character_map (initialize_character_map s) in
  (forall d l f,
     get_box_characters false DOUBLE_LINE = Some d ->
     get_box_characters false SINGLE_LINE = Some l ->
     In f box_fields ->
     exists x, m !! f d = Some x /\ m !! f l = Some x) /\
  (forall t b f,
     t = DARK_GRAPHIC \/ t = SOLID ->
     get_box_characters false t = Some b ->
     In f box_fields ->
     m !! f b = Some ACS_CKBOARD) /\
  (forall t b f,
     t = LIGHT_GRAPHIC \/ t = ASCII \/ t = BLANK_BOX ->
     get_box_characters false t = Some b ->
     In f box_fields ->
     m !! f b = None) /\
  (forall k x, m !! k = Some x -> 128 <= k < 256).
Proof.
  intros Hempty m.
  assert (forall k, m !! k = assoc k character_associations) as Em.
  { intros k. subst m. unfold initialize_character_map.
    cbn [box_character_map set_box_character_map].
    rewrite Hempty, map_insert_all_lookup, lookup_empty. reflexivity. }
  split; [|split; [|split]].
  - intros d l f Hd Hl Hf.
    apply (inj Some) in Hd. apply (inj Some) in Hl. subst d l.
    rewrite !Em. cbn [box_fields In] in Hf.
    repeat (destruct Hf as [<-|Hf]; [eexists; split; reflexivity|]).
    destruct Hf.
  - intros t b f [-> | ->] Hb Hf; apply (inj Some) in Hb; subst b;
      rewrite Em; cbn [box_fields In] in Hf;
      repeat (destruct Hf as [<-|Hf]; [reflexivity|]); destruct Hf.
  - intros t b f [-> | [-> | ->]] Hb Hf; apply (inj Some) in Hb; subst b;
      rewrite Em; cbn [box_fields In] in Hf;
      repeat (destruct Hf as [<-|Hf]; [reflexivity|]); destruct Hf.
  - intros k x. rewrite Em. apply character_associations_keys.
Qed.

Lemma box_characters_mapped_witness :
  box_character_map (initialize_character_map initial_state) !! 205
    = Some ACS_HLINE /\
  box_character_map (initialize_character_map initial_state) !! 196
    = Some ACS_HLINE /\
  box_character_map (initialize_character_map initial_state) !! 176 = None.
Proof.
  destruct (box_characters_mapped initial_state eq_refl)
    as (Hlines & _ & Hnone & _).
  destruct (Hlines (mkBoxChars 205 186 201 187 200 188 181 198 208 210 206)
              (mkBoxChars 196 179 218 191 192 217 180 195 193 194 197)
              horizontal eq_refl eq_refl ltac:(left; reflexivity))
    as (x & Hd & Hl).
  assert (x = ACS_HLINE) as ->.
  { vm_compute in Hd. apply (inj Some) in Hd. symmetry. exact Hd. }
  split; [exact Hd|]. split; [exact Hl|].
  exact (Hnone LIGHT_GRAPHIC
           (mkBoxChars 176 176 176 176 176 176 176 176 176 176 176)
           horizontal ltac:(left; reflexivity) eq_refl
           ltac:(left; reflexivity)).
Defined.

Lemma color_pair_check_all a : 0 <= a < 256 -> color_pair_check a = true.
Proof. apply forall_byte. vm_compute. reflexivity. Qed.

(** X17. The two colour tables agree: every colour attribute (a foreground
    in the low three bits, a background in bits 4 to 6) is associated with a
    pair number below 64, and the entry of [color_initializers] with that
    number holds the curses colours of that foreground and that background.
    The pair 0, which curses predefines, stands for white on black. *)
Theorem color_pairs_consistent (a : Z) :
  0 <= a < 128 -> Z.land a BRIGHT = 0 ->
  exists p,
    (map_insert_all ∅ color_associations : gmap Z Z) !! a = Some p /\
    0 <= p < 64 /\
    color_initializers !! Z.to_nat p
      = Some (curses_color (Z.land a 0x07), curses_color (Z.shiftr a 4)) /\
    (p = 0 <-> a = Z.lor WHITE REV_BLACK).
Proof.
  intros Ha Hb.
  pose proof (color_pair_check_all a ltac:(lia)) as Hcheck.
  unfold color_pair_check in Hcheck.
  replace (a <? 128) with true in Hcheck by lia.
  rewrite Hb in Hcheck. cbn [Z.eqb andb] in Hcheck.
  rewrite map_insert_all_lookup, lookup_empty.
  destruct (assoc a color_associations) as [p|]; [|discriminate].
  exists p. split; [reflexivity|].
  repeat (apply andb_true_iff in Hcheck as [Hcheck ?]).
  split; [lia|]. split; [eapply bool_decide_eq_true_1; eassumption|].
  eapply bool_decide_eq_true_1; eassumption.
Qed.

Lemma color_pairs_consistent_witness :
  exists p,
    (map_insert_all ∅ color_associations : gmap Z Z)
      !! Z.lor BROWN REV_BLUE = Some p /\
    color_initializers !! Z.to_nat p = Some (COLOR_YELLOW, COLOR_BLUE).
Proof.
  destruct (color_pairs_consistent (Z.lor BROWN REV_BLUE))
    as (p & Hp & _ & Hinit & _); [change (Z.lor BROWN REV_BLUE) with 22; lia|reflexivity|].
  exists p. split; [exact Hp|exact Hinit].
Defined.

(** The loop of [initialize_colors]: pair [i + k] is initialised from entry
    [i + k] of the table. *)
Lemma init_pairs_trace n :
  forall i s,
  1 <= i -> i + Z.of_nat n <= 64 ->
  exists t,
    init_pairs n i s = Some (emit_all t s) /\
    length t = n /\
    forall k, (k < n)%nat ->
      exists fg bg,
        color_initializers !! Z.to_nat (i + Z.of_nat k) = Some (fg, bg) /\
        t !! k = Some (init_pair (i + Z.of_nat k) fg bg).
Proof.
  induction n as [|n IH]; intros i s Hi Hn.
  - exists []. split; [reflexivity|]. split; [reflexivity|]. intros k Hk. lia.
  - cbn [init_pairs].
    destruct (lookup_lt_is_Some_2 color_initializers (Z.to_nat i))
      as [[fg bg] Hci].
    { change (length color_initializers) with 64%nat. lia. }
    rewrite Hci. cbn [fst snd].
    replace (to_short (i + 1)) with (i + 1)
      by (unfold to_short; rewrite Z.mod_small by lia; lia).
    destruct (IH (i + 1) (emit (init_pair i fg bg) s) ltac:(lia) ltac:(lia))
      as (t & Hrun & Hlen & Hin).
    rewrite Hrun.
    exists (init_pair i fg bg :: t). split; [reflexivity|].
    split; [cbn [length]; lia|].
    intros [|k] Hk.
    + exists fg, bg. replace (i + Z.of_nat 0) with i by lia.
      split; [exact Hci|reflexivity].
    + destruct (Hin k ltac:(lia)) as (fg' & bg' & Hci' & Hk').
      exists fg', bg'.
      replace (i + Z.of_nat (S k)) with (i + 1 + Z.of_nat k) by lia.
      split; [exact Hci'|exact Hk'].
Qed.

(** X18. When [start_color] succeeds, [initialize_colors] reports colour,
    calls [init_pair] for the pairs 1 to [n - 1] in order, [n] being
    [COLOR_PAIRS] (as a [short]) cut to 64, each with the colours entry
    [i] of [color_initializers] gives, and for no other pair; and it inserts
    all 64 associations in the colour map, however many pairs were
    initialised. *)
Theorem initialize_colors_pairs (pf : platform) (s : scr) :
  start_color_ok pf = true ->
  let n := Z.min (to_short (COLOR_PAIRS pf)) 64 in
  exists s' t,
    initialize_colors pf s = Some s' /\
    color_works s' = true /\
    trace s' = trace s ++ start_color :: t /\
    length t = Z.to_nat (n - 1) /\
    (forall k, (k < length t)%nat ->
       exists fg bg,
         color_initializers !! S k = Some (fg, bg) /\
         t !! k = Some (init_pair (Z.of_nat (S k)) fg bg)) /\
    colors_map s' = map_insert_all (colors_map s) color_associations.
Proof.
  intros Hok n. unfold initialize_colors. rewrite Hok. cbn [negb].
  set (max_colors := if to_short (COLOR_PAIRS pf) >? 64 then 64
                     else to_short (COLOR_PAIRS pf)).
  assert (max_colors = n) as Emax
    by (subst max_colors n; case_match; lia).
  rewrite Emax. clear Emax max_colors.
  assert (n <= 64) as Hn by (subst n; lia).
  assert (1 + Z.of_nat (Z.to_nat (n - 1)) <= 64) as H2 by lia.
  pose proof (init_pairs_trace (Z.to_nat (n - 1)) 1
                (emit start_color (set_color_works true s))
                (Z.le_refl 1) H2) as Hx.
  destruct Hx as (t & Hrun & Hlen & Hin).
  rewrite Hrun.
  destruct (emit_all_fields t (emit start_color (set_color_works true s)))
    as (_ & _ & _ & _ & _ & _ & _ & Et).
  destruct (emit_all_settings t (emit start_color (set_color_works true s)))
    as (Ec & _ & Em & _).
  eexists. exists t. split; [reflexivity|].
  cbn [color_works trace colors_map set_colors_map].
  rewrite Ec, Et, Em.
  cbn [color_works trace colors_map emit set_color_works].
  rewrite <- app_assoc.
  split; [reflexivity|]. split; [reflexivity|]. split; [exact Hlen|].
  split; [|reflexivity].
  intros k Hk. destruct (Hin k ltac:(lia)) as (fg & bg & Hci & Hk').
  exists fg, bg.
  replace (Z.to_nat (1 + Z.of_nat k)) with (S k) in Hci by lia.
  replace (1 + Z.of_nat k) with (Z.of_nat (S k)) in Hk' by lia.
  split; [exact Hci|exact Hk'].
Qed.

Lemma initialize_colors_pairs_witness :
  exists s' t,
    initialize_colors
      (mkPlatform true 3 4 true 8 (fun _ _ => 0)) initial_state = Some s' /\
    trace s' = start_color :: t /\
    length t = 7%nat /\
    t !! 6%nat = Some (init_pair 7 COLOR_BLACK COLOR_BLACK) /\
    colors_map s' !! Z.lor WHITE REV_WHITE = Some 56.
Proof.
  destruct (initialize_colors_pairs
              (mkPlatform true 3 4 true 8 (fun _ _ => 0)) initial_state
              eq_refl)
    as (s' & t & Hrun & _ & Et & Hlen & Hin & Em).
  exists s', t. split; [exact Hrun|]. split; [exact Et|].
  split; [exact Hlen|]. split.
  - destruct (Hin 6%nat) as (fg & bg & Hci & Hk).
    + rewrite Hlen. vm_compute. lia.
    + vm_compute in Hci. apply (inj Some) in Hci.
      injection Hci as <- <-. exact Hk.
  - rewrite Em. reflexivity.
Defined.

(** ** The character sent for a cell *)

Lemma colors_map_set m s : colors_map (set_colors_map m s) = m.
Proof. reflexivity. Qed.

Lemma box_character_map_set m s :
  box_character_map (set_box_character_map m s) = m.
Proof. reflexivity. Qed.

Lemma attribute_check_all signed a :
  0 <= a < 256 -> attribute_check signed a = true.
Proof.
  intros Ha. destruct signed; revert a Ha; apply forall_byte;
    vm_compute; reflexivity.
Qed.

(** X19. The attribute byte of a cell decides the flags and the colour of
    the character sent to curses: blink is bit 7 and bold is bit 3.  With
    the colour map [initialize_colors] builds, the colour pair is the one
    associated with the colour bits (mask 0x77), and there is one for every
    attribute; but no pair is selected when colour does not work, nor, where
    [char] is signed, for an attribute with the blink bit: its value is
    negative and is not a key of the map. *)
Theorem new_character_attributes (pf : platform) (s : scr) (c a : Z) :
  0 <= a < 256 ->
  colors_map s = map_insert_all ∅ color_associations ->
  let ch := new_character pf s c a in
  ch_blink ch = Z.testbit a 7 /\
  ch_bold ch = Z.testbit a 3 /\
  (color_works s = false -> ch_color_pair ch = None) /\
  (color_works s = true -> char_is_signed pf = true -> 128 <= a ->
   ch_color_pair ch = None) /\
  (color_works s = true -> char_is_signed pf = false \/ a < 128 ->
   ch_color_pair ch = assoc (Z.land a 0x77) color_associations /\
   is_Some (ch_color_pair ch)).
Proof.
  intros Ha Hmap ch.
  pose proof (attribute_check_all (char_is_signed pf) a Ha) as Hcheck.
  unfold attribute_check in Hcheck.
  repeat (apply andb_true_iff in Hcheck as [Hcheck ?]).
  repeat match goal with
         | H : bool_decide _ = true |- _ => apply bool_decide_eq_true_1 in H
         end.
  subst ch. unfold new_character.
  cbn [ch_blink ch_bold ch_color_pair]. unfold char_value.
  rewrite Hmap.
  split; [assumption|]. split; [assumption|].
  split; [intros ->; reflexivity|]. split.
  - intros -> Hsigned Hblink.
    rewrite map_insert_all_lookup, lookup_empty.
    rewrite Hsigned in *. replace (128 <=? a) with true in * by lia.
    assumption.
  - intros -> Hplain.
    rewrite map_insert_all_lookup, lookup_empty.
    assert (char_is_signed pf && (128 <=? a) = false) as E
      by (destruct Hplain as [-> | ?]; [reflexivity|];
          replace (128 <=? a) with false by lia; apply andb_false_r).
    rewrite E in *.
    match goal with
    | H : assoc _ color_associations = assoc _ color_associations |- _ =>
        rewrite H
    end.
    split; [reflexivity|assumption].
Qed.

Lemma new_character_attributes_witness :
  ch_color_pair
    (new_character small_platform
       (set_colors_map (map_insert_all ∅ color_associations) small_screen)
       65 0x9F) = None /\
  ch_color_pair
    (new_character small_platform
       (set_colors_map (map_insert_all ∅ color_associations) small_screen)
       65 0x1F) = Some 8.
Proof.
  destruct (new_character_attributes small_platform
              (set_colors_map (map_insert_all ∅ color_associations)
                 small_screen) 65 0x9F ltac:(lia) (colors_map_set _ _))
    as (_ & _ & _ & Hnone & _).
  destruct (new_character_attributes small_platform
              (set_colors_map (map_insert_all ∅ color_associations)
                 small_screen) 65 0x1F ltac:(lia) (colors_map_set _ _))
    as (_ & _ & _ & _ & Hsome).
  split.
  - apply Hnone; [reflexivity|reflexivity|lia].
  - destruct (Hsome eq_refl ltac:(right; lia)) as [E _].
    rewrite E. vm_compute. reflexivity.
Defined.

(** X20. The character byte of a cell decides the glyph.  With the map
    [initialize_character_map] builds and an unsigned [char], a character
    the map holds is sent as its curses symbol and any other as itself.
    Where [char] is signed no character is translated: the characters of
    the map are above 127, their values as [char] are negative, and the
    lookup compares values. *)
Theorem new_character_glyph (pf : platform) (s : scr) (c a : Z) :
  0 <= c < 256 ->
  box_character_map s = map_insert_all ∅ character_associations ->
  (char_is_signed pf = false ->
   ch_glyph (new_character pf s c a)
   = match assoc c character_associations with
     | Some x => Acs x
     | None => Raw c
     end) /\
  (char_is_signed pf = true -> ch_glyph (new_character pf s c a) = Raw c).
Proof.
  intros Hc Hmap. unfold new_character. cbn [ch_glyph]. unfold char_value.
  rewrite Hmap, map_insert_all_lookup, lookup_empty.
  split; intros ->; cbn [andb]; [reflexivity|].
  destruct (assoc (if 128 <=? c then c - 256 else c) character_associations)
    as [x|] eqn:E; [|reflexivity].
  apply character_associations_keys in E.
  destruct (128 <=? c) eqn:Ec; lia.
Qed.

Lemma new_character_glyph_witness :
  ch_glyph
    (new_character (mkPlatform false 3 4 true 64 (fun _ _ => 0))
       (set_box_character_map (map_insert_all ∅ character_associations)
          small_screen) 196 7) = Acs ACS_HLINE /\
  ch_glyph
    (new_character small_platform
       (set_box_character_map (map_insert_all ∅ character_associations)
          small_screen) 196 7) = Raw 196.
Proof.
  destruct (new_character_glyph (mkPlatform false 3 4 true 64 (fun _ _ => 0))
              (set_box_character_map
                 (map_insert_all ∅ character_associations) small_screen)
              196 7 ltac:(lia) (box_character_map_set _ _)) as [Hplain _].
  destruct (new_character_glyph small_platform
              (set_box_character_map
                 (map_insert_all ∅ character_associations) small_screen)
              196 7 ltac:(lia) (box_character_map_set _ _)) as [_ Hsigned].
  split; [|exact (Hsigned eq_refl)].
  rewrite (Hplain eq_refl). vm_compute. reflexivity.
Defined.

(** ** The last [terminate] *)

(** The clearing loop of [terminate] leaves a blank image. *)
Lemma terminate_loop_blank rows columns image :
  geometry_ok rows columns ->
  Z.of_nat (length image) = 2 * rows * columns ->
  exists image',
    terminate_loop (Z.to_nat ((2 * rows * columns + 1) / 2)) 0 image
      = Some image' /\
    Z.of_nat (length image') = 2 * rows * columns /\
    forall row column,
      1 <= row <= rows -> 1 <= column <= columns ->
      cell_at (Some image') columns row column
        = Some (32, Z.lor WHITE REV_BLACK).
Proof.
  intros Hgeo Hsize.
  destruct (clearing_trip_count _ _ Hgeo) as [_ Etrip].
  destruct Hgeo as (Hrows & Hcols & Hmax).
  destruct (terminate_loop_spec
              (Z.to_nat ((2 * rows * columns + 1) / 2)) 0 image)
    as (image' & Hrun & Hclear); try lia.
  destruct (clear_cols_spec (Z.lor WHITE REV_BLACK)
              (Z.to_nat ((2 * rows * columns + 1) / 2))
              0 image ltac:(lia) ltac:(lia))
    as (image2 & Hclear2 & Hlen & Hin & _).
  rewrite Hclear in Hclear2. apply (inj Some) in Hclear2. subst image2.
  exists image'. split; [exact Hrun|]. split; [lia|].
  intros row column Hrow Hcol.
  destruct (Hin ((row - 1) * columns + (column - 1))) as (H0 & H1); [nia|].
  assert (cell_index columns row column
          = 0 + 2 * ((row - 1) * columns + (column - 1))) as E
    by (unfold cell_index; lia).
  apply cell_at_loads; rewrite E; assumption.
Qed.

(** X21. The [terminate] that closes the session blanks the virtual image
    and repaints the terminal from it before it leaves curses: it sends,
    row by row, a [move] and one blank cell per column, then the [move] to
    the home position and the curses [refresh], then [endwin]; after that
    it frees the virtual and then the physical image and calls
    [terminate_key].  The character map is emptied; the colour map, the
    colour flag and the geometry stay. *)
Theorem terminate_last_repaints (pf : platform) (s : scr) :
  active s 1 ->
  geometry_ok (total_rows s) (total_columns s) ->
  exists s' t,
    terminate pf s = Some s' /\
    trace s'
    = trace s ++ t
      ++ [move 0 0; curses_refresh; endwin; delete_array ScreenImage;
          delete_array PhysicalImage; terminate_key] /\
    Z.of_nat (length t) = total_rows s * (total_columns s + 1) /\
    (forall row column,
       1 <= row <= total_rows s -> 1 <= column <= total_columns s ->
       t !! Z.to_nat ((row - 1) * (total_columns s + 1))
         = Some (move (row - 1) 0) /\
       t !! Z.to_nat ((row - 1) * (total_columns s + 1) + column)
         = Some (addch (new_character pf s 32 (Z.lor WHITE REV_BLACK)))) /\
    inactive s' /\
    box_character_map s' = ∅ /\
    colors_map s' = colors_map s /\
    color_works s' = color_works s /\
    (total_rows s', total_columns s') = (total_rows s, total_columns s) /\
    get_cursor_position s' = (1, 1).
Proof.
  intros (_ & Hone & (image & Himage & Hsize) & (physical & Hphys & Hpsize))
         Hgeo.
  destruct (clearing_trip_count _ _ Hgeo) as [Elimit _].
  pose proof (geometry_bounds _ _ Hgeo) as (Hrows & Hcols & _).
  unfold terminate. rewrite Hone. change (1 =? 0) with false. cbv iota.
  change (Int.sub 1 1) with 0.
  cbn [initialize_counter total_rows total_columns screen_image
       set_initialize_counter].
  change (negb (0 =? 0)) with false. cbv iota.
  rewrite Elimit, Himage.
  destruct (terminate_loop_blank _ _ image Hgeo Hsize)
    as (image' & Hloop & Hsize' & Hblank).
  rewrite Hloop.
  set (s1 := set_virtual_cursor 1 1 _).
  destruct (redraw_rows_trace pf image' (Z.to_nat (total_rows s)) 1 s1)
    as (t & Hrun & Hlen & Hin); auto; try (cbn; lia).
  change (total_columns s1) with (total_columns s) in Hlen, Hin.
  unfold redraw. change (total_rows s1) with (total_rows s). rewrite Hrun.
  destruct (emit_all_fields t s1) as (Er & Ec & Ei & Ep & Ecount & Evr & Evc & Et).
  destruct (emit_all_settings t s1) as (Ecw & Eb & Em & _).
  rewrite Evr, Evc. change (virtual_row s1) with 1.
  change (virtual_column s1) with 1. change (Int.sub 1 1) with 0.
  set (s2 := emit_all t s1) in *.
  change (screen_image s1) with (Some image') in Ei.
  change (physical_image s1) with (physical_image s) in Ep.
  rewrite Hphys in Ep.
  cbn [screen_image physical_image emit set_box_character_map
       delete_char_array set_screen_image].
  rewrite Ei.
  cbn [screen_image physical_image emit set_box_character_map
       delete_char_array set_screen_image].
  rewrite Ep.
  cbn [screen_image physical_image emit set_box_character_map
       delete_char_array set_screen_image].
  eexists. exists t. split; [reflexivity|].
  unfold inactive, get_cursor_position.
  cbn [trace initialize_counter screen_image physical_image
       box_character_map colors_map color_works total_rows total_columns
       virtual_row virtual_column emit set_physical_image set_screen_image
       set_box_character_map].
  rewrite Et, Ecount, Em, Ecw, Er, Ec, Evr, Evc.
  change (trace s1) with (trace s). rewrite <- !app_assoc.
  split; [reflexivity|]. split; [nia|]. split.
  { intros row column Hrow Hcol.
    destruct (Hin (Z.to_nat (row - 1)) ltac:(lia)) as (Hmove & Hcells).
    destruct (Hcells (Z.to_nat (column - 1)) ltac:(lia))
      as (c & a & Hcell & Hlook).
    replace (1 + Z.of_nat (Z.to_nat (row - 1))) with row in * by lia.
    replace (Z.of_nat (Z.to_nat (column - 1)) + 1) with column in Hcell by lia.
    rewrite (Hblank row column Hrow Hcol) in Hcell.
    apply (inj Some) in Hcell. injection Hcell as <- <-.
    split.
    - replace (Z.to_nat ((row - 1) * (total_columns s + 1)))
        with (Z.to_nat (row - 1) * S (Z.to_nat (total_columns s)))%nat by nia.
      exact Hmove.
    - replace (Z.to_nat ((row - 1) * (total_columns s + 1) + column))
        with (Z.to_nat (row - 1) * S (Z.to_nat (total_columns s))
              + S (Z.to_nat (column - 1)))%nat by nia.
      exact Hlook. }
  repeat split.
Qed.

Lemma terminate_last_repaints_witness :
  exists s' t,
    terminate small_platform small_screen = Some s' /\
    trace s'
    = t ++ [move 0 0; curses_refresh; endwin; delete_array ScreenImage;
            delete_array PhysicalImage; terminate_key] /\
    length t = 15%nat /\
    screen_image s' = None.
Proof.
  destruct (terminate_last_repaints small_platform small_screen)
    as (s' & t & Hrun & Et & Hlen & _ & (_ & Himage & _) & _).
  - split; [lia|]. split; [reflexivity|]. split.
    + eexists. split; reflexivity.
    + eexists. split; reflexivity.
  - unfold geometry_ok. simpl. unfold Int.int_max. lia.
  - exists s', t. split; [exact Hrun|]. split; [exact Et|].
    split; [simpl in Hlen; lia|exact Himage].
Defined.

(** ** The clamping in closed form, and [write] cell by cell *)

(** X22. For arguments in the range of [int] whose width and height added
    to the screen size stay in that range, [adjust_dimensions] is: the row
    and the column clamped to the screen, a width and a height below one
    raised to one, and then cut at the right and at the bottom edge.  The
    region it gives is inside the screen. *)
Theorem adjust_dimensions_closed_form (rows columns r c w h : Z) :
  1 <= rows <= Int.int_max -> 1 <= columns <= Int.int_max ->
  Int.in_range r -> Int.in_range c -> Int.in_range w -> Int.in_range h ->
  h <= Int.int_max - rows + 1 -> w <= Int.int_max - columns + 1 ->
  let r' := clamp 1 rows r in
  let c' := clamp 1 columns c in
  let w' := Z.min (Z.max w 1) (columns - c' + 1) in
  let h' := Z.min (Z.max h 1) (rows - r' + 1) in
  adjust_dimensions rows columns r c w h = (r', c', w', h') /\
  region_ok rows columns r' c' w' h'.
Proof.
  intros Hrows Hcols Hr Hc Hw Hh Hhmax Hwmax r' c' w' h'.
  subst w' h'. subst r' c'.
  unfold adjust_dimensions, clamp, region_ok.
  set (r1 := if r <? 1 then 1 else r).
  set (r2 := if r1 >? rows then rows else r1).
  set (c1 := if c <? 1 then 1 else c).
  set (c2 := if c1 >? columns then columns else c1).
  assert (1 <= r2 <= rows) by (subst r2 r1; repeat case_match; lia).
  assert (1 <= c2 <= columns) by (subst c2 c1; repeat case_match; lia).
  clearbody r2 c2. clear r1 c1.
  set (h1 := if h <=? 0 then 1 else h).
  assert (h1 = Z.max h 1) as -> by (subst h1; case_match; lia).
  set (w1 := if w <=? 0 then 1 else w).
  assert (w1 = Z.max w 1) as -> by (subst w1; case_match; lia).
  int_range. int_linear.
  split; [|lia].
  destruct (r2 + Z.max h 1 - 1 >? rows) eqn:Eh;
    destruct (c2 + Z.max w 1 - 1 >? columns) eqn:Ew;
    do 3 f_equal; lia.
Qed.

Lemma adjust_dimensions_closed_form_witness :
  adjust_dimensions 24 80 (-3) 78 10 0 = (1, 78, 3, 1) /\
  region_ok 24 80 1 78 3 1.
Proof.
  apply (adjust_dimensions_closed_form 24 80 (-3) 78 10 0);
    unfold Int.in_range, Int.int_min, Int.int_max; lia.
Defined.

(** X23. On a region inside the screen and with a buffer of
    [2 * width * height] bytes [write] returns; the cell at row [i] and
    column [j] of the region takes the character and the attribute the
    buffer, seen as an image [width] cells wide, holds at row [i + 1] and
    column [j + 1]; every other cell of the screen is unchanged. *)
Theorem write_region_spec (s : scr) (r c w h : Z) (buffer : list Z) :
  session_ok s ->
  region_ok (total_rows s) (total_columns s) r c w h ->
  Z.of_nat (length buffer) = 2 * w * h ->
  exists image',
    write r c w h buffer s = Some (set_screen_image (Some image') s) /\
    Z.of_nat (length image') = 2 * total_rows s * total_columns s /\
    (forall i j, 0 <= i < h -> 0 <= j < w ->
       cell_at (Some image') (total_columns s) (r + i) (c + j)
       = cell_at (Some buffer) w (i + 1) (j + 1)) /\
    (forall row column,
       1 <= column <= total_columns s ->
       ~ (r <= row < r + h /\ c <= column < c + w) ->
       cell_at (Some image') (total_columns s) row column
       = cell_at (screen_image s) (total_columns s) row column).
Proof.
  intros Hs Hreg Hbuf.
  destruct (write_spec s r c w h buffer Hs Hreg Hbuf)
    as (image & image' & Himage & Hrun & Hlen & Hin & Hout).
  destruct Hs as (Hgeo & image0 & Himage0 & Hsize).
  rewrite Himage in Himage0. apply (inj Some) in Himage0. subst image0.
  exists image'. split; [exact Hrun|]. split; [lia|]. split.
  - intros i j Hi Hj.
    pose proof (cell_index_row (total_columns s) r c i j) as Ecell.
    unfold cell_at. rewrite Ecell.
    replace (cell_index w (i + 1) (j + 1)) with (i * (2 * w) + 2 * j)
      by (unfold cell_index; lia).
    replace (cell_index (total_columns s) r c + i * (2 * total_columns s)
             + 2 * j + 1)
      with (cell_index (total_columns s) r c + i * (2 * total_columns s)
            + (2 * j + 1)) by lia.
    replace (i * (2 * w) + 2 * j + 1) with (i * (2 * w) + (2 * j + 1)) by lia.
    rewrite !Hin by lia. reflexivity.
  - intros row column Hcol Hnot. rewrite Himage.
    apply cell_at_same; apply Hout; intros i Hi Hq; apply Hnot.
    + destruct (cell_in_region_rows _ _ Hgeo r c w h row column 0 i)
        as [? ?]; auto; lia.
    + destruct (cell_in_region_rows _ _ Hgeo r c w h row column 1 i)
        as [? ?]; auto; lia.
Qed.

Lemma write_region_spec_witness :
  exists image',
    write 2 3 2 2 [65; 1; 66; 2; 67; 3; 68; 4] small_screen
    = Some (set_screen_image (Some image') small_screen) /\
    cell_at (Some image') 4 3 4 = Some (68, 4) /\
    cell_at (Some image') 4 3 2 = Some (32, 7).
Proof.
  destruct (write_region_spec small_screen 2 3 2 2
              [65; 1; 66; 2; 67; 3; 68; 4])
    as (image' & Hrun & _ & Hin & Hout).
  - apply small_screen_ok.
  - unfold region_ok. simpl. lia.
  - reflexivity.
  - exists image'. split; [exact Hrun|]. split.
    + transitivity
        (cell_at (Some [65; 1; 66; 2; 67; 3; 68; 4]) 2 (1 + 1) (1 + 1));
        [exact (Hin 1 1 ltac:(lia) ltac:(lia))|reflexivity].
    + transitivity
        (cell_at (screen_image small_screen) (total_columns small_screen) 3 2);
        [apply Hout|reflexivity].
      * simpl. lia.
      * lia.
Defined.

(** ** Monochrome attributes; the box styles by mode *)

Lemma monochrome_check_all a : 0 <= a < 256 -> monochrome_check a = true.
Proof. apply forall_byte. vm_compute. reflexivity. Qed.

(** X24. Without colour there are two looks, normal (white on black) and
    reverse video (black on white): [reverse_attribute] of a converted
    attribute is a converted attribute again, [convert_attribute] leaves it
    as it is, and it has the other look and the same blink and bright
    bits. *)
Theorem monochrome_reverse (a : Z) :
  0 <= a < 256 ->
  let m := convert_attribute false a in
  let r := reverse_attribute m in
  convert_attribute false r = r /\
  (Z.land m 0x77 = Z.lor WHITE REV_BLACK /\
   Z.land r 0x77 = Z.lor BLACK REV_WHITE \/
   Z.land m 0x77 = Z.lor BLACK REV_WHITE /\
   Z.land r 0x77 = Z.lor WHITE REV_BLACK) /\
  Z.land r (Z.lor BLINK BRIGHT) = Z.land a (Z.lor BLINK BRIGHT).
Proof.
  intros Ha m r. pose proof (monochrome_check_all a Ha) as Hcheck.
  unfold monochrome_check in Hcheck. fold m in Hcheck. fold r in Hcheck.
  apply andb_true_iff in Hcheck as [Hcheck Hbits].
  apply andb_true_iff in Hcheck as [Hconv Hlook].
  split; [apply Z.eqb_eq, Hconv|]. split; [|apply Z.eqb_eq, Hbits].
  apply orb_true_iff in Hlook as [H|H];
    apply andb_true_iff in H as [H1 H2];
    apply Z.eqb_eq in H1, H2; [left|right]; split; assumption.
Qed.

Lemma monochrome_reverse_witness :
  convert_attribute false (reverse_attribute (convert_attribute false 0x9E))
  = reverse_attribute (convert_attribute false 0x9E) /\
  reverse_attribute (convert_attribute false 0x9E) = 0x8F.
Proof.
  destruct (monochrome_reverse 0x9E ltac:(lia)) as (H & _).
  split; [exact H|reflexivity].
Defined.

(** X25. Which box styles have characters.  In the normal build every
    style but [NO_BORDER] has a definition, and the seven definitions are
    different; in the ASCII-only build every style has one, [NO_BORDER]
    included, and all its characters are printable ASCII, so that none of
    them is in the character map. *)
Theorem get_box_characters_modes (t : BoxType) :
  (is_Some (get_box_characters false t) <-> t <> NO_BORDER) /\
  (forall t', get_box_characters false t = get_box_characters false t' ->
              t <> NO_BORDER -> t = t') /\
  exists b,
    get_box_characters true t = Some b /\
    forall f, In f box_fields ->
      32 <= f b < 127 /\ assoc (f b) character_associations = None.
Proof.
  split; [|split].
  - split.
    + intros [b Hb] ->. discriminate Hb.
    + intros Ht. destruct t; try congruence; eexists; reflexivity.
  - intros t' E Ht. destruct t; try congruence; destruct t'; try reflexivity;
      vm_compute in E; discriminate E.
  - destruct t; eexists; (split; [reflexivity|]); intros f Hf;
      cbn [box_fields In] in Hf;
      repeat (destruct Hf as [<-|Hf]; [split; [cbn; lia|reflexivity]|]);
      destruct Hf.
Qed.

(** * Properties of the timer *)

(** Remove the conversions of the values the types can hold. *)
Ltac wide_values Hwide :=
  repeat match goal with
    | |- context [seconds_t ?ty ?z] =>
        rewrite (proj1 (Hwide z ltac:(cbn [seconds milliseconds]; lia)))
    | |- context [milliseconds_t ?ty ?z] =>
        rewrite (proj1 (proj2 (Hwide z ltac:(cbn [seconds milliseconds]; lia))))
    | |- context [long_t ?ty ?z] =>
        rewrite (proj2 (proj2 (Hwide z ltac:(cbn [seconds milliseconds]; lia))))
    end.

Lemma int_types_wide : wide_enough int_types Int.int_max.
Proof.
  intros z Hz. cbn [int_types seconds_t milliseconds_t long_t].
  rewrite IntFacts.wrap_small by (int_range; lia). auto.
Qed.

Lemma get_adjusted_time_total ty W N t :
  wide_enough ty W -> bounded N t -> 1001 * N <= W ->
  get_adjusted_time ty t = total t.
Proof.
  intros Hwide [Hs Hm] HW. unfold get_adjusted_time, total.
  wide_values Hwide. reflexivity.
Qed.

Lemma operator_plus_total ty W Na Nb a b :
  wide_enough ty W -> bounded Na a -> bounded Nb b -> Na + Nb + 1000 <= W ->
  total (operator_plus ty a b) = total a + total b /\
  bounded (Na + Nb + 1) (operator_plus ty a b).
Proof.
  intros Hwide [Has Ham] [Hbs Hbm] HW. unfold operator_plus, total, bounded.
  wide_values Hwide.
  destruct (milliseconds a + milliseconds b >? 1000) eqn:E;
    wide_values Hwide; cbn [seconds milliseconds]; lia.
Qed.

Lemma operator_minus_total ty W Na Nb a b :
  wide_enough ty W -> bounded Na a -> bounded Nb b -> Na + Nb + 1000 <= W ->
  total (operator_minus ty a b) = total a - total b /\
  Z.abs (seconds (operator_minus ty a b)) <= Na + Nb /\
  Z.abs (milliseconds (operator_minus ty a b)) <= Na + Nb + 1000.
Proof.
  intros Hwide [Has Ham] [Hbs Hbm] HW. unfold operator_minus, total.
  wide_values Hwide.
  destruct ((seconds a - seconds b >? 0)
            && (milliseconds a - milliseconds b <? 0)) eqn:E1;
    cbn [seconds milliseconds]; wide_values Hwide.
  - apply andb_true_iff in E1 as [E1 E1'].
    destruct ((seconds a - seconds b - 1 <? 0)
              && (milliseconds a - milliseconds b + 1000 >? 0)) eqn:E2;
      cbn [seconds milliseconds]; wide_values Hwide;
      cbn [seconds milliseconds]; lia.
  - destruct ((seconds a - seconds b <? 0)
              && (milliseconds a - milliseconds b >? 0)) eqn:E2;
      cbn [seconds milliseconds]; wide_values Hwide;
      cbn [seconds milliseconds]; lia.
Qed.

Lemma get_time_as_integer_reading ty W M tv :
  wide_enough ty W -> reading_ok M tv -> M <= W -> 1000 <= W ->
  get_time_as_integer ty tv
  = {| seconds := tv_sec tv; milliseconds := Z.quot (tv_usec tv) 1000 |} /\
  0 <= Z.quot (tv_usec tv) 1000 < 1000.
Proof.
  intros Hwide [Hs Hu] HM HW.
  assert (0 <= Z.quot (tv_usec tv) 1000 < 1000) as Hq.
  { rewrite Z.quot_div_nonneg by lia. split.
    - apply Z.div_pos; lia.
    - apply Z.div_lt_upper_bound; lia. }
  split; [|exact Hq]. unfold get_time_as_integer.
  wide_values Hwide. reflexivity.
Qed.

(** X26. As long as the integer types hold the values, the milliseconds
    [get_adjusted_time] reports are additive: those of a sum by [operator+]
    are the sum, those of a difference by [operator-] the difference,
    whatever the signs and whether the operands are normalised or not; so
    adding to [a] the difference of [b] and [a] gives the time of [b]. *)
Theorem timer_arithmetic (ty : timer_types) (W N : Z) (a b : timer_t) :
  wide_enough ty W -> bounded N a -> bounded N b ->
  1001 * (3 * N + 1001) <= W ->
  get_adjusted_time ty (operator_plus ty a b)
    = get_adjusted_time ty a + get_adjusted_time ty b /\
  get_adjusted_time ty (operator_minus ty a b)
    = get_adjusted_time ty a - get_adjusted_time ty b /\
  get_adjusted_time ty (operator_plus ty a (operator_minus ty b a))
    = get_adjusted_time ty b.
Proof.
  intros Hwide Ha Hb HW.
  assert (0 <= N) as HN by (destruct Ha; lia).
  destruct (operator_plus_total ty W N N a b Hwide Ha Hb ltac:(lia))
    as [Eplus Bplus].
  destruct (operator_minus_total ty W N N a b Hwide Ha Hb ltac:(lia))
    as (Eminus & Bs & Bm).
  destruct (operator_minus_total ty W N N b a Hwide Hb Ha ltac:(lia))
    as (Eminus' & Bs' & Bm').
  assert (bounded (2 * N + 1000) (operator_minus ty a b)) as Bminus
    by (split; lia).
  assert (bounded (2 * N + 1000) (operator_minus ty b a)) as Bminus'
    by (split; lia).
  destruct (operator_plus_total ty W N (2 * N + 1000) a
              (operator_minus ty b a) Hwide Ha Bminus' ltac:(lia))
    as [Eback Bback].
  rewrite (get_adjusted_time_total ty W N a Hwide Ha ltac:(lia)).
  rewrite (get_adjusted_time_total ty W N b Hwide Hb ltac:(lia)).
  rewrite (get_adjusted_time_total ty W _ _ Hwide Bplus ltac:(lia)).
  rewrite (get_adjusted_time_total ty W _ _ Hwide Bminus ltac:(lia)).
  rewrite (get_adjusted_time_total ty W _ _ Hwide Bback ltac:(lia)).
  repeat split; lia.
Qed.

Lemma timer_arithmetic_witness :
  get_adjusted_time int_types
    (operator_plus int_types (mkTimerT 3 700) (mkTimerT 1 600)) = 5300 /\
  get_adjusted_time int_types
    (operator_minus int_types (mkTimerT 3 200) (mkTimerT 1 600)) = 1600.
Proof.
  destruct (timer_arithmetic int_types Int.int_max 1000
              (mkTimerT 3 700) (mkTimerT 1 600) int_types_wide)
    as (Eplus & _); [split; cbn; lia ..|unfold Int.int_max; lia|].
  destruct (timer_arithmetic int_types Int.int_max 1000
              (mkTimerT 3 200) (mkTimerT 1 600) int_types_wide)
    as (_ & Eminus & _); [split; cbn; lia ..|unfold Int.int_max; lia|].
  split; [rewrite Eplus|rewrite Eminus]; reflexivity.
Defined.

(** X27. [operator-] normalises the difference of two normal times (with
    milliseconds from 0 to 999): its milliseconds are strictly between
    -1000 and 1000 and do not have the sign opposite to the seconds; and
    when the first time is not before the second the difference is a normal
    time with seconds that are not negative. *)
Theorem operator_minus_normalizes (ty : timer_types) (W N : Z)
    (a b : timer_t) :
  wide_enough ty W -> bounded N a -> bounded N b -> 2 * N + 1000 <= W ->
  normal a -> normal b ->
  let d := operator_minus ty a b in
  - 1000 < milliseconds d < 1000 /\
  (0 < seconds d -> 0 <= milliseconds d) /\
  (seconds d < 0 -> milliseconds d <= 0) /\
  (total b <= total a -> 0 <= seconds d /\ normal d).
Proof.
  intros Hwide [Has Ham] [Hbs Hbm] HW Hna Hnb d. subst d.
  unfold normal, total in *. unfold operator_minus.
  wide_values Hwide.
  destruct ((seconds a - seconds b >? 0)
            && (milliseconds a - milliseconds b <? 0)) eqn:E1;
    cbn [seconds milliseconds]; wide_values Hwide.
  - apply andb_true_iff in E1 as [E1 E1'].
    destruct ((seconds a - seconds b - 1 <? 0)
              && (milliseconds a - milliseconds b + 1000 >? 0)) eqn:E2;
      cbn [seconds milliseconds]; wide_values Hwide;
      cbn [seconds milliseconds]; lia.
  - destruct ((seconds a - seconds b <? 0)
              && (milliseconds a - milliseconds b >? 0)) eqn:E2;
      cbn [seconds milliseconds]; wide_values Hwide;
      cbn [seconds milliseconds]; lia.
Qed.

Lemma operator_minus_normalizes_witness :
  operator_minus int_types (mkTimerT 5 100) (mkTimerT 2 900) = mkTimerT 2 200 /\
  normal (operator_minus int_types (mkTimerT 5 100) (mkTimerT 2 900)).
Proof.
  destruct (operator_minus_normalizes int_types Int.int_max 1000
              (mkTimerT 5 100) (mkTimerT 2 900) int_types_wide)
    as (_ & _ & _ & Hlater);
    [split; cbn; lia ..|unfold Int.int_max; lia
     |unfold normal; cbn; lia|unfold normal; cbn; lia|].
  split; [reflexivity|]. apply Hlater. unfold total. cbn. lia.
Defined.

(** X28. [operator+] carries into the seconds when the milliseconds exceed
    1000, not when they reach it: for a left operand with milliseconds from
    0 to 1000 and a normal right operand the milliseconds of the sum are
    from 0 to 1000, and they are 1000, one second left in the milliseconds,
    exactly when the milliseconds of the operands add up to 1000. *)
Theorem operator_plus_carry (ty : timer_types) (W N : Z) (a b : timer_t) :
  wide_enough ty W -> bounded N a -> bounded N b -> 2 * N + 1000 <= W ->
  0 <= milliseconds a <= 1000 -> normal b ->
  let r := operator_plus ty a b in
  0 <= milliseconds r <= 1000 /\
  (milliseconds r = 1000 <-> milliseconds a + milliseconds b = 1000) /\
  (milliseconds a + milliseconds b <> 1000 -> normal r).
Proof.
  intros Hwide [Has Ham] [Hbs Hbm] HW Hna Hnb r. subst r.
  unfold normal in *. unfold operator_plus.
  wide_values Hwide.
  destruct (milliseconds a + milliseconds b >? 1000) eqn:E;
    wide_values Hwide; cbn [seconds milliseconds]; lia.
Qed.

Lemma operator_plus_carry_witness :
  operator_plus int_types (mkTimerT 0 500) (mkTimerT 0 500) = mkTimerT 0 1000 /\
  operator_plus int_types (mkTimerT 0 500) (mkTimerT 0 501) = mkTimerT 1 1.
Proof.
  destruct (operator_plus_carry int_types Int.int_max 1000
              (mkTimerT 0 500) (mkTimerT 0 500) int_types_wide)
    as (_ & Hcarry & _);
    [split; cbn; lia ..|unfold Int.int_max; lia
     |cbn; lia|unfold normal; cbn; lia|].
  pose proof (proj2 Hcarry eq_refl) as E.
  split; reflexivity.
Defined.

(** The timer over a run of intervals. *)
Lemma run_intervals_total ty W M l :
  wide_enough ty W ->
  Forall (fun ab : timeval * timeval =>
            reading_ok M ab.1 /\ reading_ok M ab.2) l ->
  forall t N,
  bounded N (accumulated t) ->
  N + 4 * (Z.of_nat (length l) * (M + 1000)) <= W ->
  total (accumulated (run_intervals ty l t))
    = total (accumulated t) + elapsed l /\
  bounded (N + 4 * (Z.of_nat (length l) * (M + 1000)))
    (accumulated (run_intervals ty l t)) /\
  internal_state (run_intervals ty l t)
    = match l with
      | [] => internal_state t
      | _ => STOPPED
      end.
Proof.
  intros Hwide Hall. induction Hall as [|[a b] l [Ha Hb] Hall IH];
    intros t N HN HW.
  - cbn [run_intervals elapsed length]. split; [lia|].
    split; [|reflexivity]. destruct HN. split; lia.
  - cbn [run_intervals elapsed]. cbn [fst snd] in Ha, Hb.
    assert (0 <= N) as HN0 by (destruct HN; lia).
    assert (0 <= M) as HM by (destruct Ha; lia).
    set (K := Z.of_nat (length l) * (M + 1000)) in *.
    assert (0 <= K) as HK by (subst K; apply Z.mul_nonneg_nonneg; lia).
    assert (Z.of_nat (length ((a, b) :: l)) * (M + 1000) = K + (M + 1000))
      as EK by (subst K; cbn [length]; lia).
    rewrite EK in *. clear EK.
    destruct (get_time_as_integer_reading ty W M a Hwide Ha ltac:(lia)
                ltac:(lia)) as [Ea Hqa].
    destruct (get_time_as_integer_reading ty W M b Hwide Hb ltac:(lia)
                ltac:(lia)) as [Eb Hqb].
    assert (bounded (M + 1000) (get_time_as_integer ty a)) as Ba
      by (rewrite Ea; destruct Ha; split; cbn [seconds milliseconds]; lia).
    assert (bounded (M + 1000) (get_time_as_integer ty b)) as Bb
      by (rewrite Eb; destruct Hb; split; cbn [seconds milliseconds]; lia).
    destruct (operator_minus_total ty W _ _ _ _ Hwide Bb Ba ltac:(lia))
      as (Ed & Bs & Bm).
    assert (bounded (3 * (M + 1000))
              (operator_minus ty (get_time_as_integer ty b)
                 (get_time_as_integer ty a))) as Bd by (split; lia).
    destruct (operator_plus_total ty W _ _ _ _ Hwide HN Bd ltac:(lia))
      as [Es Bsum].
    set (t1 := stop ty b (start ty a t)).
    assert (bounded (N + 4 * (M + 1000)) (accumulated t1)) as B1.
    { destruct Bsum as [Bsum1 Bsum2].
      split; cbn [t1 stop start accumulated start_time]; lia. }
    destruct (IH t1 (N + 4 * (M + 1000)) B1 ltac:(lia)) as (Et & Bt & St).
    split; [|split].
    + rewrite Et. cbn [t1 stop start accumulated start_time].
      rewrite Es, Ed, Ea, Eb. unfold total, millis.
      cbn [seconds milliseconds]. lia.
    + destruct Bt. split; lia.
    + rewrite St. destruct l; reflexivity.
Qed.

(** X29. A timer that is started and stopped at the two readings of each
    of a run of intervals reports the sum of the intervals in milliseconds,
    each reading counting its microseconds cut to whole milliseconds;
    whatever its [start_time] was at first, and whatever the clock reads
    when [time] is called. *)
Theorem timer_total (ty : timer_types) (W M : Z)
    (l : list (timeval * timeval)) (indeterminate : timer_t) (now : timeval) :
  wide_enough ty W ->
  Forall (fun ab : timeval * timeval =>
            reading_ok M ab.1 /\ reading_ok M ab.2) l ->
  4004 * (Z.of_nat (length l) * (M + 1000)) <= W ->
  time ty now (run_intervals ty l (Timer_new indeterminate)) = elapsed l.
Proof.
  intros Hwide Hall HW.
  assert (0 <= Z.of_nat (length l) * (M + 1000)) as Hpos.
  { destruct Hall as [|[a b] l [[Ha _] _] _]; [cbn; lia|].
    apply Z.mul_nonneg_nonneg; lia. }
  destruct (run_intervals_total ty W M l Hwide Hall (Timer_new indeterminate) 0)
    as (Et & Bt & St); [split; cbn; lia|lia|].
  unfold time.
  assert (match internal_state (run_intervals ty l (Timer_new indeterminate))
          with
          | RUNNING =>
              operator_plus ty
                (accumulated (run_intervals ty l (Timer_new indeterminate)))
                (operator_minus ty (get_time_as_integer ty now)
                   (start_time
                      (run_intervals ty l (Timer_new indeterminate))))
          | _ => accumulated (run_intervals ty l (Timer_new indeterminate))
          end = accumulated (run_intervals ty l (Timer_new indeterminate)))
    as ->.
  { rewrite St. destruct l; reflexivity. }
  rewrite (get_adjusted_time_total ty W _ _ Hwide Bt ltac:(lia)).
  rewrite Et. unfold total.
  cbn [Timer_new accumulated seconds milliseconds]. lia.
Qed.

Lemma timer_total_witness :
  time int_types (mkTimeval 99 0)
    (run_intervals int_types
       [(mkTimeval 10 250000, mkTimeval 12 100999);
        (mkTimeval 20 900000, mkTimeval 21 0)]
       (Timer_new (mkTimerT 7 7))) = 1950.
Proof.
  rewrite (timer_total int_types Int.int_max 100
             [(mkTimeval 10 250000, mkTimeval 12 100999);
              (mkTimeval 20 900000, mkTimeval 21 0)]
             (mkTimerT 7 7) (mkTimeval 99 0) int_types_wide).
  - reflexivity.
  - repeat constructor; cbn; lia.
  - cbn. unfold Int.int_max. lia.
Defined.

(** X30. While the timer runs, [time] adds to what was accumulated the time
    from the last [start] to the reading of the clock; [stop] at that
    reading freezes this value, whatever the clock reads later.  [stop]
    does not look at the state: a second [stop] adds the time since the
    same [start] once more.  After [reset] the time is zero. *)
Theorem timer_running (ty : timer_types) (W M N : Z) (t : Timer)
    (a b c : timeval) :
  wide_enough ty W ->
  bounded N (accumulated t) ->
  reading_ok M a -> reading_ok M b -> reading_ok M c ->
  1001 * (N + 8 * (M + 1000)) <= W ->
  let base := get_adjusted_time ty (accumulated t) in
  time ty b (start ty a t) = base + (millis b - millis a) /\
  time ty c (stop ty b (start ty a t)) = base + (millis b - millis a) /\
  time ty c (stop ty c (stop ty b (start ty a t)))
    = base + (millis b - millis a) + (millis c - millis a) /\
  time ty c (reset t) = 0.
Proof.
  intros Hwide HN Ha Hb Hc HW base. subst base.
  assert (0 <= N) as HN0 by (destruct HN; lia).
  assert (0 <= M) as HM by (destruct Ha; lia).
  destruct (get_time_as_integer_reading ty W M a Hwide Ha ltac:(lia)
              ltac:(lia)) as [Ea Hqa].
  destruct (get_time_as_integer_reading ty W M b Hwide Hb ltac:(lia)
              ltac:(lia)) as [Eb Hqb].
  destruct (get_time_as_integer_reading ty W M c Hwide Hc ltac:(lia)
              ltac:(lia)) as [Ec Hqc].
  assert (bounded (M + 1000) (get_time_as_integer ty a)) as Ba
    by (rewrite Ea; destruct Ha; split; cbn; lia).
  assert (bounded (M + 1000) (get_time_as_integer ty b)) as Bb
    by (rewrite Eb; destruct Hb; split; cbn; lia).
  assert (bounded (M + 1000) (get_time_as_integer ty c)) as Bc
    by (rewrite Ec; destruct Hc; split; cbn; lia).
  destruct (operator_minus_total ty W _ _ _ _ Hwide Bb Ba ltac:(lia))
    as (Edb & Bsb & Bmb).
  destruct (operator_minus_total ty W _ _ _ _ Hwide Bc Ba ltac:(lia))
    as (Edc & Bsc & Bmc).
  assert (bounded (3 * (M + 1000))
            (operator_minus ty (get_time_as_integer ty b)
               (get_time_as_integer ty a))) as Bdb by (split; lia).
  assert (bounded (3 * (M + 1000))
            (operator_minus ty (get_time_as_integer ty c)
               (get_time_as_integer ty a))) as Bdc by (split; lia).
  destruct (operator_plus_total ty W _ _ _ _ Hwide HN Bdb ltac:(lia))
    as [Es1 Bs1].
  destruct (operator_plus_total ty W _ _ _ _ Hwide Bs1 Bdc ltac:(lia))
    as [Es2 Bs2].
  assert (total (get_time_as_integer ty a) = millis a) as Ta
    by (rewrite Ea; reflexivity).
  assert (total (get_time_as_integer ty b) = millis b) as Tb
    by (rewrite Eb; reflexivity).
  assert (total (get_time_as_integer ty c) = millis c) as Tc
    by (rewrite Ec; reflexivity).
  unfold time.
  cbn [internal_state accumulated start_time start stop reset].
  rewrite (get_adjusted_time_total ty W _ _ Hwide HN ltac:(lia)).
  rewrite (get_adjusted_time_total ty W _ _ Hwide Bs1 ltac:(lia)).
  rewrite (get_adjusted_time_total ty W _ _ Hwide Bs2 ltac:(lia)).
  rewrite (get_adjusted_time_total ty W 0 (mkTimerT 0 0) Hwide)
    by (try split; cbn; lia).
  rewrite Es2, Es1, Edb, Edc, Ta, Tb, Tc.
  repeat split; lia.
Qed.

Lemma timer_running_witness :
  time int_types (mkTimeval 12 500000)
    (start int_types (mkTimeval 10 0) (Timer_new (mkTimerT 7 7))) = 2500 /\
  time int_types (mkTimeval 13 0)
    (stop int_types (mkTimeval 13 0)
       (stop int_types (mkTimeval 12 500000)
          (start int_types (mkTimeval 10 0) (Timer_new (mkTimerT 7 7)))))
  = 5500.
Proof.
  destruct (timer_running int_types Int.int_max 100 0
              (Timer_new (mkTimerT 7 7))
              (mkTimeval 10 0) (mkTimeval 12 500000) (mkTimeval 13 0)
              int_types_wide)
    as (Erun & _ & Etwice & _);
    [split; cbn; lia|split; cbn; lia ..|unfold Int.int_max; lia|].
  split; [rewrite Erun|rewrite Etwice]; reflexivity.
Defined.

(** * The size limit of [print] and [print_text] *)

Lemma c_string_take n :
  forall l, c_string (take n l) = take n (c_string l).
Proof.
  induction n as [|n IH]; intros [|ch l]; try reflexivity.
  rewrite firstn_cons. cbn [c_string]. destruct (ch =? 0); [reflexivity|].
  rewrite firstn_cons, IH. reflexivity.
Qed.

Lemma c_string_lookup l :
  forall j ch, c_string l !! j = Some ch -> l !! j = Some ch /\ ch <> 0.
Proof.
  induction l as [|x l IH]; intros j ch H; [discriminate H|].
  cbn [c_string] in H. destruct (x =? 0) eqn:E; [discriminate H|].
  apply Z.eqb_neq in E. destruct j as [|j].
  - apply (inj Some) in H. subst x. split; [reflexivity|exact E].
  - apply (IH j ch H).
Qed.

(** With a width that is negative, or not below the length of the text, the
    loops stop at the terminator: the whole text is written. *)
Lemma print_loops_unbounded attribute string :
  In 0 string ->
  Z.of_nat (length (c_string string)) <= Int.int_max ->
  forall width screen_pointer image,
  Int.in_range width ->
  width < 0 \/ Z.of_nat (length (c_string string)) <= width ->
  print_loop string width screen_pointer attribute image
    = write_cells (c_string string) screen_pointer attribute image /\
  print_text_loop string width screen_pointer image
    = write_chars (c_string string) screen_pointer image.
Proof.
  induction string as [|ch string IH]; intros Hz Hlen width sp image Hw Hwide;
    [destruct Hz|].
  cbn [print_loop print_text_loop c_string] in *.
  destruct (ch =? 0) eqn:E; [split; reflexivity|].
  cbn [length] in Hlen, Hwide.
  assert (In 0 string) as Hz'
    by (destruct Hz as [->|?]; [discriminate|assumption]).
  assert (Int.in_range (Int.sub width 1)) as Hw' by apply IntFacts.wrap_range.
  assert (Int.sub width 1 < 0
          \/ Z.of_nat (length (c_string string)) <= Int.sub width 1) as Hwide'.
  { destruct (Z.eq_dec width Int.int_min) as [->|Hmin].
    - right. change (Int.sub Int.int_min 1) with Int.int_max. lia.
    - rewrite IntFacts.sub_small by (int_range; lia). lia. }
  replace (width =? 0) with false by lia.
  cbn [write_cells write_chars]. split.
  - destruct (store image sp ch) as [image1|]; [|reflexivity].
    destruct (store image1 (sp + 1) (to_char attribute)) as [image2|];
      [|reflexivity].
    apply IH; (assumption || lia).
  - destruct (store image sp ch) as [image1|]; [|reflexivity].
    apply IH; (assumption || lia).
Qed.

(** The width [adjust_dimensions] returns is an [int]. *)
Lemma adjust_dimensions_width_range rows columns r c w h r' c' w' h' :
  Int.in_range w ->
  adjust_dimensions rows columns r c w h = (r', c', w', h') ->
  Int.in_range w'.
Proof.
  intros Hw. unfold adjust_dimensions. intros H.
  injection H as _ _ <- _.
  repeat case_match; try apply IntFacts.wrap_range; try exact Hw;
    int_range; lia.
Qed.

(** What the work buffer holds after the [vsnprintf] of [print]: the first
    1024 characters of the expansion, a terminator, and what it held
    before. *)
Lemma vsnprintf_work_buffer work_buffer formatted :
  vsnprintf work_buffer (maximum_print_size + 1) formatted
  = take 1024 formatted
    ++ 0 :: drop (S (Nat.min 1024 (length formatted))) work_buffer.
Proof.
  unfold vsnprintf, maximum_print_size.
  change (Z.to_nat (1024 + 1 - 1)) with 1024%nat.
  rewrite length_app, length_take, <- app_assoc. cbn [length app].
  do 3 f_equal. lia.
Qed.

(** [print] and [print_text] on any state and any arguments. *)
Lemma print_exact s row column count attribute formatted r' c' w' h' :
  adjust_dimensions (total_rows s) (total_columns s) row column
    (Int.wrap count) 1 = (r', c', w', h') ->
  let text :=
    take (if w' <? 0 then 1024%nat else Z.to_nat w')
      (c_string (take 1024 formatted)) in
  let buffer' :=
    take 1024 formatted
    ++ 0 :: drop (S (Nat.min 1024 (length formatted))) (work_buffer s) in
  let p := cell_offset (total_columns s) r' c' in
  print row column count attribute formatted s
  = (let? image := screen_image s in
     let? image' :=
       write_cells text p (convert_attribute (color_works s) attribute)
         image in
     Some (set_screen_image (Some image') (set_work_buffer buffer' s))) /\
  print_text row column count formatted s
  = (let? image := screen_image s in
     let? image' := write_chars text p image in
     Some (set_screen_image (Some image') (set_work_buffer buffer' s))).
Proof.
  intros Eadj text buffer' p.
  pose proof (adjust_dimensions_width_range _ _ _ _ _ _ _ _ _ _
                (IntFacts.wrap_range count) Eadj) as Hw.
  destruct (c_string_vsnprintf (work_buffer s) formatted) as [Ecs Hz].
  pose proof (c_string_truncated formatted) as Hcut.
  assert (forall image,
            print_loop
              (vsnprintf (work_buffer s) (maximum_print_size + 1) formatted)
              w' p (convert_attribute (color_works s) attribute) image
            = write_cells text p
                (convert_attribute (color_works s) attribute) image /\
            print_text_loop
              (vsnprintf (work_buffer s) (maximum_print_size + 1) formatted)
              w' p image
            = write_chars text p image) as Hloops.
  { intros image. subst text. destruct (w' <? 0) eqn:Eneg.
    - rewrite take_ge by lia. rewrite <- Ecs.
      apply print_loops_unbounded;
        [exact Hz|rewrite Ecs; unfold Int.int_max; lia|exact Hw|lia].
    - rewrite <- Ecs. split.
      + apply print_loop_width; [exact Hz|int_range; lia].
      + apply print_text_loop_width; [exact Hz|int_range; lia]. }
  unfold print, print_text. rewrite Eadj.
  cbn [total_columns screen_image work_buffer set_work_buffer color_works].
  fold p. destruct (screen_image s) as [image|]; [|split; reflexivity].
  destruct (Hloops image) as [-> ->].
  rewrite vsnprintf_work_buffer. split; reflexivity.
Qed.

(** C10. [print] and [print_text] cut the text at 1024 characters.  The
    text is what precedes the first terminator in the first 1024
    characters of the expansion; the work buffer receives those 1024
    characters and a terminator.  On every state and for all arguments, a
    count beyond the range of [int] included, the two functions store cells
    for the first characters of that text, as many as the width
    [adjust_dimensions] returns allows, at most 1024, and touch no byte
    outside those cells.  On an open session, when the count added to the
    column does not overflow, [n] cells of the clamped row are written, [n]
    being the smallest of the length of the text, the count (0 standing for
    1) and the columns left to the right edge: cell [j] takes character [j]
    of the expansion, and every other cell of the screen is unchanged.  So
    when the expansion has 1024 characters or more and the count and the
    columns left are 1024 or more, exactly 1024 cells are written. *)
Theorem print_size_limit (s : scr) (row column count attribute : Z)
    (formatted : list Z) :
  let cut := c_string (take 1024 formatted) in
  let buffer' :=
    take 1024 formatted
    ++ 0 :: drop (S (Nat.min 1024 (length formatted))) (work_buffer s) in
  let after := fun image' =>
    set_screen_image (Some image') (set_work_buffer buffer' s) in
  length cut = Nat.min 1024 (length (c_string formatted)) /\
  (exists r' c' w' h',
     adjust_dimensions (total_rows s) (total_columns s) row column
       (Int.wrap count) 1 = (r', c', w', h') /\
     let text := take (if w' <? 0 then 1024%nat else Z.to_nat w') cut in
     let p := cell_offset (total_columns s) r' c' in
     (length text <= 1024)%nat /\
     print row column count attribute formatted s
     = (let? image := screen_image s in
        let? image' :=
          write_cells text p (convert_attribute (color_works s) attribute)
            image in
        Some (after image')) /\
     print_text row column count formatted s
     = (let? image := screen_image s in
        let? image' := write_chars text p image in
        Some (after image')) /\
     (forall image image',
        write_cells text p (convert_attribute (color_works s) attribute)
          image = Some image' \/ write_chars text p image = Some image' ->
        length image' = length image /\
        forall q, ~ (p <= q < p + 2 * Z.of_nat (length text)) ->
                  load image' q = load image q)) /\
  (session_ok s ->
   0 <= count ->
   clamp 1 (total_columns s) column + Z.max count 1 - 1 <= Int.int_max ->
   let r' := clamp 1 (total_rows s) row in
   let c' := clamp 1 (total_columns s) column in
   let n :=
     Z.min (Z.of_nat (length cut))
       (Z.min (Z.max count 1) (total_columns s - c' + 1)) in
   exists image1 image2,
     print row column count attribute formatted s = Some (after image1) /\
     print_text row column count formatted s = Some (after image2) /\
     0 <= n <= 1024 /\
     c' + n - 1 <= total_columns s /\
     (forall j, 0 <= j < n ->
        exists ch ch0 old,
          formatted !! Z.to_nat j = Some ch /\ ch <> 0 /\
          cell_at (screen_image s) (total_columns s) r' (c' + j)
            = Some (ch0, old) /\
          cell_at (Some image1) (total_columns s) r' (c' + j)
            = Some (ch, to_char (convert_attribute (color_works s) attribute))
          /\
          cell_at (Some image2) (total_columns s) r' (c' + j)
            = Some (ch, old)) /\
     (forall row2 column2,
        1 <= column2 <= total_columns s ->
        ~ (row2 = r' /\ c' <= column2 < c' + n) ->
        cell_at (Some image1) (total_columns s) row2 column2
          = cell_at (screen_image s) (total_columns s) row2 column2 /\
        cell_at (Some image2) (total_columns s) row2 column2
          = cell_at (screen_image s) (total_columns s) row2 column2) /\
     (1024 <= Z.of_nat (length (c_string formatted)) ->
      1024 <= count -> c' + 1023 <= total_columns s -> n = 1024)).
Proof.
  intros cut buffer' after.
  assert (length cut = Nat.min 1024 (length (c_string formatted))) as Hcut.
  { subst cut. rewrite c_string_take. apply length_take. }
  split; [exact Hcut|]. split.
  - destruct (adjust_dimensions (total_rows s) (total_columns s) row column
                (Int.wrap count) 1) as [[[r' c'] w'] h'] eqn:Eadj.
    exists r', c', w', h'. split; [reflexivity|].
    destruct (print_exact s row column count attribute formatted _ _ _ _ Eadj)
      as [Hprint Htext].
    intros text p.
    split; [subst text; rewrite length_take; lia|].
    split; [exact Hprint|]. split; [exact Htext|].
    intros image image' [H|H].
    + apply (write_cells_frame _ _ _ _ _ H).
    + apply (write_chars_frame _ _ _ _ H).
  - intros (Hgeo & image & Himage & Hsize) Hcount Hsum r' c' n.
    pose proof (geometry_bounds _ _ Hgeo) as (Hrows & Hcols & Hstride).
    assert (1 <= r' <= total_rows s) as Hr'
      by (subst r'; unfold clamp; repeat case_match; lia).
    assert (1 <= c' <= total_columns s) as Hc'
      by (subst c'; unfold clamp; repeat case_match; lia).
    set (w' := Z.min (Z.max count 1) (total_columns s - c' + 1)) in *.
    assert (1 <= w' <= total_columns s - c' + 1) as Hw' by lia.
    pose proof (adjust_dimensions_print _ _ row column count Hgeo Hcount Hsum)
      as Eadj.
    fold r' c' w' in Eadj.
    destruct (print_exact s row column count attribute formatted _ _ _ _ Eadj)
      as [Hprint Htext].
    replace (w' <? 0) with false in Hprint, Htext by lia.
    fold cut buffer' in Hprint, Htext.
    set (text := take (Z.to_nat w') cut) in *.
    assert (Z.of_nat (length text) = n) as Hlen
      by (subst text n; rewrite length_take; lia).
    assert (region_ok (total_rows s) (total_columns s) r' c' w' 1) as Hreg
      by (unfold region_ok; lia).
    pose proof (region_row_in_image _ _ Hgeo r' c' w' 1 0 Hreg ltac:(lia))
      as (Hp0 & Hp1 & _).
    rewrite (cell_offset_small _ _ Hgeo) in Hprint, Htext by lia.
    set (p := cell_index (total_columns s) r' c') in *.
    destruct (write_cells_spec (convert_attribute (color_works s) attribute)
                text p image) as (image1 & Hrun1 & Hin1); try lia.
    destruct (write_chars_spec text p image)
      as (image2 & Hrun2 & Hin2 & Hout2); try lia.
    pose proof (write_cells_frame _ _ _ _ _ Hrun1) as [_ Hout1].
    rewrite Himage in Hprint, Htext.
    cbn beta iota in Hprint, Htext. rewrite Hrun1 in Hprint.
    rewrite Hrun2 in Htext.
    exists image1, image2. split; [exact Hprint|]. split; [exact Htext|].
    split; [lia|]. split; [lia|]. split; [|split].
    + intros j Hj.
      destruct (lookup_lt_is_Some_2 text (Z.to_nat j)) as [ch Hch]; [lia|].
      assert (Hch' := Hch). subst text cut.
      apply lookup_take_Some in Hch' as [Hch' _].
      rewrite c_string_take in Hch'.
      apply lookup_take_Some in Hch' as [Hch' _].
      apply c_string_lookup in Hch' as [Hfmt Hnz].
      assert (cell_index (total_columns s) r' (c' + j)
              = p + 2 * Z.of_nat (Z.to_nat j)) as Ecell
        by (unfold p, cell_index; lia).
      destruct (load_in_bounds image (p + 2 * Z.of_nat (Z.to_nat j)))
        as [ch0 Hch0]; [lia|].
      destruct (load_in_bounds image (p + 2 * Z.of_nat (Z.to_nat j) + 1))
        as [old Hold]; [lia|].
      destruct (Hin1 _ _ Hch) as [H1 H2].
      exists ch, ch0, old. rewrite Himage.
      split; [exact Hfmt|]. split; [exact Hnz|].
      split; [apply cell_at_loads; rewrite Ecell; assumption|].
      split; apply cell_at_loads; rewrite Ecell.
      * exact H1.
      * exact H2.
      * apply (Hin2 _ _ Hch).
      * rewrite Hout2; [exact Hold|]. intros i Hi. lia.
    + intros row2 column2 Hcol Hnot. rewrite Himage.
      assert (forall b, 0 <= b < 2 ->
                ~ (p <= cell_index (total_columns s) row2 column2 + b
                   < p + 2 * Z.of_nat (length text))) as Hfar.
      { intros b Hb Hq. apply Hnot.
        destruct (cell_in_region_rows _ _ Hgeo r' c' w' 1 row2 column2 b 0)
          as [E ?]; auto; try (fold p; lia).
        split; [lia|]. subst row2. unfold p, cell_index in Hq. lia. }
      split; apply cell_at_same.
      * apply Hout1. replace (cell_index (total_columns s) row2 column2)
          with (cell_index (total_columns s) row2 column2 + 0) by lia.
        apply Hfar. lia.
      * apply Hout1, Hfar. lia.
      * apply Hout2. intros i Hi E.
        apply (Hfar 0 ltac:(lia)). lia.
      * apply Hout2. intros i Hi E. unfold p, cell_index in E. lia.
    + intros Hlong Hc1024 Hroom. subst n w'. lia.
Qed.

Lemma print_size_limit_witness :
  exists image1,
    print 1 1 5000 0x17 (replicate 2000 65) wide_screen
    = Some (set_screen_image (Some image1)
              (set_work_buffer (replicate 1024 65 ++ [0]) wide_screen)) /\
    cell_at (Some image1) 1100 1 1024 = Some (65, 0x17) /\
    cell_at (Some image1) 1100 1 1025 = Some (32, 7).
Proof.
  destruct (print_size_limit wide_screen 1 1 5000 0x17 (replicate 2000 65))
    as (_ & _ & Hopen).
  destruct Hopen as (image1 & image2 & Hprint & _ & _ & _ & Hin & Hout & Hn).
  - split.
    + unfold geometry_ok. cbn [total_rows total_columns wide_screen].
      unfold Int.int_max. lia.
    + eexists. split; [reflexivity|]. vm_compute. reflexivity.
  - lia.
  - vm_compute. discriminate.
  - exists image1. split; [exact Hprint|].
    assert (Z.min
              (Z.of_nat (length (c_string (take 1024 (replicate 2000 65)))))
              (Z.min (Z.max 5000 1)
                 (total_columns wide_screen
                  - clamp 1 (total_columns wide_screen) 1 + 1)) = 1024)
      as En by (vm_compute; reflexivity).
    split.
    + destruct (Hin 1023) as (ch & ch0 & old & Hfmt & _ & _ & Hcell & _);
        [rewrite En; lia|].
      vm_compute in Hfmt. apply (inj Some) in Hfmt. subst ch. exact Hcell.
    + transitivity
        (cell_at (screen_image wide_screen) (total_columns wide_screen) 1 1025);
        [|vm_compute; reflexivity].
      apply Hout.
      * cbn [total_columns wide_screen]. lia.
      * rewrite En. vm_compute. intros [_ [_ H]]. discriminate H.
Defined.
